(** * mcp-server-imap: the query compiler, the body selector and the
      retrieval operations of [main.py], embedded and verified.

    The file follows the layout of [main.py]:
    - Python values, exceptions and the few library functions the code calls;
    - [get_email_body];
    - [dsl_to_search] with its inner [format_date], [parse_condition] and
      [parse_criteria];
    - the IMAP session as a capability record over an abstract world, and a
      small monad that threads the world, the log of session calls and
      exceptions through [search] and [fetch];
    - the theorems about them. *)

From Stdlib Require Import ZArith QArith Ascii String Strings.Byte List Bool Lia.
From stdpp Require Import base option list strings gmap pretty.

Set Warnings "-register-all".

Local Open Scope string_scope.
Local Open Scope Z_scope.
Local Open Scope list_scope.

(** ** Python values *)

(** The JSON-shaped objects handed to the tools.  A [dict] keeps its items in
    insertion order, which is the order [criteria.items()] yields them in. *)
Inductive value : Type :=
| VNone
| VBool (b : bool)
| VInt (n : Z)
| VStr (s : string)
| VList (l : list value)
| VDict (d : list (string * value)).

Abbreviation dict := (list (string * value)).

(** The exceptions the modelled code can raise or let through. *)
Inductive exn : Type :=
| ValueError
| TypeError
| KeyError
| AttributeError
| LookupError
| IMAPClientError (msg : string).

Inductive result (A : Type) : Type :=
| Ok (a : A)
| Raise (e : exn).
Arguments Ok {A} a.
Arguments Raise {A} e.

#[global] Instance result_ret : MRet result := fun A a => Ok a.
#[global] Instance result_bind : MBind result := fun A B f m =>
  match m with
  | Ok a => f a
  | Raise e => Raise e
  end.

Definition is_ok {A} (r : result A) : bool :=
  match r with Ok _ => true | Raise _ => false end.

(** [k in d] and [d[k]] on a dict. *)
Fixpoint dict_get (k : string) (d : dict) : option value :=
  match d with
  | [] => None
  | (k', v) :: d' => if String.eqb k' k then Some v else dict_get k d'
  end.

(** [key in [k1, k2, ...]] on a list of strings. *)
Definition str_in (k : string) (l : list string) : bool :=
  existsb (String.eqb k) l.

(** Python truthiness of a value ([not x], [x or y]). *)
Definition truthy (v : value) : bool :=
  match v with
  | VNone => false
  | VBool b => b
  | VInt n => negb (n =? 0)
  | VStr s => negb (String.eqb s "")
  | VList l => match l with [] => false | _ => true end
  | VDict d => match d with [] => false | _ => true end
  end.

(** A dict is well formed when no key occurs twice, at every level. *)
Fixpoint nodup_keys (seen : list string) (ks : list string) : bool :=
  match ks with
  | [] => true
  | k :: ks' => negb (str_in k seen) && nodup_keys (k :: seen) ks'
  end.

Fixpoint wf_value (v : value) : bool :=
  match v with
  | VList l => forallb wf_value l
  | VDict d =>
      nodup_keys [] (map fst d)
      && (fix wf_items (d : dict) : bool :=
            match d with
            | [] => true
            | (_, v) :: d' => wf_value v && wf_items d'
            end) d
  | _ => true
  end.

(** Monadic left fold: a [for] loop that threads an accumulator and stops at
    the first exception. *)
Fixpoint foldlM `{MBind M, MRet M} {A B} (f : A -> B -> M A) (a : A)
  (l : list B) : M A :=
  match l with
  | [] => mret a
  | x :: l' => a' ← f a x; foldlM f a' l'
  end.

(** ** Strings *)

Definition lower_ascii (c : ascii) : ascii :=
  let n := N_of_ascii c in
  if ((65 <=? n) && (n <=? 90))%N then ascii_of_N (n + 32) else c.

(** [s.lower()], on the ASCII letters. *)
Fixpoint lower (s : string) : string :=
  match s with
  | EmptyString => EmptyString
  | String c s' => String (lower_ascii c) (lower s')
  end.

(** [needle in hay] on strings. *)
Fixpoint contains (needle hay : string) : bool :=
  String.prefix needle hay
  || match hay with
     | EmptyString => false
     | String _ hay' => contains needle hay'
     end.

(** [s.split(sep, 1)] for a one-character separator: [None] when [sep] does
    not occur (the one-element list that cannot be unpacked in two). *)
Fixpoint split_first (sep : ascii) (s : string) : option (string * string) :=
  match s with
  | EmptyString => None
  | String c s' =>
      if Ascii.eqb c sep then Some (EmptyString, s')
      else '(a, b) ← split_first sep s'; Some (String c a, b)
  end.

(** ** Parsed e-mail messages *)

(** What [email.message_from_bytes] returns, as far as the code looks at it:
    a tree of parts, each with its header fields, its content type as
    [get_content_type()] reports it, its charset, and either the
    transfer-decoded bytes of a leaf or the sub-parts of a multipart. *)
Record part_info : Type := {
  headers : list (string * string);
  content_type : string;
  content_charset : option string
}.

Inductive message : Type :=
| Leaf (info : part_info) (payload : list byte)
| Multipart (info : part_info) (parts : list message).

Definition info (m : message) : part_info :=
  match m with Leaf i _ | Multipart i _ => i end.

(** [msg.walk()]: the part itself, then its sub-parts depth first. *)
Fixpoint walk (m : message) : list message :=
  m :: match m with
       | Leaf _ _ => []
       | Multipart _ parts => flat_map walk parts
       end.

(** [msg.get(name)]: header names compare case-insensitively and the first
    match wins. *)
Fixpoint header_get (name : string) (hs : list (string * string))
  : option string :=
  match hs with
  | [] => None
  | (n, v) :: hs' =>
      if String.eqb (lower n) (lower name) then Some v else header_get name hs'
  end.

(** [part.get_payload(decode=True)] is [None] on a multipart. *)
Definition get_payload (m : message) : option (list byte) :=
  match m with Leaf _ b => Some b | Multipart _ _ => None end.

(** The [email] parser and [bytes.decode(charset, errors="replace")] are
    library code.  With [errors="replace"] decoding fails only on an unknown
    codec name ([LookupError]). *)
Class Email : Type := {
  message_from_bytes : list byte -> message;
  bytes_decode : list byte -> string -> result string
}.

(** ** The message reconstructor: [get_email_body] *)

Section Body.
Context {em : Email}.

(** [part.get_payload(decode=True).decode(part.get_content_charset() or
    "utf-8", errors="replace")] *)
Definition decode_part (part : message) : result string :=
  match get_payload part with
  | None => Raise AttributeError
  | Some bytes =>
      let charset :=
        match content_charset (info part) with
        | Some c => if String.eqb c "" then "utf-8" else c
        | None => "utf-8"
        end in
      bytes_decode bytes charset
  end.

Definition is_attachment (part : message) : bool :=
  let content_disposition :=
    lower (default "" (header_get "Content-Disposition" (headers (info part)))) in
  contains "attachment" content_disposition.

(** One iteration of the loop over [msg.walk()], on the pair
    [(text_part, html_part)]. *)
Definition body_step (st : option string * option string) (part : message)
  : result (option string * option string) :=
  let '(text_part, html_part) := st in
  if is_attachment part then Ok st
  else if String.eqb (content_type (info part)) "text/plain"
          && bool_decide (text_part = None)
  then t ← decode_part part; Ok (Some t, html_part)
  else if String.eqb (content_type (info part)) "text/html"
          && bool_decide (html_part = None)
  then h ← decode_part part; Ok (text_part, Some h)
  else Ok st.

(** [a or b] where [a] is [None] or a string and [b] a string. *)
Definition or_str (a : option string) (b : string) : string :=
  match a with
  | Some s => if String.eqb s "" then b else s
  | None => b
  end.

Definition get_email_body (msg : message) : result string :=
  '(text_part, html_part) ← foldlM body_step (None, None) (walk msg);
  Ok (or_str text_part (or_str html_part "")).

(** *** Reading aids for the statements below *)

(** The parts the loop may remember for content type [ct]: those that are
    not attachments and have that type; the first one in document order. *)
Definition is_candidate (ct : string) (part : message) : bool :=
  negb (is_attachment part) && String.eqb (content_type (info part)) ct.

Definition first_part (ct : string) (msg : message) : option message :=
  List.find (is_candidate ct) (walk msg).

(** The decoded text of an optional part. *)
Definition decoded (p : option message) : result (option string) :=
  match p with
  | Some part => t ← decode_part part; Ok (Some t)
  | None => Ok None
  end.

(** What a remembered candidate becomes: it is kept if there is one. *)
Definition keep_first (old new : option string) : option string :=
  match old with Some _ => old | None => new end.

(** The part of [parts] that the loop will remember for type [ct], if the
    candidate [old] has not been set yet. *)
Definition next_candidate (ct : string) (old : option string)
  (parts : list message) : option message :=
  match old with
  | Some _ => None
  | None => List.find (is_candidate ct) parts
  end.

End Body.

(** ** The [datetime] library *)

Record datetime : Type := { year : Z; month : Z; day : Z }.

(** [datetime.strptime(s, "%Y-%m-%d")] and [dt.strftime("%d-%b-%Y")] are
    library code: the compiler is stated over any implementation of them. *)
Class Datetime : Type := {
  strptime_Ymd : string -> option datetime;
  strftime_dbY : datetime -> string
}.

(** ** The query compiler: [dsl_to_search] *)

Section Compiler.
Context {dt : Datetime}.

(** ['YYYY-MM-DD' -> 'D-Mon-YYYY'].  [strptime] raises [TypeError] on a
    value that is not a string and [ValueError] on a string it rejects. *)
Definition format_date (date_str : value) : result string :=
  match date_str with
  | VStr s =>
      match strptime_Ymd s with
      | Some dt => Ok (strftime_dbY dt)
      | None => Raise ValueError
      end
  | _ => Raise TypeError
  end.

Definition parse_condition (cond : dict) : result (list value) :=
  match dict_get "from" cond with
  | Some v => Ok [VStr "FROM"; v]
  | None =>
  match dict_get "to" cond with
  | Some v => Ok [VStr "TO"; v]
  | None =>
  match dict_get "cc" cond with
  | Some v => Ok [VStr "CC"; v]
  | None =>
  match dict_get "subject" cond with
  | Some v => Ok [VStr "SUBJECT"; v]
  | None =>
  match dict_get "since" cond with
  | Some v => d ← format_date v; Ok [VStr "SINCE"; VStr d]
  | None =>
  match dict_get "before" cond with
  | Some v => d ← format_date v; Ok [VStr "BEFORE"; VStr d]
  | None => Ok []
  end end end end end end.

(** The first loop of [parse_criteria]: every item whose key is neither
    ["or"] nor ["not"] is compiled as the single-key dict [{key: value}],
    in the order of [criteria.items()]. *)
Fixpoint regular_conditions (items : dict) : result (list value) :=
  match items with
  | [] => Ok []
  | (key, v) :: items' =>
      if negb (str_in key ["or"; "not"]) then
        r ← parse_condition [(key, v)];
        rs ← regular_conditions items';
        Ok (r ++ rs)
      else regular_conditions items'
  end.

(** The [or] branch once the sub-expressions are compiled:
    [result.extend(["OR"] + oc[0] + oc[1])], then for every further [oc[i]]
    [result = ["OR"] + result + oc[i]]. *)
Definition combine_or (res : list value) (or_conditions : list (list value))
  : list value :=
  match or_conditions with
  | c0 :: c1 :: more =>
      fold_left (fun res ci => [VStr "OR"] ++ res ++ ci) more
                (res ++ [VStr "OR"] ++ c0 ++ c1)
  | _ => res
  end.

(** The [not] branch once the sub-expressions are compiled and merged:
    [if not_conditions: result.extend(["NOT", not_conditions])]. *)
Definition extend_not (res : list value) (not_conditions : list value)
  : list value :=
  match not_conditions with
  | [] => res
  | _ => res ++ [VStr "NOT"; VList not_conditions]
  end.

(** [parse_criteria].  The look-ups [criteria["not"]] and [criteria["or"]]
    are written as local searches through the items so that the recursive
    calls are on structural sub-terms; [parse_criteria_eq] below states the
    body with [dict_get] and [mapM]. *)
Fixpoint parse_criteria (criteria : value) : result (list value) :=
  match criteria with
  | VDict d =>
      res ← regular_conditions d;
      res ← (fix find_not (items : dict) : result (list value) :=
               match items with
               | [] => Ok res
               | (k, not_criteria) :: items' =>
                   if String.eqb k "not" then
                     match not_criteria with
                     | VList l =>
                         not_conditions ←
                           (fix extend (l : list value) : result (list value) :=
                              match l with
                              | [] => Ok []
                              | condition :: l' =>
                                  r ← parse_criteria condition;
                                  rs ← extend l';
                                  Ok (r ++ rs)
                              end) l;
                         Ok (extend_not res not_conditions)
                     | _ => Ok res
                     end
                   else find_not items'
               end) d;
      res ← (fix find_or (items : dict) : result (list value) :=
               match items with
               | [] => Ok res
               | (k, or_criteria) :: items' =>
                   if String.eqb k "or" then
                     match or_criteria with
                     | VList l =>
                         or_conditions ←
                           (fix append (l : list value)
                              : result (list (list value)) :=
                              match l with
                              | [] => Ok []
                              | condition :: l' =>
                                  r ← parse_criteria condition;
                                  rs ← append l';
                                  Ok (r :: rs)
                              end) l;
                         Ok (combine_or res or_conditions)
                     | _ => Ok res
                     end
                   else find_or items'
               end) d;
      match res with
      | [] => parse_condition d
      | _ => Ok res
      end
  | _ => Raise AttributeError
  end.

Definition dsl_to_search (dsl : value) : result (list value) :=
  search_criteria ← parse_criteria dsl;
  match search_criteria with
  | [] => Ok [VStr "ALL"]
  | _ => Ok search_criteria
  end.

(** *** Reading aids for the statements below *)

Definition leaf_keys : list string :=
  ["from"; "to"; "cc"; "subject"; "since"; "before"].

(** The opcode/operand pair of one item [key: v]; nothing for a key that is
    not a leaf field. *)
Definition leaf_pair (key : string) (v : value) : result (list value) :=
  if String.eqb key "from" then Ok [VStr "FROM"; v]
  else if String.eqb key "to" then Ok [VStr "TO"; v]
  else if String.eqb key "cc" then Ok [VStr "CC"; v]
  else if String.eqb key "subject" then Ok [VStr "SUBJECT"; v]
  else if String.eqb key "since" then d ← format_date v; Ok [VStr "SINCE"; VStr d]
  else if String.eqb key "before" then d ← format_date v; Ok [VStr "BEFORE"; VStr d]
  else Ok [].

(** Step 1 as the specification words it: one pair per leaf key present,
    listed in the fixed order of [leaf_keys]. *)
Definition leaf_pairs_in_precedence (d : dict) : result (list value) :=
  groups ← mapM (fun key => match dict_get key d with
                            | Some v => leaf_pair key v
                            | None => Ok []
                            end) leaf_keys;
  Ok (concat groups).

(** The [not] group and the [or] group of an expression on their own. *)
Definition not_group (d : dict) : result (list value) :=
  match dict_get "not" d with
  | Some (VList l) =>
      groups ← mapM parse_criteria l; Ok (extend_not [] (concat groups))
  | _ => Ok []
  end.

Definition or_group (d : dict) : result (list value) :=
  match dict_get "or" d with
  | Some (VList l) =>
      or_conditions ← mapM parse_criteria l; Ok (combine_or [] or_conditions)
  | _ => Ok []
  end.

(** Step 4 as the specification words it: leaf fields, then the [not]
    group, then the [or] group. *)
Definition leaf_not_or (d : dict) : result (list value) :=
  leaf ← regular_conditions d;
  ng ← not_group d;
  og ← or_group d;
  Ok (leaf ++ ng ++ og).

(** The leaf items of an expression, in the order of its items. *)
Definition leaf_items (d : dict) : dict :=
  List.filter (fun kv => str_in kv.1 leaf_keys) d.

(** The compiled sub-expressions of the [or] list; none when there is no
    [or] or when it is not a list. *)
Definition or_conditions (d : dict) : result (list (list value)) :=
  match dict_get "or" d with
  | Some (VList l) => mapM parse_criteria l
  | _ => Ok []
  end.

(** What the [or] branch puts in front of the tokens it finds (one OR for
    every sub-expression after the second) and behind them (one OR and the
    tokens of the sub-expressions); nothing with fewer than two. *)
Definition or_prefix (or_conditions : list (list value)) : list value :=
  repeat (VStr "OR") (length or_conditions - 2).

Definition or_suffix (or_conditions : list (list value)) : list value :=
  match or_conditions with
  | c0 :: c1 :: more => VStr "OR" :: c0 ++ c1 ++ concat more
  | _ => []
  end.

(** [if len(x) == 0: x.append("ALL")] *)
Definition all_if_empty (toks : list value) : list value :=
  match toks with
  | [] => [VStr "ALL"]
  | _ => toks
  end.

(** A request carries a rejected date when a [since] or [before] field
    holds a string for which [datetime.strptime(s, "%Y-%m-%d")] raises, in
    the expression itself or in a sub-expression of a [not] or [or] list
    (these are the places where the compiler looks for sub-expressions).
    This is not the same as the string not having the shape [YYYY-MM-DD]:
    see [ymd_form] below. *)
Inductive rejected_date : value -> Prop :=
| rejected_here d key s :
    In (key, VStr s) d -> In key ["since"; "before"] ->
    strptime_Ymd s = None ->
    rejected_date (VDict d)
| rejected_in_not d l c :
    dict_get "not" d = Some (VList l) -> In c l -> rejected_date c ->
    rejected_date (VDict d)
| rejected_in_or d l c :
    dict_get "or" d = Some (VList l) -> In c l -> rejected_date c ->
    rejected_date (VDict d).

End Compiler.

(** ** A reference [datetime]

    An executable instance used to run the compiler on concrete requests.  It
    follows CPython's [_strptime] on ASCII input for the format ["%Y-%m-%d"]:
    the year is four digits, the month matches [1[0-2]|0[1-9]|[1-9]], the day
    matches [3[01]|[12]\d|0[1-9]|[1-9]| [1-9]], nothing may remain, and the
    date must exist.  ["%d-%b-%Y"] prints a two-digit day, the English month
    abbreviation and the year as the C library prints it (no padding). *)
Module RefDatetime.

Definition digit (c : ascii) : option Z :=
  let n := Z.of_N (N_of_ascii c) in
  if (48 <=? n) && (n <=? 57) then Some (n - 48) else None.

(** [s.split(sep)] for a one-character separator. *)
Fixpoint split_on (sep : ascii) (s : string) : list string :=
  match s with
  | EmptyString => [EmptyString]
  | String c s' =>
      if Ascii.eqb c sep then EmptyString :: split_on sep s'
      else match split_on sep s' with
           | f :: fs => String c f :: fs
           | [] => [String c EmptyString]
           end
  end.

Definition parse_year (f : string) : option Z :=
  match f with
  | String a (String b (String c (String d EmptyString))) =>
      a ← digit a; b ← digit b; c ← digit c; d ← digit d;
      Some (1000 * a + 100 * b + 10 * c + d)
  | _ => None
  end.

Definition parse_month (f : string) : option Z :=
  match f with
  | String a EmptyString =>
      a ← digit a; if 1 <=? a then Some a else None
  | String a (String b EmptyString) =>
      a ← digit a; b ← digit b;
      if (a =? 1) && (b <=? 2) then Some (10 + b)
      else if (a =? 0) && (1 <=? b) then Some b
      else None
  | _ => None
  end.

Definition parse_day (f : string) : option Z :=
  match f with
  | String a EmptyString =>
      a ← digit a; if 1 <=? a then Some a else None
  | String a (String b EmptyString) =>
      b ← digit b;
      if Ascii.eqb a " " then (if 1 <=? b then Some b else None)
      else
        a ← digit a;
        if (a =? 3) && (b <=? 1) then Some (30 + b)
        else if (1 <=? a) && (a <=? 2) then Some (10 * a + b)
        else if (a =? 0) && (1 <=? b) then Some b
        else None
  | _ => None
  end.

Definition is_leap (y : Z) : bool :=
  ((y mod 4 =? 0) && negb (y mod 100 =? 0)) || (y mod 400 =? 0).

Definition days_in_month (y m : Z) : Z :=
  if m =? 2 then (if is_leap y then 29 else 28)
  else if (m =? 4) || (m =? 6) || (m =? 9) || (m =? 11) then 30
  else 31.

Definition strptime (s : string) : option datetime :=
  match split_on "-" s with
  | [fy; fm; fd] =>
      y ← parse_year fy; m ← parse_month fm; d ← parse_day fd;
      if (1 <=? y) && (d <=? days_in_month y m)
      then Some {| year := y; month := m; day := d |}
      else None
  | _ => None
  end.

Definition month_abbr (m : Z) : string :=
  nth (Z.to_nat (m - 1))
      ["Jan"; "Feb"; "Mar"; "Apr"; "May"; "Jun";
       "Jul"; "Aug"; "Sep"; "Oct"; "Nov"; "Dec"] "".

Definition digit_char (n : Z) : string :=
  String (ascii_of_N (Z.to_N (48 + n mod 10))) EmptyString.

Definition pad2 (n : Z) : string := digit_char (n / 10) ++ digit_char n.

Definition strftime (dt : datetime) : string :=
  pad2 (day dt) ++ "-" ++ month_abbr (month dt) ++ "-" ++ pretty (year dt).

#[global] Instance ref_datetime : Datetime :=
  {| strptime_Ymd := strptime; strftime_dbY := strftime |}.

End RefDatetime.


(** ** [int(s)] *)

(** Python's [int] on a string of ASCII characters: surrounding white space is
    dropped, one sign is allowed, and the digits may be grouped by single
    underscores.  On a string that holds a character outside ASCII Python
    may accept more (Unicode white space and decimal digits); the model
    is exact on ASCII strings only, and a statement that relies on [int]
    raising carries the hypothesis that the string is ASCII. *)
Module PyInt.

Definition is_space (c : ascii) : bool :=
  let n := N_of_ascii c in ((n =? 32) || ((9 <=? n) && (n <=? 13)))%N.

Fixpoint lstrip (s : string) : string :=
  match s with
  | String c s' => if is_space c then lstrip s' else s
  | EmptyString => EmptyString
  end.

Fixpoint rstrip (s : string) : string :=
  match s with
  | String c s' =>
      match rstrip s' with
      | EmptyString => if is_space c then EmptyString else String c EmptyString
      | r => String c r
      end
  | EmptyString => EmptyString
  end.

(** Digits after the first one: [after_digit] tells whether the previous
    character was a digit (an underscore must sit between two digits). *)
Fixpoint digits (acc : Z) (after_digit : bool) (s : string) : option Z :=
  match s with
  | EmptyString => if after_digit then Some acc else None
  | String c s' =>
      if Ascii.eqb c "_" then
        if after_digit then digits acc false s' else None
      else
        let n := Z.of_N (N_of_ascii c) in
        if (48 <=? n) && (n <=? 57) then digits (10 * acc + (n - 48)) true s'
        else None
  end.

Definition int_of_str (s : string) : result Z :=
  let s := rstrip (lstrip s) in
  let r :=
    match s with
    | String "+" s' => digits 0 false s'
    | String "-" s' => Z.opp <$> digits 0 false s'
    | _ => digits 0 false s
    end in
  match r with
  | Some n => Ok n
  | None => Raise ValueError
  end.

End PyInt.

(** ** The IMAP session and the effects of the tools *)

(** The module-level settings of [main.py]. *)
Record config : Type := {
  IMAP_SERVER : string;
  IMAP_PORT : Z;
  IMAP_USER : string;
  IMAP_PASSWORD : string;
  IMAP_USE_STARTTLS : bool
}.

(** Every call that leaves the process, in the order it is made. *)
Inductive event : Type :=
| EConnect (host : string) (port : Z) (ssl : bool)
| EStarttls
| ELogin (user password : string)
| ESelectFolder (folder : string)
| ESearch (criteria : list value)
| EFetch (ids : list Z) (items : list string)
| ELogout
| ESleep (secs : Q)
| ELogMessage (level : string) (data : list value).

(** What [client.fetch] returns: per id, the requested items by name. *)
Abbreviation fetch_response := (gmap Z (gmap string (list byte))).

(** The outside world.  [IMAPClient], [time.sleep] and the MCP log channel are
    external: each call reads and changes an abstract world and may raise.
    Leaving the [with] block ([imap_logout]) never raises. *)
Class Transport (World : Type) : Type := {
  imap_connect : string -> Z -> bool -> World -> result unit * World;
  imap_starttls : World -> result unit * World;
  imap_login : string -> string -> World -> result unit * World;
  imap_select_folder : string -> World -> result unit * World;
  imap_search : list value -> World -> result (list Z) * World;
  imap_fetch : list Z -> list string -> World -> result fetch_response * World;
  imap_logout : World -> World;
  time_sleep : Q -> World -> World;
  send_log_message : string -> list value -> World -> result unit * World
}.

(** A computation of the tools: from a world to an outcome, the calls made
    and the world left behind. *)
Definition io (World A : Type) : Type :=
  World -> result A * list event * World.

#[global] Instance io_ret {World} : MRet (io World) :=
  fun A a w => (Ok a, [], w).
#[global] Instance io_bind {World} : MBind (io World) :=
  fun A B f m w =>
    match m w with
    | (Ok a, t, w') =>
        match f a w' with
        | (r, t', w'') => (r, t ++ t', w'')
        end
    | (Raise e, t, w') => (Raise e, t, w')
    end.

Definition outcome {World A} (x : result A * list event * World) : result A :=
  fst (fst x).
Definition calls {World A} (x : result A * list event * World) : list event :=
  snd (fst x).

Section Tools.
Context {World : Type} {transport : Transport World} {dt : Datetime}
        {em : Email}.
Variable cfg : config.

Abbreviation IO := (io World).

(** A pure step that may raise. *)
Definition lift {A} (r : result A) : IO A := fun w => (r, [], w).

(** One call to the outside, recorded. *)
Definition call {A} (e : event) (op : World -> result A * World) : IO A :=
  fun w => let '(r, w') := op w in (r, [e], w').

Definition client_starttls : IO unit := call EStarttls imap_starttls.
Definition client_login : IO unit :=
  call (ELogin (IMAP_USER cfg) (IMAP_PASSWORD cfg))
       (imap_login (IMAP_USER cfg) (IMAP_PASSWORD cfg)).
Definition client_select_folder (folder : string) : IO unit :=
  call (ESelectFolder folder) (imap_select_folder folder).
Definition client_search (criteria : list value) : IO (list Z) :=
  call (ESearch criteria) (imap_search criteria).
Definition client_fetch (ids : list Z) (items : list string)
  : IO fetch_response :=
  call (EFetch ids items) (imap_fetch ids items).
Definition sleep (secs : Q) : IO unit :=
  call (ESleep secs) (fun w => (Ok tt, time_sleep secs w)).

(** [with IMAPClient(host=..., port=..., ssl=not IMAP_USE_STARTTLS) as
    client: body].  The constructor connects; once it has succeeded the
    session is closed however [body] ends. *)
Definition with_client {A} (body : IO A) : IO A := fun w =>
  let ssl := negb (IMAP_USE_STARTTLS cfg) in
  let e := EConnect (IMAP_SERVER cfg) (IMAP_PORT cfg) ssl in
  match imap_connect (IMAP_SERVER cfg) (IMAP_PORT cfg) ssl w with
  | (Raise x, w') => (Raise x, [e], w')
  | (Ok _, w') =>
      let '(r, t, w'') := body w' in
      (r, e :: t ++ [ELogout], imap_logout w'')
  end.

(** [if IMAP_USE_STARTTLS: client.starttls()], [client.login(...)]. *)
Definition open_session : IO unit :=
  (if IMAP_USE_STARTTLS cfg then client_starttls else mret tt);;
  client_login.

(** [try: await ...send_log_message("debug", x) except Exception: pass] *)
Definition try_log (data : list value) : IO unit := fun w =>
  let '(_, w') := send_log_message "debug" data w in
  (Ok tt, [ELogMessage "debug" data], w').

(** [range(start, stop, step)] for a positive step. *)
Definition range (start stop step : nat) : list nat :=
  map (fun k => start + k * step)%nat
      (seq 0 (Nat.div (stop - start + (step - 1)) step)).

Definition BATCH_SIZE : nat := 50.
Definition SLEEP_TIME : Q := 1 # 2.

(** [resp[id][b"RFC822"]] *)
Definition rfc822_of (resp : fetch_response) (id : Z) : result (list byte) :=
  match resp !! id with
  | None => Raise KeyError
  | Some data =>
      match data !! "RFC822" with
      | None => Raise KeyError
      | Some raw => Ok raw
      end
  end.

(** The header dict of one message: the six names in this order, each only
    if the message has it, under its lower-cased name. *)
Definition extract_headers (msg : message) : dict :=
  flat_map
    (fun header =>
       match header_get header (headers (info msg)) with
       | Some v => [(lower header, VStr v)]
       | None => []
       end)
    ["From"; "To"; "Cc"; "Subject"; "Date"; "Message-ID"].

(** The batched fetch loop of [search]. *)
Definition fetch_batches (msg_ids : list Z) (fetch_items : list string)
  : IO fetch_response :=
  foldlM
    (fun (resp : fetch_response) (i : nat) =>
       let batch_ids := take BATCH_SIZE (drop i msg_ids) in
       batch_resp ← client_fetch batch_ids fetch_items;
       let resp := batch_resp ∪ resp in
       (if (i + BATCH_SIZE <? length msg_ids)%nat
        then sleep SLEEP_TIME else mret tt);;
       mret resp)
    ∅ (range 0 (length msg_ids) BATCH_SIZE).

(** The body of the loop [for id in msg_ids] of [search]. *)
Definition build_message (folder : string) (fetch_headers fetch_body : value)
  (resp : fetch_response) (id : Z) : result value :=
  let message_data := [("id", VStr (pretty id ++ "@" ++ folder))] in
  if truthy fetch_headers || truthy fetch_body then
    raw_email ← rfc822_of resp id;
    let msg := message_from_bytes raw_email in
    let message_data :=
      if truthy fetch_headers
      then message_data ++ [("headers", VDict (extract_headers msg))]
      else message_data in
    message_data ←
      (if truthy fetch_body
       then body ← get_email_body msg;
            Ok (message_data ++ [("body", VStr body)])
       else Ok message_data);
    Ok (VDict message_data)
  else Ok (VDict message_data).

(** [fields.get(name, False)] after [if fields is None: fields = {}]. *)
Definition get_field (fields : option dict) (name : string) : value :=
  default (VBool false) (dict_get name (default [] fields)).

(** The start of every [with] block, up to [client.select_folder]. *)
Definition enter_folder (folder : string) : IO unit :=
  open_session;;
  client_select_folder folder.

Definition search (folder : string) (criteria : value) (fields : option dict)
  : IO value :=
  let fetch_headers := get_field fields "headers" in
  let fetch_body := get_field fields "body" in
  let fetch_email_data :=
    if truthy fetch_headers then fetch_headers else fetch_body in
  compiled ← lift (dsl_to_search criteria);
  let search_criteria := [VStr "charset"; VStr "UTF-8"] ++ compiled in
  try_log search_criteria;;
  with_client (
    enter_folder folder;;
    msg_ids ← client_search search_criteria;
    if negb (truthy fetch_email_data) || bool_decide (msg_ids = [])
    then mret (VDict [("messages", VList [])])
    else
      let fetch_items :=
        if truthy fetch_headers || truthy fetch_body
        then ["RFC822"] else [] in
      resp ← fetch_batches msg_ids fetch_items;
      messages ←
        lift (mapM (build_message folder fetch_headers fetch_body resp)
                   msg_ids);
      mret (VDict [("messages", VList messages)])).

(** One iteration of the loop of [fetch]. *)
Definition fetch_one (results : gmap string string) (message_id : string)
  : IO (gmap string string) :=
  '(id, folder) ←
    lift (match split_first "@" message_id with
          | Some p => Ok p
          | None => Raise ValueError
          end);
  with_client (
    enter_folder folder;;
    n ← lift (PyInt.int_of_str id);
    resp ← client_fetch [n] ["RFC822"];
    raw_email ← lift (rfc822_of resp n);
    let msg := message_from_bytes raw_email in
    body ← lift (get_email_body msg);
    mret (<[message_id := body]> results)).

Definition fetch (message_ids : list string) : IO (gmap string string) :=
  foldlM fetch_one ∅ message_ids.

(** *** Reading aids for the statements below *)

(** Consecutive slices of [n] elements, the last one possibly shorter. *)
Fixpoint chunks {A} (fuel n : nat) (l : list A) : list (list A) :=
  match fuel with
  | O => []
  | S fuel' =>
      match l with
      | [] => []
      | _ => take n l :: chunks fuel' n (drop n l)
      end
  end.

Definition batches (msg_ids : list Z) : list (list Z) :=
  chunks (length msg_ids) BATCH_SIZE msg_ids.

(** The sizes of the slices of a list of [len] elements. *)
Fixpoint sizes (fuel n len : nat) : list nat :=
  match fuel with
  | O => []
  | S fuel' =>
      match len with
      | O => []
      | _ => Nat.min n len :: sizes fuel' n (len - n)
      end
  end.

(** A pause of [SLEEP_TIME] between consecutive calls, none after the
    last. *)
Fixpoint paced (cs : list event) : list event :=
  match cs with
  | [] => []
  | c :: rest =>
      match rest with
      | [] => [c]
      | _ => c :: ESleep SLEEP_TIME :: paced rest
      end
  end.

Definition is_fetch (e : event) : bool :=
  match e with EFetch _ _ => true | _ => false end.

Definition is_sleep (e : event) : bool :=
  match e with ESleep _ => true | _ => false end.

(** The world once the debug log line has been attempted. *)
Definition logged (data : list value) (w : World) : World :=
  (send_log_message "debug" data w).2.

End Tools.

(** ** Reference [email] functions and an in-memory mail server

    Executable stand-ins for the outside, used to run the tools on concrete
    requests.  The decoder knows the UTF-8 and ASCII codec names and copies
    the bytes (exact on valid input); any other name is an unknown codec.
    The parser reads raw text that carries no header block: one [text/plain]
    part without a charset. *)
Module RefEmail.

Definition known_codec (name : string) : bool :=
  str_in (lower name) ["utf-8"; "utf8"; "us-ascii"; "ascii"].

Definition decode (bytes : list byte) (charset : string) : result string :=
  if known_codec charset then Ok (string_of_list_byte bytes)
  else Raise LookupError.

Definition parse (raw : list byte) : message :=
  Leaf {| headers := []; content_type := "text/plain";
          content_charset := None |} raw.

#[global] Instance ref_email : Email :=
  {| message_from_bytes := parse; bytes_decode := decode |}.

End RefEmail.

(** The server keeps, per folder, the messages by ascending id, and remembers
    the selected folder.  Every message of the selected folder matches a
    search; a fetch answers for the ids that exist and leaves the others out,
    as an IMAP server does. *)
Module MemServer.

Record world : Type := {
  folders : gmap string (list (Z * list byte));
  selected : option string
}.

Definition select (folder : string) (w : world) : result unit * world :=
  match folders w !! folder with
  | Some _ => (Ok tt, {| folders := folders w; selected := Some folder |})
  | None => (Raise (IMAPClientError "select failed"), w)
  end.

Definition current (w : world) : option (list (Z * list byte)) :=
  f ← selected w; folders w !! f.

Definition search_all (criteria : list value) (w : world)
  : result (list Z) * world :=
  match current w with
  | Some msgs => (Ok (map fst msgs), w)
  | None => (Raise (IMAPClientError "no folder selected"), w)
  end.

Definition fetch_ids (ids : list Z) (items : list string) (w : world)
  : result fetch_response * world :=
  match current w with
  | Some msgs =>
      (Ok (list_to_map
             (map (fun m => (m.1, {[ "RFC822" := m.2 ]}))
                  (List.filter (fun m => bool_decide (m.1 ∈ ids)) msgs))), w)
  | None => (Raise (IMAPClientError "no folder selected"), w)
  end.

Definition close (w : world) : world :=
  {| folders := folders w; selected := None |}.

#[global] Instance mem_server : Transport world := {|
  imap_connect := fun _ _ _ w => (Ok tt, close w);
  imap_starttls := fun w => (Ok tt, w);
  imap_login := fun _ _ w => (Ok tt, w);
  imap_select_folder := select;
  imap_search := search_all;
  imap_fetch := fetch_ids;
  imap_logout := close;
  time_sleep := fun _ w => w;
  send_log_message := fun _ _ w => (Ok tt, w)
|}.

(** A folder holding the messages [1 .. n], message [i] being the text
    ["m"]. *)
Definition numbered (n : nat) : list (Z * list byte) :=
  map (fun i => (Z.of_nat i, list_byte_of_string "m")) (seq 1 n).

Definition inbox (msgs : list (Z * list byte)) : world :=
  {| folders := {[ "INBOX" := msgs ]}; selected := None |}.

Definition test_config : config :=
  {| IMAP_SERVER := "imap.example.com"; IMAP_PORT := 993;
     IMAP_USER := "user"; IMAP_PASSWORD := "secret";
     IMAP_USE_STARTTLS := false |}.

End MemServer.

(** The same server when the messages are expunged between the search and
    the fetch: a fetch answers with an entry for none of the ids. *)
Definition expunging_server : Transport MemServer.world := {|
  imap_connect := fun _ _ _ w => (Ok tt, MemServer.close w);
  imap_starttls := fun w => (Ok tt, w);
  imap_login := fun _ _ w => (Ok tt, w);
  imap_select_folder := MemServer.select;
  imap_search := MemServer.search_all;
  imap_fetch := fun _ _ w => (Ok ∅, w);
  imap_logout := MemServer.close;
  time_sleep := fun _ w => w;
  send_log_message := fun _ _ w => (Ok tt, w)
|}.

(** A second parser, for plain messages with a header block: unfolded
    [Name: value] lines, then an empty line, then the text; there is no
    Content-Type field, so the message is one [text/plain] part without a
    charset.  A first line that is not a field starts the text. *)
Module MailText.

Definition nl : string := String (ascii_of_N 10) EmptyString.

Fixpoint lstrip_blank (s : string) : string :=
  match s with
  | String c s' => if Ascii.eqb c " " then lstrip_blank s' else s
  | EmptyString => EmptyString
  end.

Definition field (line : string) : option (string * string) :=
  '(name, v) ← split_first ":" line; Some (name, lstrip_blank v).

(** The fields up to the first empty line, and the lines after it. *)
Fixpoint read (lines : list string)
  : list (string * string) * list string :=
  match lines with
  | [] => ([], [])
  | line :: lines' =>
      if String.eqb line "" then ([], lines')
      else match field line with
           | Some h => let '(hs, body) := read lines' in (h :: hs, body)
           | None => ([], lines)
           end
  end.

Definition parse (raw : list byte) : message :=
  let '(hs, body) :=
    read (RefDatetime.split_on (ascii_of_N 10) (string_of_list_byte raw)) in
  Leaf {| headers := hs; content_type := "text/plain";
          content_charset := None |}
       (list_byte_of_string (String.concat nl body)).

Definition mail_text : Email :=
  {| message_from_bytes := parse; bytes_decode := RefEmail.decode |}.

(** The messages [1 .. n] of a folder, message [i] having the subject
    ["no <i>"] and the text ["text <i>"]. *)
Definition letters (n : nat) : list (Z * list byte) :=
  map (fun i =>
         (Z.of_nat i,
          list_byte_of_string
            ("Subject: no " ++ pretty (Z.of_nat i) ++ nl ++ nl
               ++ "text " ++ pretty (Z.of_nat i))))
      (seq 1 n).

(** The entry that [search] gives for message [i] of [letters n] in
    [folder] when headers and body are asked for. *)
Definition letter_entry (folder : string) (i : nat) : value :=
  VDict [("id", VStr (pretty (Z.of_nat i) ++ "@" ++ folder));
         ("headers", VDict [("subject", VStr ("no " ++ pretty (Z.of_nat i)))]);
         ("body", VStr ("text " ++ pretty (Z.of_nat i)))].

End MailText.

(** ** Sample messages *)

(** A multipart/alternative message whose plain-text part is empty. *)
Definition empty_plain_with_html : message :=
  Multipart
    {| headers := []; content_type := "multipart/alternative";
       content_charset := None |}
    [Leaf {| headers := []; content_type := "text/plain";
             content_charset := Some "utf-8" |} [];
     Leaf {| headers := []; content_type := "text/html";
             content_charset := Some "utf-8" |}
          (list_byte_of_string "<p>hi</p>")].

(** An html part before two plain-text parts, and an attached text file
    in front of them. *)
Definition html_before_plain : message :=
  Multipart
    {| headers := []; content_type := "multipart/mixed";
       content_charset := None |}
    [Leaf {| headers := [("Content-Disposition", "Attachment; filename=a.txt")];
             content_type := "text/plain"; content_charset := None |}
          (list_byte_of_string "attached");
     Leaf {| headers := []; content_type := "text/html";
             content_charset := Some "utf-8" |}
          (list_byte_of_string "<b>html</b>");
     Leaf {| headers := []; content_type := "text/plain";
             content_charset := None |} (list_byte_of_string "first");
     Leaf {| headers := []; content_type := "text/plain";
             content_charset := None |} (list_byte_of_string "second")].

(** ** Reading aids for the properties of strings and identifiers *)

(** Every character of [s] passes the test [f]. *)
Fixpoint string_forall (f : ascii -> bool) (s : string) : bool :=
  match s with
  | EmptyString => true
  | String c s' => f c && string_forall f s'
  end.

Definition is_digit (c : ascii) : bool :=
  let n := N_of_ascii c in ((48 <=? n) && (n <=? 57))%N.

Definition is_ascii (c : ascii) : bool := (N_of_ascii c <? 128)%N.

(** The shape [YYYY-MM-DD]: four digits, a hyphen, two digits, a hyphen,
    two digits. *)
Definition ymd_form (s : string) : bool :=
  match s with
  | String y1 (String y2 (String y3 (String y4 (String h1
      (String m1 (String m2 (String h2
        (String d1 (String d2 EmptyString))))))))) =>
      is_digit y1 && is_digit y2 && is_digit y3 && is_digit y4
      && Ascii.eqb h1 "-" && is_digit m1 && is_digit m2
      && Ascii.eqb h2 "-" && is_digit d1 && is_digit d2
  | _ => false
  end.

(** ** Reading aids for the properties of the sessions *)

Definition is_connect (e : event) : bool :=
  match e with EConnect _ _ _ => true | _ => false end.

Definition is_logout (e : event) : bool :=
  match e with ELogout => true | _ => false end.

(** What a call made on behalf of one [search] may look like, for the
    settings [cfg], the folder asked for, the fields asked for and the
    criteria [sc] handed to the server. *)
Definition search_call_ok (cfg : config) (folder : string)
  (fields : option dict) (sc : list value) (e : event) : Prop :=
  match e with
  | ELogMessage level data => level = "debug" /\ data = sc
  | EConnect host port ssl =>
      host = IMAP_SERVER cfg /\ port = IMAP_PORT cfg
      /\ ssl = negb (IMAP_USE_STARTTLS cfg)
  | EStarttls => IMAP_USE_STARTTLS cfg = true
  | ELogin user password =>
      user = IMAP_USER cfg /\ password = IMAP_PASSWORD cfg
  | ESelectFolder f => f = folder
  | ESearch c => c = sc
  | EFetch ids items =>
      items = ["RFC822"] /\ (length ids <= 50)%nat
      /\ truthy (get_field fields "headers")
         || truthy (get_field fields "body") = true
  | ESleep secs => secs = (1 # 2)%Q
  | ELogout => True
  end.

(** The ["id"] entry and the keys of one entry of [messages]. *)
Definition message_id_of (m : value) : option value :=
  match m with
  | VDict md => dict_get "id" md
  | _ => None
  end.

Definition keys_of (m : value) : list string :=
  match m with
  | VDict md => map fst md
  | _ => []
  end.

Section SessionAids.
Context {World : Type} {transport : Transport World} {dt : Datetime}
        {em : Email}.
Variable cfg : config.

(** The body of the [with] block of [search], for the criteria [sc] handed
    to the server. *)
Definition search_session (folder : string) (fields : option dict)
  (sc : list value) : io World value :=
  let fetch_headers := get_field fields "headers" in
  let fetch_body := get_field fields "body" in
  let fetch_email_data :=
    if truthy fetch_headers then fetch_headers else fetch_body in
  enter_folder cfg folder;;
  msg_ids ← client_search sc;
  if negb (truthy fetch_email_data) || bool_decide (msg_ids = [])
  then mret (VDict [("messages", VList [])])
  else
    let fetch_items :=
      if truthy fetch_headers || truthy fetch_body
      then ["RFC822"] else [] in
    resp ← fetch_batches msg_ids fetch_items;
    messages ←
      lift (mapM (build_message folder fetch_headers fetch_body resp)
                 msg_ids);
    mret (VDict [("messages", VList messages)]).

(** The keys of an entry of [messages] for the fields asked for. *)
Definition expected_keys (fields : option dict) : list string :=
  "id" :: (if truthy (get_field fields "headers") then ["headers"] else [])
       ++ (if truthy (get_field fields "body") then ["body"] else []).

End SessionAids.

Section BatchAids.
Context {World : Type} {transport : Transport World}.

(** The answers of the server to the fetches of the batches [bs], one
    after the other, with the pause between two of them. *)
Fixpoint batch_answers (items : list string) (bs : list (list Z))
  (w : World) : result (list fetch_response) * World :=
  match bs with
  | [] => (Ok [], w)
  | b :: bs' =>
      match imap_fetch b items w with
      | (Raise e, w1) => (Raise e, w1)
      | (Ok r, w1) =>
          let w2 := match bs' with
                    | [] => w1
                    | _ => time_sleep SLEEP_TIME w1
                    end in
          match batch_answers items bs' w2 with
          | (Ok rs, w3) => (Ok (r :: rs), w3)
          | (Raise e, w3) => (Raise e, w3)
          end
      end
  end.

(** [resp.update(answer)] for each answer in turn, from [resp]. *)
Definition merge_into (resp : fetch_response)
  (answers : list fetch_response) : fetch_response :=
  fold_left (fun resp answer => answer ∪ resp) answers resp.

End BatchAids.

(** ** Reading aids for the properties of [fetch] *)

(** What [fetch] reads in a message id: the folder after the first [@] and
    the number before it. *)
Definition target_of (message_id : string) : option (string * Z) :=
  match split_first "@" message_id with
  | Some (id, folder) =>
      match PyInt.int_of_str id with
      | Ok n => Some (folder, n)
      | Raise _ => None
      end
  | None => None
  end.

(** The calls of a session of [fetch] up to the selection of the folder,
    when each of them succeeds. *)
Definition session_start (cfg : config) (folder : string) : list event :=
  EConnect (IMAP_SERVER cfg) (IMAP_PORT cfg) (negb (IMAP_USE_STARTTLS cfg))
    :: (if IMAP_USE_STARTTLS cfg then [EStarttls] else [])
    ++ [ELogin (IMAP_USER cfg) (IMAP_PASSWORD cfg); ESelectFolder folder].

(** The calls of [fetch] for one message id when each of them succeeds. *)
Definition fetch_session (cfg : config) (message_id : string) : list event :=
  match target_of message_id with
  | Some (folder, n) =>
      session_start cfg folder ++ [EFetch [n] ["RFC822"]; ELogout]
  | None => []
  end.

(** The value under [key] in one entry of [messages]. *)
Definition entry_of (key : string) (m : value) : option value :=
  match m with
  | VDict md => dict_get key md
  | _ => None
  end.

(** * Properties of the query compiler *)

Section CompilerFacts.
Context {dt : Datetime}.

Lemma bind_ok {A B} (m : result A) (f : A -> result B) a :
  m = Ok a -> m ≫= f = f a.
Proof. intros ->. reflexivity. Qed.

Lemma bind_raise {A B} (m : result A) (f : A -> result B) e :
  m = Raise e -> m ≫= f = Raise e.
Proof. intros ->. reflexivity. Qed.

Lemma mapM_cons {A B} (f : A -> result B) x l :
  mapM f (x :: l) = y ← f x; k ← mapM f l; Ok (y :: k).
Proof. reflexivity. Qed.

(** The body of [parse_criteria] with the look-ups written as look-ups. *)
Lemma parse_criteria_eq (d : dict) :
  parse_criteria (VDict d) =
    res ← regular_conditions d;
    res ← match dict_get "not" d with
          | Some (VList l) =>
              groups ← mapM parse_criteria l;
              Ok (extend_not res (concat groups))
          | _ => Ok res
          end;
    res ← match dict_get "or" d with
          | Some (VList l) =>
              or_conditions ← mapM parse_criteria l;
              Ok (combine_or res or_conditions)
          | _ => Ok res
          end;
    match res with
    | [] => parse_condition d
    | _ => Ok res
    end.
Proof.
  cbn [parse_criteria].
  destruct (regular_conditions d) as [res|e]; [|reflexivity].
  cbn [mbind result_bind].
  set (finder_not := fix find_not (items : dict) := _).
  assert (Hnot : finder_not d =
                 match dict_get "not" d with
                 | Some (VList l) =>
                     groups ← mapM parse_criteria l;
                     Ok (extend_not res (concat groups))
                 | _ => Ok res
                 end).
  { subst finder_not. induction d as [|[k v] d IH]; [reflexivity|].
    cbn [dict_get]. destruct (String.eqb k "not"); [|exact IH].
    destruct v; try reflexivity.
    set (ext := fix extend (l0 : list value) : result (list value) := _).
    assert (Hext : ext l = groups ← mapM parse_criteria l; Ok (concat groups)).
    { subst ext. clear. induction l as [|c l IHl]; [reflexivity|].
      rewrite mapM_cons. destruct (parse_criteria c) as [r|e]; [|reflexivity].
      cbn [mbind result_bind]. rewrite IHl.
      destruct (mapM parse_criteria l); reflexivity. }
    rewrite Hext. destruct (mapM parse_criteria l); reflexivity. }
  rewrite Hnot. clear Hnot finder_not.
  match goal with |- ?m ≫= _ = _ => destruct m as [res1|e] end; [|reflexivity].
  cbn [mbind result_bind].
  set (finder_or := fix find_or (items : dict) := _).
  assert (Hor : finder_or d =
                match dict_get "or" d with
                | Some (VList l) =>
                    or_conditions ← mapM parse_criteria l;
                    Ok (combine_or res1 or_conditions)
                | _ => Ok res1
                end).
  { subst finder_or. induction d as [|[k v] d IH]; [reflexivity|].
    cbn [dict_get]. destruct (String.eqb k "or"); [|exact IH].
    destruct v; reflexivity. }
  rewrite Hor. reflexivity.
Qed.

Lemma parse_condition_single key v :
  parse_condition [(key, v)] = leaf_pair key v.
Proof.
  unfold parse_condition, leaf_pair. cbn [dict_get].
  repeat (destruct (String.eqb key _); [reflexivity|]).
  reflexivity.
Qed.

Lemma leaf_pair_empty key v :
  leaf_pair key v = Ok [] -> ~ In key leaf_keys.
Proof.
  unfold leaf_pair, leaf_keys. intros Hp Hin. cbn [In] in Hin.
  repeat (destruct Hin as [<-|Hin]; [cbn in Hp; try discriminate|]);
    try contradiction.
  - destruct (format_date v); discriminate.
  - destruct (format_date v); discriminate.
Qed.


(** When the first loop yields no token, no leaf key is present. *)
Lemma regular_empty_no_leaf (d : dict) :
  regular_conditions d = Ok [] ->
  forall key, In key leaf_keys -> dict_get key d = None.
Proof.
  induction d as [|[k v] d IH]; intros Hreg key Hkey; [reflexivity|].
  cbn [regular_conditions] in Hreg. cbn [dict_get].
  destruct (negb (str_in k ["or"; "not"])) eqn:Hk.
  - rewrite parse_condition_single in Hreg.
    destruct (leaf_pair k v) as [r|e] eqn:Hp; [|discriminate].
    cbn [mbind result_bind] in Hreg.
    destruct (regular_conditions d) as [rs|e]; [|discriminate].
    cbn [mbind result_bind] in Hreg. injection Hreg as Hnil.
    apply app_eq_nil in Hnil as [-> ->].
    apply leaf_pair_empty in Hp.
    destruct (String.eqb_spec k key) as [->|_]; [contradiction|].
    apply IH; [reflexivity|assumption].
  - apply negb_false_iff in Hk. cbn in Hk.
    destruct (String.eqb_spec k key) as [->|_]; [|apply IH; assumption].
    exfalso. unfold leaf_keys in Hkey. cbn [In] in Hkey.
    repeat (destruct Hkey as [<-|Hkey]; [discriminate Hk|]). contradiction.
Qed.

(** So the final [return parse_condition(criteria)] can only return the
    empty list. *)
Lemma fallback_empty (d : dict) :
  regular_conditions d = Ok [] -> parse_condition d = Ok [].
Proof.
  intros Hreg. unfold parse_condition.
  rewrite !(regular_empty_no_leaf d Hreg) by (cbn; tauto). reflexivity.
Qed.

Lemma extend_not_app res g : extend_not res g = res ++ extend_not [] g.
Proof. destruct g; cbn; [rewrite app_nil_r|]; reflexivity. Qed.

Lemma fold_or_shape (more : list (list value)) (acc : list value) :
  fold_left (fun res ci => [VStr "OR"] ++ res ++ ci) more acc =
  repeat (VStr "OR") (length more) ++ acc ++ concat more.
Proof.
  revert acc. induction more as [|c more IH]; intros acc.
  - cbn. rewrite app_nil_r. reflexivity.
  - cbn [fold_left length concat]. rewrite IH.
    change (repeat (VStr "OR") (S (length more)))
      with (VStr "OR" :: repeat (VStr "OR") (length more)).
    rewrite repeat_cons. rewrite <- !app_assoc. reflexivity.
Qed.

(** What the [or] branch leaves in [result]: one ["OR"] in front of the
    whole of [result] for every sub-expression after the second. *)
Lemma combine_or_shape res c0 c1 more :
  combine_or res (c0 :: c1 :: more) =
  repeat (VStr "OR") (length more)
    ++ res ++ [VStr "OR"] ++ c0 ++ c1 ++ concat more.
Proof.
  unfold combine_or. rewrite fold_or_shape. rewrite <- !app_assoc.
  reflexivity.
Qed.

Lemma combine_or_nil_inv res ocs : combine_or res ocs = [] -> res = [].
Proof.
  destruct ocs as [|c0 [|c1 more]]; try (intros; assumption).
  rewrite combine_or_shape. intros Hnil.
  apply app_eq_nil in Hnil as [_ Hnil].
  apply app_eq_nil in Hnil as [_ Hnil]. discriminate.
Qed.

Lemma extend_not_nil_inv res g : extend_not res g = [] -> res = [].
Proof.
  destruct g; [intros; assumption|]. cbn. intros Hnil.
  apply app_eq_nil in Hnil as [_ Hnil]. discriminate.
Qed.

(** [parse_criteria] without the unreachable fall-back. *)
Lemma parse_criteria_steps (d : dict) :
  parse_criteria (VDict d) =
    res ← regular_conditions d;
    res ← match dict_get "not" d with
          | Some (VList l) =>
              groups ← mapM parse_criteria l;
              Ok (extend_not res (concat groups))
          | _ => Ok res
          end;
    match dict_get "or" d with
    | Some (VList l) =>
        or_conditions ← mapM parse_criteria l;
        Ok (combine_or res or_conditions)
    | _ => Ok res
    end.
Proof.
  rewrite parse_criteria_eq.
  destruct (regular_conditions d) as [res|e] eqn:Hreg; [|reflexivity].
  cbn [mbind result_bind].
  match goal with |- ?m ≫= _ = _ => destruct m as [res1|e] eqn:Hnot end;
    [|reflexivity].
  cbn [mbind result_bind].
  match goal with |- ?m ≫= _ = _ => destruct m as [res2|e] eqn:Hor end;
    [|reflexivity].
  cbn [mbind result_bind].
  destruct res2 as [|t res2]; [|reflexivity].
  assert (res1 = []) as ->.
  { destruct (dict_get "or" d) as [[]|]; try (injection Hor as ->; reflexivity).
    destruct (mapM parse_criteria l); [|discriminate].
    injection Hor as Hor. eapply combine_or_nil_inv, Hor. }
  assert (res = []) as ->.
  { destruct (dict_get "not" d) as [[]|]; try (injection Hnot as ->; reflexivity).
    destruct (mapM parse_criteria l); [|discriminate].
    injection Hnot as Hnot. eapply extend_not_nil_inv, Hnot. }
  apply fallback_empty, Hreg.
Qed.

Lemma dsl_to_search_eq (c : value) :
  dsl_to_search c = toks ← parse_criteria c; Ok (all_if_empty toks).
Proof.
  unfold dsl_to_search. destruct (parse_criteria c) as [[|]|]; reflexivity.
Qed.

Lemma mapM_ext_in {A B} (f g : A -> result B) (l : list A) :
  (forall x, In x l -> f x = g x) -> mapM f l = mapM g l.
Proof.
  induction l as [|x l IH]; intros Hfg; [reflexivity|].
  rewrite !mapM_cons, (Hfg x) by (left; reflexivity).
  rewrite IH by (intros; apply Hfg; right; assumption). reflexivity.
Qed.

Lemma mapM_raises {A B} (f : A -> result B) (l : list A) x e :
  In x l -> f x = Raise e -> exists e', mapM f l = Raise e'.
Proof.
  induction l as [|y l IH]; intros Hin Hx; [contradiction|].
  rewrite mapM_cons. destruct Hin as [->|Hin].
  - rewrite Hx. eauto.
  - destruct (f y); [|eauto]. cbn [mbind result_bind].
    destruct (IH Hin Hx) as [e' ->]. eauto.
Qed.

Lemma dict_get_absent key (d : dict) :
  ~ In key (map fst d) -> dict_get key d = None.
Proof.
  induction d as [|[k v] d IH]; intros Hnot; [reflexivity|].
  cbn [dict_get]. destruct (String.eqb_spec k key) as [->|_].
  - exfalso. apply Hnot. left. reflexivity.
  - apply IH. intros Hin. apply Hnot. right. assumption.
Qed.

Lemma dict_get_present key v (d : dict) :
  dict_get key d = Some v -> In (key, v) d.
Proof.
  induction d as [|[k v'] d IH]; [discriminate|].
  cbn [dict_get]. destruct (String.eqb_spec k key) as [->|_].
  - intros [= ->]. left. reflexivity.
  - intros Hd. right. apply IH, Hd.
Qed.

Lemma filter_regular_id (d : dict) :
  dict_get "or" d = None -> dict_get "not" d = None ->
  List.filter (fun kv => negb (str_in kv.1 ["or"; "not"])) d = d.
Proof.
  induction d as [|[k v] d IH]; [reflexivity|].
  cbn [dict_get].
  destruct (String.eqb k "or") eqn:Eor; [discriminate|].
  destruct (String.eqb k "not") eqn:Enot; [discriminate|].
  intros Hor Hnot. cbn [List.filter fst].
  replace (negb (str_in k ["or"; "not"])) with true
    by (unfold str_in; cbn [existsb]; rewrite Eor, Enot; reflexivity).
  rewrite IH by assumption. reflexivity.
Qed.

(** Pairs listed along the items coincide with pairs listed along a fixed
    key order exactly when the items come in that order. *)
Lemma pairs_along_sorted_keys (f : string -> value -> result (list value))
  (ks : list string) :
  List.NoDup ks -> forall d : dict, sublist (map fst d) ks ->
  (groups ← mapM (fun kv => f kv.1 kv.2) d; Ok (concat groups)) =
  (groups ← mapM (fun key => match dict_get key d with
                             | Some v => f key v
                             | None => Ok []
                             end) ks;
   Ok (concat groups)).
Proof.
  induction ks as [|x ks IH]; intros Hnd d Hsub.
  - apply sublist_nil_r in Hsub. destruct d; [reflexivity|discriminate].
  - inversion Hnd as [|? ? Hx Hnd']; subst.
    rewrite mapM_cons.
    apply sublist_cons_r in Hsub as [Hsub|(l' & Heq & Hsub)].
    + rewrite dict_get_absent.
      2:{ intros Hin. apply Hx. apply list_elem_of_In.
          eapply elem_of_sublist; [|exact Hsub].
          apply list_elem_of_In, Hin. }
      cbn [mbind result_bind]. rewrite (IH Hnd' d Hsub).
      match goal with |- context [mapM ?g ks] => destruct (mapM g ks) end;
        reflexivity.
    + destruct d as [|[k v] d]; [discriminate|].
      cbn [map fst] in Heq. injection Heq as -> <-.
      rewrite mapM_cons. cbn [dict_get fst snd]. rewrite String.eqb_refl.
      destruct (f x v) as [r|e]; [|reflexivity]. cbn [mbind result_bind].
      specialize (IH Hnd' d Hsub).
      rewrite (mapM_ext_in
                 (fun key => match (if String.eqb x key then Some v
                                    else dict_get key d) with
                             | Some v0 => f key v0
                             | None => Ok []
                             end)
                 (fun key => match dict_get key d with
                             | Some v0 => f key v0
                             | None => Ok []
                             end)).
      2:{ intros key Hkey. destruct (String.eqb_spec x key) as [->|_];
            [contradiction|reflexivity]. }
      destruct (mapM (fun kv => f kv.1 kv.2) d) as [g|e];
        cbn [mbind result_bind] in IH |- *.
      * match goal with |- context [mapM ?h ks] =>
          destruct (mapM h ks) as [g'|e'] end;
          cbn [mbind result_bind] in IH |- *; [|discriminate].
        injection IH as IH. cbn [concat]. rewrite IH. reflexivity.
      * match goal with |- context [mapM ?h ks] =>
          destruct (mapM h ks) as [g'|e'] end;
          cbn [mbind result_bind] in IH |- *; [discriminate|assumption].
Qed.

Lemma leaf_keys_nodup : List.NoDup leaf_keys.
Proof.
  unfold leaf_keys.
  repeat (constructor; [cbn [In]; intros Hin;
                        repeat (destruct Hin as [Hin|Hin]; [discriminate|]);
                        contradiction|]).
  constructor.
Qed.

Lemma regular_no_recognized (d : dict) :
  (forall key, In key leaf_keys -> dict_get key d = None) ->
  regular_conditions d = Ok [].
Proof.
  induction d as [|[k v] d IH]; intros Hnone; [reflexivity|].
  cbn [regular_conditions].
  assert (Hd : forall key, In key leaf_keys -> dict_get key d = None).
  { intros key Hkey. specialize (Hnone key Hkey). cbn [dict_get] in Hnone.
    destruct (String.eqb k key); [discriminate|assumption]. }
  rewrite (IH Hd).
  destruct (negb (str_in k ["or"; "not"])); [|reflexivity].
  rewrite parse_condition_single. unfold leaf_pair.
  assert (Hk : forall key, In key leaf_keys -> String.eqb k key = false).
  { intros key Hkey. specialize (Hnone key Hkey). cbn [dict_get] in Hnone.
    destruct (String.eqb k key); [discriminate|reflexivity]. }
  rewrite !Hk by (cbn; tauto). reflexivity.
Qed.

Lemma regular_raises (d : dict) key s :
  In (key, VStr s) d -> In key ["since"; "before"] ->
  strptime_Ymd s = None ->
  exists e, regular_conditions d = Raise e.
Proof.
  intros Hin Hkey Hbad. induction d as [|[k v] d IH]; [contradiction|].
  cbn [regular_conditions].
  destruct Hin as [[= -> ->]|Hin].
  - assert (Hp : parse_condition [(key, VStr s)] = Raise ValueError).
    { rewrite parse_condition_single. unfold leaf_pair, format_date.
      rewrite Hbad. cbn [In] in Hkey.
      destruct Hkey as [<-|[<-|[]]]; reflexivity. }
    rewrite Hp.
    assert (Hreg : negb (str_in key ["or"; "not"]) = true).
    { cbn [In] in Hkey. destruct Hkey as [<-|[<-|[]]]; reflexivity. }
    rewrite Hreg. eauto.
  - destruct (IH Hin) as [e ->].
    destruct (negb (str_in k ["or"; "not"])); [|eauto].
    destruct (parse_condition [(k, v)]); eauto.
Qed.

(** A rejected date anywhere the compiler looks makes it raise. *)
Lemma rejected_date_raises (c : value) :
  rejected_date c -> exists e, parse_criteria c = Raise e.
Proof.
  induction 1 as [d key s Hin Hkey Hbad
                 |d l c Hnot Hin _ [e IH]
                 |d l c Hor Hin _ [e IH]];
    rewrite parse_criteria_steps.
  - destruct (regular_raises d key s Hin Hkey Hbad) as [e ->]. eauto.
  - destruct (regular_conditions d); [|eauto]. cbn [mbind result_bind].
    rewrite Hnot. destruct (mapM_raises _ l c e Hin IH) as [e' ->]. eauto.
  - destruct (regular_conditions d); [|eauto]. cbn [mbind result_bind].
    match goal with |- context [?m ≫= _] => destruct m end; [|eauto].
    cbn [mbind result_bind].
    rewrite Hor. destruct (mapM_raises _ l c e Hin IH) as [e' ->]. eauto.
Qed.

Lemma mapM_length {A B} (f : A -> result B) (l : list A) ys :
  mapM f l = Ok ys -> length ys = length l.
Proof.
  revert ys. induction l as [|x l IH]; intros ys; [intros [= <-]; reflexivity|].
  rewrite mapM_cons. destruct (f x); [|discriminate].
  cbn [mbind result_bind]. destruct (mapM f l); [|discriminate].
  intros [= <-]. cbn [length]. f_equal. apply IH. reflexivity.
Qed.

Lemma not_step_eq (leaf : list value) (d : dict) :
  match dict_get "not" d with
  | Some (VList l) =>
      groups ← mapM parse_criteria l; Ok (extend_not leaf (concat groups))
  | _ => Ok leaf
  end = ng ← not_group d; Ok (leaf ++ ng).
Proof.
  unfold not_group.
  destruct (dict_get "not" d) as [[]|]; cbn [mbind result_bind];
    rewrite ?app_nil_r; try reflexivity.
  destruct (mapM parse_criteria l); cbn [mbind result_bind];
    [rewrite extend_not_app|]; reflexivity.
Qed.

Lemma or_step_eq (res : list value) (d : dict) :
  match dict_get "or" d with
  | Some (VList l) => (length l <= 2)%nat
  | _ => True
  end ->
  match dict_get "or" d with
  | Some (VList l) =>
      or_conditions ← mapM parse_criteria l; Ok (combine_or res or_conditions)
  | _ => Ok res
  end = og ← or_group d; Ok (res ++ og).
Proof.
  unfold or_group.
  destruct (dict_get "or" d) as [[]|]; cbn [mbind result_bind];
    rewrite ?app_nil_r; try reflexivity.
  intros Hshort.
  destruct (mapM parse_criteria l) as [ocs|] eqn:Hm; cbn [mbind result_bind];
    [|reflexivity].
  apply mapM_length in Hm.
  destruct ocs as [|c0 [|c1 [|c2 more]]]; cbn [length] in Hm; try lia;
    cbn; rewrite ?app_nil_r; reflexivity.
Qed.

(** On the path the two-element [or] takes, and with no [or] at all, the
    tokens are the leaf pairs, then the [not] group, then the [or] group. *)
Lemma parse_criteria_short_or (d : dict) :
  match dict_get "or" d with
  | Some (VList l) => (length l <= 2)%nat
  | _ => True
  end ->
  parse_criteria (VDict d) = leaf_not_or d.
Proof.
  intros Hshort. rewrite parse_criteria_steps. unfold leaf_not_or.
  destruct (regular_conditions d) as [leaf|e]; [|reflexivity].
  cbn [mbind result_bind]. rewrite not_step_eq.
  destruct (not_group d) as [ng|e]; [|reflexivity].
  cbn [mbind result_bind]. rewrite or_step_eq by assumption.
  destruct (or_group d) as [og|e]; [|reflexivity].
  cbn [mbind result_bind]. rewrite app_assoc. reflexivity.
Qed.

(** *** The shape of the tokens of any expression *)

Lemma combine_or_split (res : list value) (ocs : list (list value)) :
  combine_or res ocs = or_prefix ocs ++ res ++ or_suffix ocs.
Proof.
  unfold or_prefix, or_suffix.
  destruct ocs as [|c0 [|c1 more]]; cbn [length Nat.sub repeat app];
    rewrite ?app_nil_r; try reflexivity.
  rewrite combine_or_shape, Nat.sub_0_r. reflexivity.
Qed.

Lemma leaf_pair_other key v : str_in key leaf_keys = false -> leaf_pair key v = Ok [].
Proof.
  unfold str_in, leaf_keys, leaf_pair. cbn [existsb].
  rewrite !(String.eqb_sym key). intros H.
  repeat (apply orb_false_elim in H as [-> H]). reflexivity.
Qed.

Lemma operator_not_leaf key :
  str_in key ["or"; "not"] = true -> str_in key leaf_keys = false.
Proof.
  unfold str_in. cbn [existsb]. rewrite orb_false_r.
  intros [H|H]%orb_true_iff; apply String.eqb_eq in H; subst; reflexivity.
Qed.

(** The first loop compiles the leaf items, in their order; the other
    items add nothing. *)
Lemma regular_conditions_leaf_items (d : dict) :
  regular_conditions d =
    (groups ← mapM (fun kv => parse_condition [kv]) (leaf_items d);
     Ok (concat groups)).
Proof.
  unfold leaf_items. induction d as [|[k v] d IH]; [reflexivity|].
  cbn [regular_conditions List.filter fst]. rewrite IH.
  destruct (str_in k ["or"; "not"]) eqn:Hop; cbn [negb].
  - rewrite (operator_not_leaf _ Hop). reflexivity.
  - destruct (str_in k leaf_keys) eqn:Hleaf.
    + rewrite mapM_cons.
      destruct (parse_condition [(k, v)]) as [r|]; [|reflexivity].
      cbn [mbind result_bind].
      destruct (mapM _ (List.filter _ d)) as [gs|]; reflexivity.
    + rewrite parse_condition_single, (leaf_pair_other _ _ Hleaf).
      cbn [mbind result_bind].
      destruct (mapM _ (List.filter _ d)) as [gs|]; reflexivity.
Qed.

Lemma dict_get_leaf_items key (d : dict) :
  str_in key leaf_keys = true -> dict_get key (leaf_items d) = dict_get key d.
Proof.
  intros Hkey. unfold leaf_items. induction d as [|[k v] d IH]; [reflexivity|].
  cbn [List.filter fst dict_get].
  destruct (String.eqb_spec k key) as [->|Hne].
  - rewrite Hkey. cbn [dict_get]. rewrite String.eqb_refl. reflexivity.
  - destruct (str_in k leaf_keys); [|exact IH].
    cbn [dict_get]. destruct (String.eqb_spec k key); [contradiction|exact IH].
Qed.

(** The tokens of an expression, at any level: the ORs that an [or] list
    of three or more puts in front, the leaf tokens, the [not] group, and
    what the [or] list appends. *)
Lemma parse_criteria_shape (d : dict) :
  parse_criteria (VDict d) =
    (leaf ← regular_conditions d;
     ng ← not_group d;
     ocs ← or_conditions d;
     Ok (or_prefix ocs ++ leaf ++ ng ++ or_suffix ocs)).
Proof.
  rewrite parse_criteria_steps. unfold or_conditions.
  destruct (regular_conditions d) as [leaf|e]; [|reflexivity].
  cbn [mbind result_bind]. rewrite not_step_eq.
  destruct (not_group d) as [ng|e]; [|reflexivity].
  cbn [mbind result_bind].
  destruct (dict_get "or" d) as [[| | | |l|]|]; cbn [mbind result_bind];
    try (rewrite app_nil_r; reflexivity).
  destruct (mapM parse_criteria l) as [ocs|e]; [|reflexivity].
  cbn [mbind result_bind]. rewrite combine_or_split, <- app_assoc.
  reflexivity.
Qed.

End CompilerFacts.

(** * The claims about the query compiler *)

Section CompilerClaims.
Context {dt : Datetime}.

(** C1 (amended).  For every expression, at any level, the opcode/operand
    pairs of its leaf fields stand together in the compiled tokens, each
    leaf item compiled as the single-key dict [{key: value}], in the order
    in which the leaf keys appear in the expression; before them come only
    the ORs that an [or] list of three or more puts in front, after them
    the [not] group and what the [or] list appends; items with other keys
    add nothing.  The pairs are in the fixed order from, to, cc, subject,
    since, before when the leaf keys appear in that order. *)
Theorem C1_leaf_pairs_follow_key_order (d : dict) :
  parse_criteria (VDict d) =
    (groups ← mapM (fun kv => parse_condition [kv]) (leaf_items d);
     ng ← not_group d;
     ocs ← or_conditions d;
     Ok (or_prefix ocs ++ concat groups ++ ng ++ or_suffix ocs))
  /\ dsl_to_search (VDict d) =
       (groups ← mapM (fun kv => parse_condition [kv]) (leaf_items d);
        ng ← not_group d;
        ocs ← or_conditions d;
        Ok (all_if_empty
              (or_prefix ocs ++ concat groups ++ ng ++ or_suffix ocs)))
  /\ (sublist (map fst (leaf_items d)) leaf_keys ->
      (groups ← mapM (fun kv => parse_condition [kv]) (leaf_items d);
       Ok (concat groups)) = leaf_pairs_in_precedence d).
Proof.
  assert (Hshape : parse_criteria (VDict d) =
            (groups ← mapM (fun kv => parse_condition [kv]) (leaf_items d);
             ng ← not_group d;
             ocs ← or_conditions d;
             Ok (or_prefix ocs ++ concat groups ++ ng ++ or_suffix ocs))).
  { rewrite parse_criteria_shape, regular_conditions_leaf_items.
    destruct (mapM _ (leaf_items d)); reflexivity. }
  split; [exact Hshape|]. split.
  - rewrite dsl_to_search_eq, Hshape.
    destruct (mapM _ (leaf_items d)); [|reflexivity].
    cbn [mbind result_bind].
    destruct (not_group d); [|reflexivity]. cbn [mbind result_bind].
    destruct (or_conditions d); reflexivity.
  - intros Hsorted.
    assert (Hpair : mapM (fun kv => parse_condition [kv]) (leaf_items d) =
                    mapM (fun kv => leaf_pair kv.1 kv.2) (leaf_items d)).
    { apply mapM_ext_in. intros [k v] _. apply parse_condition_single. }
    rewrite Hpair.
    rewrite (pairs_along_sorted_keys leaf_pair leaf_keys leaf_keys_nodup
               (leaf_items d) Hsorted).
    unfold leaf_pairs_in_precedence.
    assert (Hkeys : mapM (fun key => match dict_get key (leaf_items d) with
                                     | Some v => leaf_pair key v
                                     | None => Ok []
                                     end) leaf_keys =
                    mapM (fun key => match dict_get key d with
                                     | Some v => leaf_pair key v
                                     | None => Ok []
                                     end) leaf_keys).
    { apply mapM_ext_in. intros key Hkey.
      rewrite dict_get_leaf_items; [reflexivity|].
      unfold leaf_keys in *. cbn in Hkey.
      repeat (destruct Hkey as [<-|Hkey]; [reflexivity|]). contradiction. }
    rewrite Hkeys. reflexivity.
Qed.

(** C7 (amended).  For every [not] list, whatever else the expression
    holds: when its sub-expressions compile to at least one token, the
    compiler puts one NOT followed by one group holding the concatenated
    tokens of all of them right after the leaf tokens; when they compile
    to no token at all it puts nothing there. *)
Theorem C7_one_not_over_merged_group (d : dict) (subs : list value)
  (leaf : list value) (groups ocs : list (list value)) :
  dict_get "not" d = Some (VList subs) ->
  regular_conditions d = Ok leaf ->
  mapM parse_criteria subs = Ok groups ->
  or_conditions d = Ok ocs ->
  parse_criteria (VDict d) =
    Ok (or_prefix ocs ++ leaf
          ++ match concat groups with
             | [] => []
             | t :: ts => [VStr "NOT"; VList (t :: ts)]
             end ++ or_suffix ocs)
  /\ dsl_to_search (VDict d) =
       Ok (all_if_empty
             (or_prefix ocs ++ leaf
                ++ match concat groups with
                   | [] => []
                   | t :: ts => [VStr "NOT"; VList (t :: ts)]
                   end ++ or_suffix ocs)).
Proof.
  intros Hnot Hleaf Hsubs Hor.
  assert (Hshape : parse_criteria (VDict d) =
            Ok (or_prefix ocs ++ leaf
                  ++ match concat groups with
                     | [] => []
                     | t :: ts => [VStr "NOT"; VList (t :: ts)]
                     end ++ or_suffix ocs)).
  { rewrite parse_criteria_shape, Hleaf. unfold not_group.
    rewrite Hnot, Hsubs, Hor. cbn [mbind result_bind].
    destruct (concat groups); reflexivity. }
  split; [exact Hshape|].
  rewrite dsl_to_search_eq, Hshape. reflexivity.
Qed.

(** C8.  An expression with none of the keys from, to, cc, subject, since,
    before, or, not compiles to [ALL] at the top level, and to no token
    as a sub-expression: in a [not] list it adds nothing to the merged
    group and in an [or] list it is an operand without tokens. *)
Theorem C8_no_recognized_key (d : dict) :
  (forall key, In key (leaf_keys ++ ["or"; "not"]) -> dict_get key d = None) ->
  dsl_to_search (VDict d) = Ok [VStr "ALL"]
  /\ parse_criteria (VDict d) = Ok []
  /\ (forall rest,
        parse_criteria (VDict [("not", VList (VDict d :: rest))]) =
        parse_criteria (VDict [("not", VList rest)]))
  /\ (forall c,
        parse_criteria (VDict [("or", VList [VDict d; c])]) =
        (toks ← parse_criteria c; Ok (VStr "OR" :: toks))).
Proof.
  intros Hnone.
  assert (Hempty : parse_criteria (VDict d) = Ok []).
  { rewrite parse_criteria_steps.
    rewrite regular_no_recognized
      by (intros key Hkey; apply Hnone, in_or_app; left; exact Hkey).
    cbn [mbind result_bind].
    rewrite !Hnone by (apply in_or_app; right; cbn; tauto). reflexivity. }
  split; [rewrite dsl_to_search_eq, Hempty; reflexivity|].
  split; [exact Hempty|]. split.
  - intros rest. rewrite !parse_criteria_steps.
    cbn [regular_conditions str_in existsb String.eqb Ascii.eqb Bool.eqb
         orb negb dict_get mbind result_bind].
    rewrite mapM_cons, Hempty. cbn [mbind result_bind].
    destruct (mapM parse_criteria rest); reflexivity.
  - intros c. rewrite !parse_criteria_steps.
    cbn [regular_conditions str_in existsb String.eqb Ascii.eqb Bool.eqb
         orb negb dict_get mbind result_bind].
    rewrite !mapM_cons, Hempty. cbn [mbind result_bind].
    destruct (parse_criteria c); reflexivity.
Qed.

End CompilerClaims.

(** The compiler on requests of the repository's own test-suite. *)
Example complex_query :
  dsl_to_search
    (VDict [("from", VStr "important@example.com");
            ("not", VList [VDict [("subject", VStr "unimportant")]]);
            ("or", VList [VDict [("subject", VStr "urgent")];
                          VDict [("to", VStr "important@example.com")]])]) =
  Ok [VStr "FROM"; VStr "important@example.com";
      VStr "NOT"; VList [VStr "SUBJECT"; VStr "unimportant"];
      VStr "OR"; VStr "SUBJECT"; VStr "urgent";
      VStr "TO"; VStr "important@example.com"].
Proof. reflexivity. Qed.

Example or_with_since :
  dsl_to_search
    (VDict [("or", VList [VDict [("from", VStr "a@example.com")];
                          VDict [("subject", VStr "urgent")]]);
            ("since", VStr "2024-03-15")]) =
  Ok [VStr "SINCE"; VStr "15-Mar-2024"; VStr "OR";
      VStr "FROM"; VStr "a@example.com"; VStr "SUBJECT"; VStr "urgent"].
Proof. reflexivity. Qed.

Example multiple_conditions_with_date_range :
  dsl_to_search
    (VDict [("from", VStr "boss@example.com"); ("subject", VStr "report");
            ("since", VStr "2024-04-10"); ("before", VStr "2024-04-16")]) =
  Ok [VStr "FROM"; VStr "boss@example.com"; VStr "SUBJECT"; VStr "report";
      VStr "SINCE"; VStr "10-Apr-2024"; VStr "BEFORE"; VStr "16-Apr-2024"].
Proof. reflexivity. Qed.

Example empty_criteria : dsl_to_search (VDict []) = Ok [VStr "ALL"].
Proof. reflexivity. Qed.

(** The two [not] examples of the specification. *)
Example not_single :
  dsl_to_search (VDict [("not", VList [VDict [("from", VStr "x")]])]) =
  Ok [VStr "NOT"; VList [VStr "FROM"; VStr "x"]].
Proof. reflexivity. Qed.

Example not_multiple :
  dsl_to_search
    (VDict [("not", VList [VDict [("from", VStr "x")];
                           VDict [("subject", VStr "y")]])]) =
  Ok [VStr "NOT"; VList [VStr "FROM"; VStr "x"; VStr "SUBJECT"; VStr "y"]].
Proof. reflexivity. Qed.

(** C1, as stated, fails: with the keys given as subject, from the pairs come
    out as SUBJECT, FROM, not in the fixed order FROM, SUBJECT. *)
Lemma C1_counterexample :
  let d := [("subject", VStr "s"); ("from", VStr "f")] in
  wf_value (VDict d) = true
  /\ dsl_to_search (VDict d) =
       Ok [VStr "SUBJECT"; VStr "s"; VStr "FROM"; VStr "f"]
  /\ leaf_pairs_in_precedence d =
       Ok [VStr "FROM"; VStr "f"; VStr "SUBJECT"; VStr "s"]
  /\ dsl_to_search (VDict d) <> leaf_pairs_in_precedence d.
Proof. cbv zeta. repeat split; try reflexivity. vm_compute. discriminate. Qed.

Lemma C1_witness :
  let d := [("limit", VInt 5); ("from", VStr "f");
            ("or", VList [VDict [("to", VStr "x")]; VDict [("to", VStr "y")]]);
            ("subject", VStr "s");
            ("not", VList [VDict [("cc", VStr "n")]])] in
  sublist (map fst (leaf_items d)) leaf_keys
  /\ dsl_to_search (VDict d) =
       Ok [VStr "FROM"; VStr "f"; VStr "SUBJECT"; VStr "s";
           VStr "NOT"; VList [VStr "CC"; VStr "n"];
           VStr "OR"; VStr "TO"; VStr "x"; VStr "TO"; VStr "y"]
  /\ leaf_pairs_in_precedence d =
       Ok [VStr "FROM"; VStr "f"; VStr "SUBJECT"; VStr "s"].
Proof.
  cbv zeta.
  set (d := [("limit", VInt 5); ("from", VStr "f");
             ("or", VList [VDict [("to", VStr "x")]; VDict [("to", VStr "y")]]);
             ("subject", VStr "s");
             ("not", VList [VDict [("cc", VStr "n")]])]).
  assert (Hs : sublist (map fst (leaf_items d)) leaf_keys).
  { cbn. unfold leaf_keys.
    apply sublist_skip, sublist_cons, sublist_cons, sublist_skip,
      sublist_cons, sublist_cons, sublist_nil. }
  destruct (C1_leaf_pairs_follow_key_order d) as (_ & Hdsl & Hprec).
  split; [exact Hs|]. split.
  - rewrite Hdsl. reflexivity.
  - rewrite <- (Hprec Hs). reflexivity.
Defined.

(** C2: the code at the failing input.  The third [or] sub-expression puts
    its OR in front of the whole result, leaf tokens included, where the
    leaf-not-or concatenation has the leaf pair first. *)
Theorem C2_third_or_rewraps_leaf_tokens :
  let d := [("from", VStr "a");
            ("or", VList [VDict [("to", VStr "x")]; VDict [("to", VStr "y")];
                          VDict [("to", VStr "z")]])] in
  wf_value (VDict d) = true
  /\ dsl_to_search (VDict d) =
       Ok [VStr "OR"; VStr "FROM"; VStr "a"; VStr "OR";
           VStr "TO"; VStr "x"; VStr "TO"; VStr "y"; VStr "TO"; VStr "z"]
  /\ leaf_not_or d =
       Ok [VStr "FROM"; VStr "a"; VStr "OR"; VStr "OR";
           VStr "TO"; VStr "x"; VStr "TO"; VStr "y"; VStr "TO"; VStr "z"].
Proof. cbv zeta. repeat split; reflexivity. Qed.

(** C7, as stated, fails when the merged group is empty: no NOT is emitted
    then, so the only sub-expression being empty the result is [ALL]. *)
Lemma C7_counterexample :
  let subs := [VDict []] in
  mapM parse_criteria subs = Ok [[]]
  /\ dsl_to_search (VDict [("not", VList subs)]) = Ok [VStr "ALL"]
  /\ dsl_to_search (VDict [("not", VList subs)]) <>
       Ok [VStr "NOT"; VList (concat [[]])].
Proof. cbv zeta. repeat split; try reflexivity. vm_compute. discriminate. Qed.

Lemma C7_witness :
  let subs := [VDict [("subject", VStr "unimportant")]; VDict [];
               VDict [("cc", VStr "list")]] in
  let d := [("from", VStr "important@example.com");
            ("not", VList subs);
            ("or", VList [VDict [("subject", VStr "urgent")];
                          VDict [("to", VStr "important@example.com")]])] in
  dsl_to_search (VDict d) =
    Ok [VStr "FROM"; VStr "important@example.com";
        VStr "NOT"; VList [VStr "SUBJECT"; VStr "unimportant";
                           VStr "CC"; VStr "list"];
        VStr "OR"; VStr "SUBJECT"; VStr "urgent";
        VStr "TO"; VStr "important@example.com"].
Proof.
  cbv zeta.
  exact (proj2 (C7_one_not_over_merged_group
           [("from", VStr "important@example.com");
            ("not", VList [VDict [("subject", VStr "unimportant")]; VDict [];
                           VDict [("cc", VStr "list")]]);
            ("or", VList [VDict [("subject", VStr "urgent")];
                          VDict [("to", VStr "important@example.com")]])]
           [VDict [("subject", VStr "unimportant")]; VDict [];
            VDict [("cc", VStr "list")]]
           [VStr "FROM"; VStr "important@example.com"]
           [[VStr "SUBJECT"; VStr "unimportant"]; [];
            [VStr "CC"; VStr "list"]]
           [[VStr "SUBJECT"; VStr "urgent"];
            [VStr "TO"; VStr "important@example.com"]]
           eq_refl eq_refl eq_refl eq_refl)).
Defined.

Lemma C8_witness :
  let d := [("folder", VStr "INBOX"); ("limit", VInt 10)] in
  (forall key, In key (leaf_keys ++ ["or"; "not"]) -> dict_get key d = None)
  /\ dsl_to_search (VDict d) = Ok [VStr "ALL"]
  /\ parse_criteria (VDict d) = Ok [].
Proof.
  cbv zeta.
  assert (Hd : forall key, In key (leaf_keys ++ ["or"; "not"]) ->
                 dict_get key [("folder", VStr "INBOX"); ("limit", VInt 10)]
                 = None).
  { intros key Hkey. cbn in Hkey.
    repeat (destruct Hkey as [<-|Hkey]; [reflexivity|]). contradiction. }
  split; [exact Hd|].
  destruct (C8_no_recognized_key _ Hd) as (H1 & H2 & _).
  split; [exact H1|exact H2].
Defined.

(** * The claims about the message reconstructor *)

Section BodyClaims.
Context {em : Email}.

Lemma decode_bind_ret {A} (m : result A) : (x ← m; Ok x) = m.
Proof. destruct m; reflexivity. Qed.

(** The loop over the parts, provided the plain-text candidate decodes. *)
Lemma body_loop (parts : list message) :
  forall text_part html_part new_text,
    decoded (next_candidate "text/plain" text_part parts) = Ok new_text ->
    foldlM body_step (text_part, html_part) parts =
      (new_html ← decoded (next_candidate "text/html" html_part parts);
       Ok (keep_first text_part new_text, keep_first html_part new_html)).
Proof.
  induction parts as [|p parts IH]; intros text_part html_part new_text Hdec.
  - destruct text_part, html_part; cbn in Hdec |- *;
      injection Hdec as <-; reflexivity.
  - cbn [foldlM]. set (loop := foldlM body_step). unfold body_step.
    unfold next_candidate in Hdec |- *. cbn [List.find] in Hdec |- *.
    unfold is_candidate in Hdec |- * at 1.
    destruct (is_attachment p).
    { cbn [negb andb mbind result_bind] in Hdec |- *.
      subst loop. apply (IH text_part html_part new_text).
      destruct text_part; exact Hdec. }
    cbn [negb andb] in Hdec |- *.
    destruct (String.eqb_spec (content_type (info p)) "text/plain") as [Hct|Hct].
    + assert (Hhtml : String.eqb (content_type (info p)) "text/html" = false)
        by (rewrite Hct; reflexivity).
      rewrite Hhtml. cbn [andb].
      destruct text_part as [t|].
      * rewrite bool_decide_false by discriminate.
        cbn [andb mbind result_bind].
        subst loop; rewrite (IH (Some t) html_part new_text Hdec).
        destruct html_part; reflexivity.
      * rewrite bool_decide_true by reflexivity.
        cbn [decoded] in Hdec.
        destruct (decode_part p) as [t|e]; [|discriminate].
        cbn [andb mbind result_bind] in Hdec |- *. injection Hdec as <-.
        subst loop; rewrite (IH (Some t) html_part None eq_refl).
        destruct html_part; reflexivity.
    + cbn [andb].
      destruct (String.eqb (content_type (info p)) "text/html").
      * destruct html_part as [h|].
        -- rewrite bool_decide_false by discriminate.
           cbn [andb mbind result_bind].
           subst loop; rewrite (IH text_part (Some h) new_text
                      ltac:(destruct text_part; exact Hdec)).
           reflexivity.
        -- rewrite bool_decide_true by reflexivity.
           cbn [decoded].
           destruct (decode_part p) as [h|e]; [|reflexivity].
           cbn [andb mbind result_bind].
           subst loop; rewrite (IH text_part (Some h) new_text
                      ltac:(destruct text_part; exact Hdec)).
           reflexivity.
      * cbn [andb mbind result_bind].
        subst loop; rewrite (IH text_part html_part new_text
                   ltac:(destruct text_part; exact Hdec)).
        destruct html_part; reflexivity.
Qed.

Lemma get_email_body_eq (msg : message) (text : option string) :
  decoded (first_part "text/plain" msg) = Ok text ->
  get_email_body msg =
    (html ← decoded (first_part "text/html" msg);
     Ok (or_str text (or_str html ""))).
Proof.
  intros Hdec. unfold get_email_body.
  rewrite (body_loop (walk msg) None None text Hdec).
  unfold next_candidate, first_part.
  destruct (decoded (List.find (is_candidate "text/html") (walk msg)));
    reflexivity.
Qed.

(** C4 (amended).  When the first non-attachment text/plain part and the
    first non-attachment text/html part, as far as they exist, decode, the
    body is the plain text if there is such a part and its text is not
    empty, otherwise the html text if there is such a part, otherwise the
    empty string; the position of the html part plays no role and only
    the first part of each type is looked at. *)
Theorem C4_body_selection (msg : message) (text html : option string) :
  decoded (first_part "text/plain" msg) = Ok text ->
  decoded (first_part "text/html" msg) = Ok html ->
  get_email_body msg =
    Ok (match text with
        | Some (String c t) => String c t
        | _ => match html with
               | Some h => h
               | None => ""
               end
        end).
Proof.
  intros Htext Hhtml. rewrite (get_email_body_eq msg text Htext), Hhtml.
  cbn [mbind result_bind]. f_equal.
  destruct text as [[|c t]|], html as [[|c' h]|]; reflexivity.
Qed.

(** C10.  When the first non-attachment text/plain part decodes to the
    empty string, the body is the decoded text of the first
    non-attachment text/html part if there is one, and the empty string
    otherwise. *)
Theorem C10_empty_plain_text_falls_back (msg part : message) :
  first_part "text/plain" msg = Some part ->
  decode_part part = Ok "" ->
  get_email_body msg =
    match first_part "text/html" msg with
    | Some h => decode_part h
    | None => Ok ""
    end.
Proof.
  intros Hfirst Hempty.
  rewrite (get_email_body_eq msg (Some "")).
  2:{ rewrite Hfirst. cbn [decoded]. rewrite Hempty. reflexivity. }
  destruct (first_part "text/html" msg) as [h|]; cbn [decoded];
    [|reflexivity].
  destruct (decode_part h) as [[|c s]|e]; reflexivity.
Qed.

End BodyClaims.

(** C4, as stated, fails: the message has a non-attachment text/plain part,
    whose decoded text is the empty string, yet the body is the html text. *)
Lemma C4_counterexample :
  decoded (first_part "text/plain" empty_plain_with_html) = Ok (Some "")
  /\ get_email_body empty_plain_with_html = Ok "<p>hi</p>"
  /\ get_email_body empty_plain_with_html <> Ok "".
Proof. repeat split; try reflexivity. vm_compute. discriminate. Qed.

Lemma C4_witness :
  (decoded (first_part "text/plain" html_before_plain) = Ok (Some "first")
   /\ decoded (first_part "text/html" html_before_plain) =
        Ok (Some "<b>html</b>"))
  /\ get_email_body html_before_plain = Ok "first".
Proof.
  split; [split; reflexivity|].
  exact (C4_body_selection html_before_plain (Some "first")
           (Some "<b>html</b>") eq_refl eq_refl).
Defined.

Lemma C10_witness :
  (first_part "text/plain" empty_plain_with_html =
     Some (Leaf {| headers := []; content_type := "text/plain";
                   content_charset := Some "utf-8" |} [])
   /\ decode_part (Leaf {| headers := []; content_type := "text/plain";
                           content_charset := Some "utf-8" |} []) = Ok "")
  /\ get_email_body empty_plain_with_html = Ok "<p>hi</p>".
Proof.
  split; [split; reflexivity|].
  exact (C10_empty_plain_text_falls_back empty_plain_with_html _
           eq_refl eq_refl).
Defined.

(** * The claims about [search] and [fetch] *)

Section ToolsFacts.
Context {World : Type} {transport : Transport World} {dt : Datetime}
        {em : Email}.
Variable cfg : config.

(** ** Running a computation step by step *)

Lemma run_bind_ok {A B} (m : io World A) (f : A -> io World B)
  w a t w' r t' w'' :
  m w = (Ok a, t, w') -> f a w' = (r, t', w'') ->
  (m ≫= f) w = (r, t ++ t', w'').
Proof. intros Hm Hf. unfold mbind, io_bind. rewrite Hm, Hf. reflexivity. Qed.

Lemma run_bind_raise {A B} (m : io World A) (f : A -> io World B)
  w e t w' :
  m w = (Raise e, t, w') -> (m ≫= f) w = (Raise e, t, w').
Proof. intros Hm. unfold mbind, io_bind. rewrite Hm. reflexivity. Qed.

Lemma run_bind_assoc {A B C} (m : io World A) (f : A -> io World B)
  (g : B -> io World C) w :
  ((m ≫= f) ≫= g) w = (m ≫= (fun a => f a ≫= g)) w.
Proof.
  unfold mbind, io_bind.
  destruct (m w) as [[[a|e] t] w1]; [|reflexivity].
  destruct (f a w1) as [[[b|e] t1] w2]; [|reflexivity].
  destruct (g b w2) as [[r t2] w3]. rewrite app_assoc. reflexivity.
Qed.

Lemma with_client_ext {A} (body body' : io World A) w :
  (forall w1, body w1 = body' w1) ->
  with_client cfg body w = with_client cfg body' w.
Proof.
  intros Hext. unfold with_client.
  destruct (imap_connect _ _ _ w) as [[[]|e] w1]; [|reflexivity].
  rewrite Hext. reflexivity.
Qed.

(** What a [with] block that ends normally went through. *)
Lemma with_client_ok_inv {A} (body : io World A) w a t w' :
  with_client cfg body w = (Ok a, t, w') ->
  exists w1 t1 w2,
    imap_connect (IMAP_SERVER cfg) (IMAP_PORT cfg)
                 (negb (IMAP_USE_STARTTLS cfg)) w = (Ok tt, w1)
    /\ body w1 = (Ok a, t1, w2)
    /\ t = EConnect (IMAP_SERVER cfg) (IMAP_PORT cfg)
                    (negb (IMAP_USE_STARTTLS cfg)) :: t1 ++ [ELogout]
    /\ w' = imap_logout w2.
Proof.
  unfold with_client.
  destruct (imap_connect _ _ _ w) as [[[]|e] w1]; [|discriminate].
  destruct (body w1) as [[r t1] w2] eqn:Hb. intros [= -> <- <-].
  exists w1, t1, w2.
  split; [reflexivity|]. split; [exact Hb|]. split; reflexivity.
Qed.

Lemma with_client_run {A} (body : io World A) w w1 r t1 w2 :
  imap_connect (IMAP_SERVER cfg) (IMAP_PORT cfg)
               (negb (IMAP_USE_STARTTLS cfg)) w = (Ok tt, w1) ->
  body w1 = (r, t1, w2) ->
  with_client cfg body w =
    (r, EConnect (IMAP_SERVER cfg) (IMAP_PORT cfg)
                 (negb (IMAP_USE_STARTTLS cfg)) :: t1 ++ [ELogout],
     imap_logout w2).
Proof. intros Hc Hb. unfold with_client. rewrite Hc, Hb. reflexivity. Qed.

Lemma try_log_run data w :
  try_log data w = (Ok tt, [ELogMessage "debug" data], logged data w).
Proof.
  unfold try_log, logged.
  destruct (send_log_message "debug" data w). reflexivity.
Qed.

(** ** The calls a computation can make *)

Section Calls.
Variable P : event -> Prop.

Lemma calls_bind {A B} (m : io World A) (f : A -> io World B) w :
  Forall P (calls (m w)) ->
  (forall a w', Forall P (calls (f a w'))) ->
  Forall P (calls ((m ≫= f) w)).
Proof.
  intros Hm Hf. unfold mbind, io_bind.
  destruct (m w) as [[[a|e] t] w1]; [|exact Hm].
  specialize (Hf a w1). destruct (f a w1) as [[r t1] w2].
  unfold calls in *. cbn [fst snd] in *. apply Forall_app; split; assumption.
Qed.

Lemma calls_ret {A} (a : A) (w : World) :
  Forall P (calls (mret (M := io World) a w)).
Proof. constructor. Qed.

Lemma calls_lift {A} (r : result A) (w : World) :
  Forall P (calls (lift r w)).
Proof. constructor. Qed.

Lemma calls_call {A} e (op : World -> result A * World) w :
  P e -> Forall P (calls (call e op w)).
Proof.
  intros He. unfold call. destruct (op w) as [r w1].
  unfold calls. cbn [fst snd]. constructor; [exact He|constructor].
Qed.

Lemma calls_with_client {A} (body : io World A) w :
  P (EConnect (IMAP_SERVER cfg) (IMAP_PORT cfg)
              (negb (IMAP_USE_STARTTLS cfg))) ->
  P ELogout ->
  (forall w1, Forall P (calls (body w1))) ->
  Forall P (calls (with_client cfg body w)).
Proof.
  intros Hc Hl Hb. unfold with_client.
  destruct (imap_connect _ _ _ w) as [[[]|e] w1].
  - specialize (Hb w1). destruct (body w1) as [[r t1] w2].
    unfold calls in *. cbn [fst snd] in *. constructor; [exact Hc|].
    apply Forall_app; split; [exact Hb|]. constructor; [exact Hl|constructor].
  - unfold calls. cbn [fst snd]. constructor; [exact Hc|constructor].
Qed.

Lemma calls_enter_folder folder w :
  P EStarttls -> P (ELogin (IMAP_USER cfg) (IMAP_PASSWORD cfg)) ->
  P (ESelectFolder folder) ->
  Forall P (calls (enter_folder cfg folder w)).
Proof.
  intros Hs Hl Hf. unfold enter_folder, open_session.
  apply calls_bind; [apply calls_bind|].
  - destruct (IMAP_USE_STARTTLS cfg);
      [apply calls_call; exact Hs|apply calls_ret].
  - intros. apply calls_call. exact Hl.
  - intros. apply calls_call. exact Hf.
Qed.

End Calls.

(** C9 (amended).  A request whose criteria hold, in [since] or [before],
    a string that [strptime] rejects raises before anything leaves the
    process: the call ends in an exception, no call at all is made (no
    log line, connection, login, folder selection, search or fetch) and
    the world is untouched. *)
Theorem C9_rejected_date_fails_before_network
  (folder : string) (criteria : value) (fields : option dict) (w : World) :
  rejected_date criteria ->
  exists e, search cfg folder criteria fields w = (Raise e, [], w).
Proof.
  intros Hbad.
  destruct (rejected_date_raises criteria Hbad) as [e He].
  exists e. unfold search. rewrite dsl_to_search_eq, He. reflexivity.
Qed.

(** C5.  Once the criteria compile and the session gets as far as the
    answer [ids] of the search call: if neither [headers] nor [body] is
    requested, or [ids] is empty, [search] returns [{"messages": []}]
    and its calls are the log line and those of that session, none of
    which is a fetch. *)
Theorem C5_search_short_circuit
  (folder : string) (criteria : value) (fields : option dict) (w : World)
  (toks : list value) (ids : list Z) (t : list event) (w' : World) :
  let search_criteria := [VStr "charset"; VStr "UTF-8"] ++ toks in
  dsl_to_search criteria = Ok toks ->
  with_client cfg (enter_folder cfg folder;; client_search search_criteria)
              (logged search_criteria w) = (Ok ids, t, w') ->
  (truthy (get_field fields "headers") = false
   /\ truthy (get_field fields "body") = false)
  \/ ids = [] ->
  search cfg folder criteria fields w =
    (Ok (VDict [("messages", VList [])]),
     ELogMessage "debug" search_criteria :: t, w')
  /\ Forall (fun e => is_fetch e = false)
            (ELogMessage "debug" search_criteria :: t).
Proof.
  cbv zeta. intros Hcompile Hsession Hshort. split.
  - apply with_client_ok_inv in Hsession
      as (w1 & t1 & w2 & Hconn & Hbody & -> & ->).
    unfold search. rewrite Hcompile.
    eapply (run_bind_ok _ _ w toks [] w); [reflexivity|].
    cbv beta.
    match goal with |- _ = (_, ?e :: ?l, _) =>
      change (e :: l) with ([e] ++ l) end.
    eapply run_bind_ok; [apply try_log_run|].
    cbv beta.
    erewrite with_client_ext by (intros; symmetry; apply run_bind_assoc).
    eapply with_client_run; [exact Hconn|].
    rewrite <- (app_nil_r t1).
    eapply run_bind_ok; [exact Hbody|].
    cbv beta.
    assert (Hcond :
              negb (truthy (if truthy (get_field fields "headers")
                            then get_field fields "headers"
                            else get_field fields "body"))
              || bool_decide (ids = []) = true).
    { destruct Hshort as [[Hh Hb]| ->].
      - rewrite Hh, Hb. reflexivity.
      - rewrite bool_decide_true by reflexivity. apply orb_true_r. }
    rewrite Hcond. reflexivity.
  - constructor; [reflexivity|].
    change t with (calls (Ok ids, t, w')). rewrite <- Hsession.
    apply calls_with_client; try reflexivity.
    intros w1. apply calls_bind.
    + apply calls_enter_folder; reflexivity.
    + intros. apply calls_call. reflexivity.
Qed.

(** Without [headers] and [body] requested, no run of [search] fetches,
    whatever the criteria and whatever the server answers or refuses. *)
Lemma search_unrequested_never_fetches
  (folder : string) (criteria : value) (fields : option dict) (w : World) :
  truthy (get_field fields "headers") = false ->
  truthy (get_field fields "body") = false ->
  Forall (fun e => is_fetch e = false)
         (calls (search cfg folder criteria fields w)).
Proof.
  intros Hh Hb. unfold search. rewrite Hh, Hb. cbn [negb orb].
  apply calls_bind; [apply calls_lift|]. intros toks w1.
  apply calls_bind.
  { rewrite try_log_run. repeat constructor. }
  intros _ w2. apply calls_with_client; try reflexivity. intros w3.
  apply calls_bind; [apply calls_enter_folder; reflexivity|]. intros _ w4.
  apply calls_bind; [apply calls_call; reflexivity|]. intros ids w5.
  apply calls_ret.
Qed.

End ToolsFacts.

Section FetchFacts.
Context {World : Type} {transport : Transport World} {dt : Datetime}
        {em : Email}.
Variable cfg : config.

(** A loop stops at the first iteration that raises. *)
Lemma foldlM_stops {A B} (f : A -> B -> io World A)
  (pre : list B) (x : B) (post : list B) :
  forall a w a1 t1 w1 e t2 w2,
    foldlM f a pre w = (Ok a1, t1, w1) ->
    f a1 x w1 = (Raise e, t2, w2) ->
    foldlM f a (pre ++ x :: post) w = (Raise e, t1 ++ t2, w2).
Proof.
  induction pre as [|y pre IH]; intros a w a1 t1 w1 e t2 w2 Hpre Hx.
  - cbn in Hpre. injection Hpre as <- <- <-.
    cbn [app foldlM]. apply run_bind_raise. exact Hx.
  - cbn [app foldlM] in Hpre |- *.
    destruct (f a y w) as [[[a'|e'] t] w'] eqn:Hy.
    + destruct (foldlM f a' pre w') as [[r t'] w''] eqn:Hrest.
      rewrite (run_bind_ok _ _ _ _ _ _ _ _ _ Hy Hrest) in Hpre.
      injection Hpre as -> <- ->.
      rewrite (run_bind_ok _ _ _ _ _ _ _ _ _ Hy
                 (IH a' w' a1 t' w1 e t2 w2 Hrest Hx)).
      rewrite app_assoc. reflexivity.
    + rewrite (run_bind_raise _ _ _ _ _ _ Hy) in Hpre. discriminate.
Qed.

(** Looking up an id that the folder does not hold: the session is
    opened, the fetch is made, and reading the answer raises. *)
Lemma fetch_one_missing (results : gmap string string)
  (message_id id folder : string) (n : Z) (w w1 w2 w3 : World)
  (t : list event) (resp : fetch_response) :
  split_first "@" message_id = Some (id, folder) ->
  imap_connect (IMAP_SERVER cfg) (IMAP_PORT cfg)
               (negb (IMAP_USE_STARTTLS cfg)) w = (Ok tt, w1) ->
  enter_folder cfg folder w1 = (Ok tt, t, w2) ->
  PyInt.int_of_str id = Ok n ->
  imap_fetch [n] ["RFC822"] w2 = (Ok resp, w3) ->
  resp !! n = None ->
  fetch_one cfg results message_id w =
    (Raise KeyError,
     EConnect (IMAP_SERVER cfg) (IMAP_PORT cfg)
              (negb (IMAP_USE_STARTTLS cfg))
       :: (t ++ [EFetch [n] ["RFC822"]]) ++ [ELogout],
     imap_logout w3).
Proof.
  intros Hsplit Hconn Henter Hint Hfetch Hmiss.
  unfold fetch_one. rewrite Hsplit.
  eapply (run_bind_ok _ _ w (id, folder) [] w); [reflexivity|].
  cbv beta iota.
  eapply with_client_run; [exact Hconn|].
  eapply run_bind_ok; [exact Henter|].
  rewrite Hint.
  eapply (run_bind_ok _ _ w2 n [] w2); [reflexivity|].
  apply run_bind_ok
    with (a := resp) (w' := w3) (t := [EFetch [n] ["RFC822"]]).
  { unfold client_fetch, call. rewrite Hfetch. reflexivity. }
  apply run_bind_raise. unfold lift, rfc822_of. rewrite Hmiss. reflexivity.
Qed.

(** C3 (amended).  In [fetch], an id that does not exist in its folder
    raises [KeyError] and ends the whole call: no mapping is returned,
    the bodies found for the ids before it are lost, and nothing is done
    for the ids after it; the calls made are those for the ids before it
    and the session of the missing id. *)
Theorem C3_missing_id_aborts_fetch
  (pre post : list string) (message_id id folder : string) (n : Z)
  (w w1 w2 w3 w4 : World) (found : gmap string string)
  (t1 t : list event) (resp : fetch_response) :
  fetch cfg pre w = (Ok found, t1, w1) ->
  split_first "@" message_id = Some (id, folder) ->
  imap_connect (IMAP_SERVER cfg) (IMAP_PORT cfg)
               (negb (IMAP_USE_STARTTLS cfg)) w1 = (Ok tt, w2) ->
  enter_folder cfg folder w2 = (Ok tt, t, w3) ->
  PyInt.int_of_str id = Ok n ->
  imap_fetch [n] ["RFC822"] w3 = (Ok resp, w4) ->
  resp !! n = None ->
  fetch cfg (pre ++ message_id :: post) w =
    (Raise KeyError,
     t1 ++ EConnect (IMAP_SERVER cfg) (IMAP_PORT cfg)
                    (negb (IMAP_USE_STARTTLS cfg))
        :: (t ++ [EFetch [n] ["RFC822"]]) ++ [ELogout],
     imap_logout w4).
Proof.
  intros Hpre Hsplit Hconn Henter Hint Hfetch Hmiss. unfold fetch in *.
  eapply foldlM_stops; [exact Hpre|].
  eapply fetch_one_missing; eassumption.
Qed.

End FetchFacts.

Import MemServer.

(** C3, as stated, fails: id 42 does not exist in INBOX and id 1 does; the
    call raises instead of returning a mapping, and message 1 is never
    fetched. *)
Lemma C3_counterexample :
  let r := fetch test_config ["42@INBOX"; "1@INBOX"] (inbox (numbered 2)) in
  outcome (fetch test_config ["1@INBOX"] (inbox (numbered 2))) =
    Ok {[ "1@INBOX" := "m" ]}
  /\ outcome r = Raise KeyError
  /\ calls r =
       [EConnect "imap.example.com" 993 true; ELogin "user" "secret";
        ESelectFolder "INBOX"; EFetch [42] ["RFC822"]; ELogout]
  /\ ~ In (EFetch [1] ["RFC822"]) (calls r).
Proof.
  cbv zeta. split; [vm_compute; reflexivity|].
  split; [vm_compute; reflexivity|].
  assert (Hcalls :
            calls (fetch test_config ["42@INBOX"; "1@INBOX"]
                     (inbox (numbered 2))) =
            [EConnect "imap.example.com" 993 true; ELogin "user" "secret";
             ESelectFolder "INBOX"; EFetch [42] ["RFC822"]; ELogout])
    by (vm_compute; reflexivity).
  split; [exact Hcalls|].
  rewrite Hcalls. cbn [In]. intros Hin.
  repeat (destruct Hin as [Hin|Hin]; [discriminate|]). contradiction.
Qed.

Section BatchFacts.
Context {World : Type} {transport : Transport World} {dt : Datetime}
        {em : Email}.
Variable cfg : config.

Local Open Scope nat_scope.

Lemma run_bind_ok_inv {A B} (m : io World A) (f : A -> io World B)
  w b t w'' :
  (m ≫= f) w = (Ok b, t, w'') ->
  exists a t1 w1 t2,
    m w = (Ok a, t1, w1) /\ f a w1 = (Ok b, t2, w'') /\ t = t1 ++ t2.
Proof.
  unfold mbind, io_bind.
  destruct (m w) as [[[a|e] t1] w1]; [|discriminate].
  destruct (f a w1) as [[r t2] w2] eqn:Hf. intros [= -> <- <-].
  exists a, t1, w1, t2. split; [reflexivity|]. split; [exact Hf|reflexivity].
Qed.

Lemma call_ok_inv {A} e (op : World -> result A * World) w a t w' :
  call e op w = (Ok a, t, w') -> t = [e].
Proof. unfold call. destruct (op w). intros [= _ <- _]. reflexivity. Qed.

(** *** Slices *)

Lemma chunks_nil_iff {A} fuel n (l : list A) :
  length l <= fuel -> (chunks fuel n l = [] <-> l = []).
Proof.
  destruct fuel, l; cbn; intros Hlen; split; intros Heq;
    try reflexivity; try discriminate; lia.
Qed.

Lemma chunks_concat {A} fuel n (l : list A) :
  0 < n -> length l <= fuel -> concat (chunks fuel n l) = l.
Proof.
  intros Hn. revert l. induction fuel as [|fuel IH]; intros l Hlen.
  - destruct l; [reflexivity|cbn in Hlen; lia].
  - destruct l as [|x l]; [reflexivity|].
    cbn [chunks concat]. rewrite IH.
    + apply take_drop.
    + rewrite length_drop. cbn [length] in *. lia.
Qed.

Lemma chunks_bounds {A} fuel n (l : list A) :
  0 < n ->
  Forall (fun b => 0 < length b <= n) (chunks fuel n l).
Proof.
  intros Hn. revert l. induction fuel as [|fuel IH]; intros l;
    [constructor|].
  destruct l as [|x l]; [constructor|].
  cbn [chunks]. constructor; [|apply IH].
  rewrite length_take. cbn [length]. lia.
Qed.

Lemma chunks_sizes {A} fuel n (l : list A) :
  map (@length A) (chunks fuel n l) = sizes fuel n (length l).
Proof.
  revert l. induction fuel as [|fuel IH]; intros l; [reflexivity|].
  destruct l as [|x l]; [reflexivity|].
  cbn [chunks map sizes length]. rewrite IH, length_take, length_drop.
  reflexivity.
Qed.

(** *** Pauses *)

Lemma paced_cons c c' cs :
  paced (c :: c' :: cs) = c :: ESleep SLEEP_TIME :: paced (c' :: cs).
Proof. reflexivity. Qed.

Lemma paced_counts (cs : list event) :
  Forall (fun c => is_fetch c = true) cs ->
  length (List.filter is_fetch (paced cs)) = length cs
  /\ length (List.filter is_sleep (paced cs)) = length cs - 1
  /\ last (paced cs) = last cs.
Proof.
  induction cs as [|c [|c' cs] IH]; intros Hall.
  - repeat split.
  - inversion Hall as [|? ? Hc _]; subst.
    destruct c; try discriminate. repeat split.
  - inversion Hall as [|? ? Hc Hrest]; subst.
    destruct (IH Hrest) as (Hf & Hs & Hl).
    rewrite paced_cons. destruct c; try discriminate.
    cbn [List.filter is_fetch is_sleep length].
    rewrite Hf, Hs. cbn [length]. repeat split; [lia|].
    destruct (paced (c' :: cs)) as [|p ps] eqn:Hp;
      [destruct cs; discriminate|].
    rewrite !last_cons_cons. exact Hl.
Qed.

(** *** The loop *)

(** The loop from index [j * BATCH_SIZE] on, [m] iterations being left. *)
Lemma batch_loop (ids : list Z) (items : list string) (m : nat) :
  forall j fuel resp w resp' t w',
    (0 < m -> (j + m - 1) * BATCH_SIZE < length ids) ->
    length ids <= (j + m) * BATCH_SIZE ->
    length (drop (j * BATCH_SIZE) ids) <= fuel ->
    foldlM
      (fun (resp : fetch_response) (i : nat) =>
         let batch_ids := take BATCH_SIZE (drop i ids) in
         batch_resp ← client_fetch batch_ids items;
         let resp := batch_resp ∪ resp in
         (if i + BATCH_SIZE <? length ids
          then sleep SLEEP_TIME else mret tt);;
         mret resp)
      resp (map (fun k => 0 + k * BATCH_SIZE) (seq j m)) w
    = (Ok resp', t, w') ->
    t = paced (map (fun b => EFetch b items)
                   (chunks fuel BATCH_SIZE (drop (j * BATCH_SIZE) ids))).
Proof.
  induction m as [|m IH]; intros j fuel resp w resp' t w' Hlast Hend Hfuel Hrun.
  - cbn in Hrun. injection Hrun as _ <- _.
    rewrite drop_ge by lia.
    destruct fuel; reflexivity.
  - cbn [seq map foldlM] in Hrun.
    apply run_bind_ok_inv in Hrun as (resp1 & t1 & w1 & t2 & Hstep & Hrest & ->).
    cbv zeta in Hstep.
    apply run_bind_ok_inv in Hstep as (br & ta & wa & tb & Hf & Hs & ->).
    apply call_ok_inv in Hf as ->.
    apply run_bind_ok_inv in Hs as ([] & tc & wc & td & Hs & Hr & ->).
    injection Hr as _ <- _.
    assert (Hj : j * BATCH_SIZE < length ids) by (unfold BATCH_SIZE in *; lia).
    rewrite length_drop in Hfuel.
    destruct fuel as [|fuel]; [lia|].
    destruct (drop (j * BATCH_SIZE) ids) as [|x rest] eqn:Hdrop.
    { apply (f_equal length) in Hdrop. rewrite length_drop in Hdrop.
      cbn in Hdrop. lia. }
    cbn [chunks map]. rewrite <- Hdrop.
    rewrite drop_drop.
    replace (j * BATCH_SIZE + BATCH_SIZE) with (S j * BATCH_SIZE) by lia.
    specialize (IH (S j) fuel resp1 w1 resp' t2 w').
    rewrite IH; [| |unfold BATCH_SIZE in *; lia| |exact Hrest].
    2:{ intros Hm. unfold BATCH_SIZE in *. lia. }
    2:{ rewrite length_drop. unfold BATCH_SIZE in *. lia. }
    replace (0 + j * BATCH_SIZE) with (j * BATCH_SIZE) in Hs by reflexivity.
    destruct (j * BATCH_SIZE + BATCH_SIZE <? length ids) eqn:Hmore.
    + apply Nat.ltb_lt in Hmore.
      unfold sleep in Hs. apply call_ok_inv in Hs as ->.
      destruct (chunks fuel BATCH_SIZE (drop (S j * BATCH_SIZE) ids))
        as [|b bs] eqn:Hch.
      { apply chunks_nil_iff in Hch.
        - apply (f_equal length) in Hch. rewrite length_drop in Hch.
          cbn in Hch. unfold BATCH_SIZE in *. lia.
        - rewrite length_drop. unfold BATCH_SIZE in *. lia. }
      reflexivity.
    + apply Nat.ltb_ge in Hmore.
      injection Hs as <- _.
      rewrite (drop_ge ids (S j * BATCH_SIZE))
        by (unfold BATCH_SIZE in *; lia).
      destruct fuel; reflexivity.
Qed.

Lemma fetch_batches_calls (ids : list Z) (items : list string) w resp t w' :
  fetch_batches ids items w = (Ok resp, t, w') ->
  t = paced (map (fun b => EFetch b items) (batches ids)).
Proof.
  unfold fetch_batches, range, batches. intros Hrun.
  apply (batch_loop ids items _ 0 (length ids)) in Hrun.
  - exact Hrun.
  - intros Hm. rewrite Nat.sub_0_r in *. unfold BATCH_SIZE in *.
    pose proof (Nat.div_mod_eq (length ids + (50 - 1)) 50).
    pose proof (Nat.mod_upper_bound (length ids + (50 - 1)) 50). lia.
  - rewrite Nat.sub_0_r. unfold BATCH_SIZE in *.
    pose proof (Nat.div_mod_eq (length ids + (50 - 1)) 50).
    pose proof (Nat.mod_upper_bound (length ids + (50 - 1)) 50). lia.
  - rewrite length_drop. lia.
Qed.

End BatchFacts.

Section SearchBatches.
Context {World : Type} {transport : Transport World} {dt : Datetime}
        {em : Email}.
Variable cfg : config.

Local Open Scope nat_scope.

(** [search] from the compiled criteria to the end of the fetch loop. *)
Lemma search_run_batches
  (folder : string) (criteria : value) (fields : option dict)
  (toks : list value) (ids : list Z) (resp : fetch_response)
  (w w1 w2 w3 : World) (t1 t2 : list event) :
  dsl_to_search criteria = Ok toks ->
  imap_connect (IMAP_SERVER cfg) (IMAP_PORT cfg)
               (negb (IMAP_USE_STARTTLS cfg))
               (logged ([VStr "charset"; VStr "UTF-8"] ++ toks) w)
    = (Ok tt, w1) ->
  (enter_folder cfg folder;;
   client_search ([VStr "charset"; VStr "UTF-8"] ++ toks)) w1
    = (Ok ids, t1, w2) ->
  truthy (get_field fields "headers") || truthy (get_field fields "body")
    = true ->
  fetch_batches ids ["RFC822"] w2 = (Ok resp, t2, w3) ->
  exists r,
    search cfg folder criteria fields w =
      (r,
       ELogMessage "debug" ([VStr "charset"; VStr "UTF-8"] ++ toks)
         :: EConnect (IMAP_SERVER cfg) (IMAP_PORT cfg)
                     (negb (IMAP_USE_STARTTLS cfg))
         :: (t1 ++ t2) ++ [ELogout],
       imap_logout w3).
Proof.
  intros Hcompile Hconn Hsession Hreq Hbatches.
  unfold search. rewrite Hcompile.
  assert (Hitems :
            (if truthy (get_field fields "headers")
                || truthy (get_field fields "body")
             then ["RFC822"] else []) = ["RFC822"])
    by (rewrite Hreq; reflexivity).
  assert (Hdata :
            truthy (if truthy (get_field fields "headers")
                    then get_field fields "headers"
                    else get_field fields "body") = true).
  { destruct (truthy (get_field fields "headers")) eqn:Hh;
      [exact Hh|exact Hreq]. }
  rewrite Hitems, Hdata. cbn [negb orb].
  destruct ids as [|id ids].
  - assert (t2 = [] /\ w3 = w2) as [-> ->].
    { cbn in Hbatches. injection Hbatches as _ <- <-. split; reflexivity. }
    eexists.
    eapply (run_bind_ok _ _ w toks [] w); [reflexivity|]. cbv beta.
    match goal with |- _ = (_, ?e :: ?l, _) =>
      change (e :: l) with ([e] ++ l) end.
    eapply run_bind_ok; [apply try_log_run|]. cbv beta.
    erewrite with_client_ext by (intros; symmetry; apply run_bind_assoc).
    eapply with_client_run; [exact Hconn|].
    eapply run_bind_ok; [exact Hsession|]. reflexivity.
  - destruct (mapM (build_message folder (get_field fields "headers")
                                  (get_field fields "body") resp)
                   (id :: ids)) as [msgs|e] eqn:Hbuild.
    + eexists.
      eapply (run_bind_ok _ _ w toks [] w); [reflexivity|]. cbv beta.
      match goal with |- _ = (_, ?e :: ?l, _) =>
        change (e :: l) with ([e] ++ l) end.
      eapply run_bind_ok; [apply try_log_run|]. cbv beta.
      erewrite with_client_ext by (intros; symmetry; apply run_bind_assoc).
      eapply with_client_run; [exact Hconn|].
      eapply run_bind_ok; [exact Hsession|].
      rewrite bool_decide_false by discriminate.
      rewrite <- (app_nil_r t2).
      eapply run_bind_ok; [exact Hbatches|].
      rewrite Hbuild. reflexivity.
    + eexists.
      eapply (run_bind_ok _ _ w toks [] w); [reflexivity|]. cbv beta.
      match goal with |- _ = (_, ?e :: ?l, _) =>
        change (e :: l) with ([e] ++ l) end.
      eapply run_bind_ok; [apply try_log_run|]. cbv beta.
      erewrite with_client_ext by (intros; symmetry; apply run_bind_assoc).
      eapply with_client_run; [exact Hconn|].
      eapply run_bind_ok; [exact Hsession|].
      rewrite bool_decide_false by discriminate.
      rewrite <- (app_nil_r t2).
      eapply run_bind_ok; [exact Hbatches|].
      rewrite Hbuild. reflexivity.
Qed.

(** C6.  When [headers] or [body] is requested and the session and the
    fetch calls succeed, the calls of [search] after the search call
    ([t2]) are one fetch per batch, the batches being the consecutive
    slices of at most 50 of the matching ids, with a pause of 0.5 between
    two fetches and none after the last; for 120 ids these are three
    fetches of 50, 50 and 20 ids and two pauses. *)
Theorem C6_batched_fetch_with_pauses
  (folder : string) (criteria : value) (fields : option dict)
  (toks : list value) (ids : list Z) (w w1 w2 : World) (t1 : list event) :
  let search_criteria := [VStr "charset"; VStr "UTF-8"] ++ toks in
  let connect := EConnect (IMAP_SERVER cfg) (IMAP_PORT cfg)
                          (negb (IMAP_USE_STARTTLS cfg)) in
  let t2 := calls (fetch_batches ids ["RFC822"] w2) in
  dsl_to_search criteria = Ok toks ->
  imap_connect (IMAP_SERVER cfg) (IMAP_PORT cfg)
               (negb (IMAP_USE_STARTTLS cfg)) (logged search_criteria w)
    = (Ok tt, w1) ->
  (enter_folder cfg folder;; client_search search_criteria) w1
    = (Ok ids, t1, w2) ->
  truthy (get_field fields "headers") || truthy (get_field fields "body")
    = true ->
  is_ok (outcome (fetch_batches ids ["RFC822"] w2)) = true ->
  calls (search cfg folder criteria fields w) =
    ELogMessage "debug" search_criteria :: connect
      :: (t1 ++ t2) ++ [ELogout]
  /\ t2 = paced (map (fun b => EFetch b ["RFC822"]) (batches ids))
  /\ concat (batches ids) = ids
  /\ Forall (fun b => 0 < length b <= 50) (batches ids)
  /\ length (List.filter is_fetch t2) = length (batches ids)
  /\ length (List.filter is_sleep t2) = length (batches ids) - 1
  /\ last t2 = (fun b => EFetch b ["RFC822"]) <$> last (batches ids)
  /\ (length ids = 120 ->
      map length (batches ids) = [50; 50; 20]
      /\ List.filter is_sleep t2 = [ESleep (1 # 2); ESleep (1 # 2)]).
Proof.
  cbv zeta. intros Hcompile Hconn Hsession Hreq Hok.
  destruct (fetch_batches ids ["RFC822"] w2) as [[[resp|e] t2] w3]
    eqn:Hbatches; [|discriminate Hok].
  clear Hok. change (calls (Ok resp, t2, w3)) with t2.
  destruct (search_run_batches folder criteria fields toks ids resp
              w w1 w2 w3 t1 t2 Hcompile Hconn Hsession Hreq Hbatches)
    as [r Hrun].
  pose proof (fetch_batches_calls ids ["RFC822"] w2 resp t2 w3 Hbatches)
    as Ht2.
  assert (Hall : Forall (fun c => is_fetch c = true)
                   (map (fun b => EFetch b ["RFC822"]) (batches ids))).
  { generalize (batches ids). intros bs.
    induction bs; cbn [map]; constructor; [reflexivity|assumption]. }
  destruct (paced_counts _ Hall) as (Hf & Hs & Hl).
  rewrite <- Ht2, length_map in Hf, Hs. rewrite <- Ht2 in Hl.
  split; [rewrite Hrun; reflexivity|].
  split; [exact Ht2|].
  split; [apply chunks_concat; [unfold BATCH_SIZE; lia|lia]|].
  split; [apply (chunks_bounds (length ids) BATCH_SIZE ids);
          unfold BATCH_SIZE; lia|].
  split; [exact Hf|]. split; [exact Hs|].
  split; [rewrite Hl; apply fmap_last|].
  intros Hlen.
  assert (Hsizes : map length (batches ids) = [50; 50; 20]).
  { unfold batches. rewrite chunks_sizes, Hlen. reflexivity. }
  split; [exact Hsizes|].
  rewrite Ht2.
  destruct (batches ids) as [|b1 [|b2 [|b3 [|b4 bs]]]]; try discriminate.
  reflexivity.
Qed.

End SearchBatches.

(** ** The claims at concrete requests, on the in-memory server *)

Lemma C3_witness :
  fetch test_config (["1@INBOX"] ++ "42@INBOX" :: ["2@INBOX"])
        (inbox (numbered 2)) =
    (Raise KeyError,
     [EConnect "imap.example.com" 993 true; ELogin "user" "secret";
      ESelectFolder "INBOX"; EFetch [1] ["RFC822"]; ELogout;
      EConnect "imap.example.com" 993 true; ELogin "user" "secret";
      ESelectFolder "INBOX"; EFetch [42] ["RFC822"]; ELogout],
     inbox (numbered 2)).
Proof.
  pose proof (C3_missing_id_aborts_fetch
                (transport := mem_server) (em := RefEmail.ref_email)
                test_config ["1@INBOX"] ["2@INBOX"] "42@INBOX" "42" "INBOX" 42
                (inbox (numbered 2)) _ _ _ _ _ _ _ _
                ltac:(vm_compute; reflexivity)
                eq_refl
                ltac:(vm_compute; reflexivity)
                ltac:(vm_compute; reflexivity)
                eq_refl
                ltac:(vm_compute; reflexivity)
                ltac:(vm_compute; reflexivity)) as Hrun.
  rewrite Hrun. vm_compute. reflexivity.
Defined.

Lemma C5_witness :
  let r := search test_config "INBOX" (VDict [("from", VStr "test@example.com")])
                  None (inbox (numbered 3)) in
  outcome r = Ok (VDict [("messages", VList [])])
  /\ Forall (fun e => is_fetch e = false) (calls r).
Proof.
  cbv zeta.
  pose proof (C5_search_short_circuit
                (transport := mem_server) (dt := RefDatetime.ref_datetime)
                (em := RefEmail.ref_email) test_config "INBOX"
                (VDict [("from", VStr "test@example.com")]) None
                (inbox (numbered 3))
                [VStr "FROM"; VStr "test@example.com"] [1; 2; 3]%Z
                _ _ eq_refl
                ltac:(vm_compute; reflexivity)
                (or_introl (conj eq_refl eq_refl))) as [Hrun Hcalls].
  rewrite Hrun. split; [reflexivity|exact Hcalls].
Defined.

Lemma C6_witness :
  let ids := map Z.of_nat (seq 1 120) in
  let r := search test_config "INBOX" (VDict [("subject", VStr "test")])
                  (Some [("headers", VBool true); ("body", VBool true)])
                  (inbox (numbered 120)) in
  map length (batches ids) = [50; 50; 20]%nat
  /\ List.filter (fun e => is_fetch e || is_sleep e) (calls r) =
       [EFetch (take 50 ids) ["RFC822"]; ESleep (1 # 2);
        EFetch (take 50 (drop 50 ids)) ["RFC822"]; ESleep (1 # 2);
        EFetch (drop 100 ids) ["RFC822"]].
Proof.
  cbv zeta.
  pose proof (C6_batched_fetch_with_pauses
                (transport := mem_server) (dt := RefDatetime.ref_datetime)
                (em := RefEmail.ref_email) test_config "INBOX"
                (VDict [("subject", VStr "test")])
                (Some [("headers", VBool true); ("body", VBool true)])
                [VStr "SUBJECT"; VStr "test"] (map Z.of_nat (seq 1 120))
                (inbox (numbered 120)) _ _ _
                eq_refl
                ltac:(vm_compute; reflexivity)
                ltac:(vm_compute; reflexivity)
                eq_refl
                ltac:(vm_compute; reflexivity))
    as (Hcalls & _ & _ & _ & _ & _ & _ & H120).
  split; [apply H120; reflexivity|].
  rewrite Hcalls. vm_compute. reflexivity.
Defined.

(** C9, as stated, fails: ["2023-1-5"] is not of the form YYYY-MM-DD, yet
    [strptime] reads it as the 5th of January 2023, so the criteria
    compile and the request goes to the server. *)
Lemma C9_counterexample :
  let criteria := VDict [("since", VStr "2023-1-5")] in
  let r := search test_config "INBOX" criteria (Some [("body", VBool true)])
                  (inbox (numbered 3)) in
  ymd_form "2023-1-5" = false
  /\ dsl_to_search criteria = Ok [VStr "SINCE"; VStr "05-Jan-2023"]
  /\ is_ok (outcome r) = true
  /\ calls r =
       [ELogMessage "debug"
          [VStr "charset"; VStr "UTF-8"; VStr "SINCE"; VStr "05-Jan-2023"];
        EConnect "imap.example.com" 993 true; ELogin "user" "secret";
        ESelectFolder "INBOX";
        ESearch [VStr "charset"; VStr "UTF-8"; VStr "SINCE";
                 VStr "05-Jan-2023"];
        EFetch [1%Z; 2%Z; 3%Z] ["RFC822"]; ELogout].
Proof. cbv zeta. repeat split; vm_compute; reflexivity. Qed.

Lemma C9_witness :
  let criteria := VDict [("from", VStr "a@example.com");
                         ("or", VList [VDict [("since", VStr "2023-02-30")];
                                       VDict [("to", VStr "b")]])] in
  rejected_date criteria
  /\ exists e,
       search test_config "INBOX" criteria
              (Some [("body", VBool true)]) (inbox (numbered 3)) =
       (Raise e, [], inbox (numbered 3)).
Proof.
  cbv zeta.
  assert (Hbad : rejected_date
                   (VDict [("from", VStr "a@example.com");
                           ("or", VList [VDict [("since", VStr "2023-02-30")];
                                         VDict [("to", VStr "b")]])])).
  { eapply rejected_in_or; [reflexivity|left; reflexivity|].
    eapply rejected_here with (key := "since") (s := "2023-02-30");
      [left; reflexivity|left; reflexivity|reflexivity]. }
  split; [exact Hbad|].
  exact (C9_rejected_date_fails_before_network test_config "INBOX" _
           (Some [("body", VBool true)]) (inbox (numbered 3)) Hbad).
Defined.

(** * Further properties of the query compiler *)

Section CompilerMore.
Context {dt : Datetime}.

Lemma regular_conditions_app (a b : dict) :
  regular_conditions (a ++ b) =
    (ra ← regular_conditions a; rb ← regular_conditions b; Ok (ra ++ rb)).
Proof.
  induction a as [|[k v] a IH].
  - cbn. destruct (regular_conditions b); reflexivity.
  - cbn [app regular_conditions]. rewrite IH.
    destruct (negb (str_in k ["or"; "not"])).
    + destruct (parse_condition [(k, v)]) as [r|]; [|reflexivity].
      cbn [mbind result_bind].
      destruct (regular_conditions a) as [ra|]; [|reflexivity].
      cbn [mbind result_bind].
      destruct (regular_conditions b) as [rb|]; [|reflexivity].
      cbn [mbind result_bind]. rewrite app_assoc. reflexivity.
    + reflexivity.
Qed.

Lemma dict_get_app key (a b : dict) :
  dict_get key (a ++ b) =
    match dict_get key a with
    | Some v => Some v
    | None => dict_get key b
    end.
Proof.
  induction a as [|[k v] a IH]; [reflexivity|].
  cbn [app dict_get]. destruct (String.eqb k key); [reflexivity|exact IH].
Qed.

Lemma mapM_ok_iff {A B} (f : A -> result B) (l : list A) :
  (exists ys, mapM f l = Ok ys) <-> (forall x, In x l -> exists y, f x = Ok y).
Proof.
  induction l as [|x l IH].
  - split; [intros _ x []|intros _; exists []; reflexivity].
  - rewrite mapM_cons. split.
    + intros [ys Hys] z [<-|Hz].
      * destruct (f x); [eauto|discriminate].
      * destruct (f x); [|discriminate]. cbn [mbind result_bind] in Hys.
        destruct (mapM f l) as [k|]; [|discriminate].
        apply IH; [eauto|exact Hz].
    + intros Hall. destruct (Hall x (or_introl eq_refl)) as [y ->].
      cbn [mbind result_bind].
      destruct (proj2 IH (fun z Hz => Hall z (or_intror Hz))) as [k ->].
      eexists. reflexivity.
Qed.

Lemma leaf_pair_ok_iff key v :
  (exists toks, leaf_pair key v = Ok toks) <->
  (In key ["since"; "before"] ->
   exists s d, v = VStr s /\ strptime_Ymd s = Some d).
Proof.
  unfold leaf_pair, format_date.
  destruct (String.eqb_spec key "from") as [->|Hfrom].
  { split; [intros _ [|[|[]]]; discriminate|eauto]. }
  destruct (String.eqb_spec key "to") as [->|Hto].
  { split; [intros _ [|[|[]]]; discriminate|eauto]. }
  destruct (String.eqb_spec key "cc") as [->|Hcc].
  { split; [intros _ [|[|[]]]; discriminate|eauto]. }
  destruct (String.eqb_spec key "subject") as [->|Hsubject].
  { split; [intros _ [|[|[]]]; discriminate|eauto]. }
  assert (Hdate : (exists toks : string,
                     match v with
                     | VStr s => match strptime_Ymd s with
                                 | Some d => Ok (strftime_dbY d)
                                 | None => Raise ValueError
                                 end
                     | _ => Raise TypeError
                     end = Ok toks) <->
                  exists s d, v = VStr s /\ strptime_Ymd s = Some d).
  { split.
    - intros [t Ht]. destruct v; try discriminate.
      destruct (strptime_Ymd s) eqn:Hs; [eauto|discriminate].
    - intros (s & d & -> & ->). eauto. }
  destruct (String.eqb_spec key "since") as [->|Hsince].
  { split.
    - intros [toks Ht] _. apply Hdate.
      match type of Ht with ?m ≫= _ = _ => destruct m end;
        [eauto|discriminate].
    - intros Hv. apply Hdate in Hv as [t ->]; [eauto|left; reflexivity]. }
  destruct (String.eqb_spec key "before") as [->|Hbefore].
  { split.
    - intros [toks Ht] _. apply Hdate.
      match type of Ht with ?m ≫= _ = _ => destruct m end;
        [eauto|discriminate].
    - intros Hv. apply Hdate in Hv as [t ->]; [eauto|right; left; reflexivity]. }
  split; [|eauto]. intros _ [<-|[<-|[]]]; congruence.
Qed.

Lemma regular_conditions_ok_iff (d : dict) :
  (exists leaf, regular_conditions d = Ok leaf) <->
  (forall key v, In (key, v) d -> In key ["since"; "before"] ->
                 exists s t, v = VStr s /\ strptime_Ymd s = Some t).
Proof.
  induction d as [|[k v] d IH].
  - split; [intros _ ? ? []|intros _; exists []; reflexivity].
  - cbn [regular_conditions]. split.
    + intros [leaf Hleaf] key w [[= <- <-]|Hin] Hkey.
      * assert (Hreg : negb (str_in k ["or"; "not"]) = true)
          by (destruct Hkey as [<-|[<-|[]]]; reflexivity).
        rewrite Hreg, parse_condition_single in Hleaf.
        apply (proj1 (leaf_pair_ok_iff k v)); [|exact Hkey].
        destruct (leaf_pair k v); [eauto|discriminate].
      * refine (proj1 IH _ key w Hin Hkey).
        destruct (negb (str_in k ["or"; "not"])); [|eauto].
        destruct (parse_condition [(k, v)]); [|discriminate].
        cbn [mbind result_bind] in Hleaf.
        destruct (regular_conditions d); [eauto|discriminate].
    + intros Hall.
      destruct (proj2 IH (fun key w Hin => Hall key w (or_intror Hin)))
        as [rs ->].
      destruct (negb (str_in k ["or"; "not"])); [|eauto].
      rewrite parse_condition_single.
      destruct (proj2 (leaf_pair_ok_iff k v)
                  (Hall k v (or_introl eq_refl))) as [r ->].
      eexists. reflexivity.
Qed.

(** X1.  A dict compiles exactly when every [since]/[before] item holds a
    string that [strptime] accepts and every element of a [not] list and of
    an [or] list compiles. *)
Theorem X1_compile_succeeds_iff (d : dict) :
  (exists toks, dsl_to_search (VDict d) = Ok toks) <->
  (forall key v, In (key, v) d -> In key ["since"; "before"] ->
                 exists s t, v = VStr s /\ strptime_Ymd s = Some t)
  /\ (forall l c, dict_get "not" d = Some (VList l) -> In c l ->
                  exists toks, parse_criteria c = Ok toks)
  /\ (forall l c, dict_get "or" d = Some (VList l) -> In c l ->
                  exists toks, parse_criteria c = Ok toks).
Proof.
  rewrite dsl_to_search_eq, parse_criteria_steps.
  rewrite <- regular_conditions_ok_iff. split.
  - intros [toks Htoks].
    destruct (regular_conditions d) as [leaf|]; [|discriminate].
    cbn [mbind result_bind] in Htoks. split; [eauto|].
    destruct (dict_get "not" d) as [[| | | |ln|]|];
      cbn [mbind result_bind] in Htoks.
    5:{ destruct (mapM parse_criteria ln) as [gs|] eqn:Hn; [|discriminate].
        cbn [mbind result_bind] in Htoks. split.
        - intros l c [= <-] Hc.
          apply (proj1 (mapM_ok_iff parse_criteria ln)); eauto.
        - intros l c Hor Hc. rewrite Hor in Htoks.
          destruct (mapM parse_criteria l) as [os|] eqn:Ho; [|discriminate].
          apply (proj1 (mapM_ok_iff parse_criteria l)); eauto. }
    all: (split; [intros ? ? [=]|]; intros l c Hor Hc; rewrite Hor in Htoks;
          destruct (mapM parse_criteria l) as [os|] eqn:Ho; [|discriminate];
          apply (proj1 (mapM_ok_iff parse_criteria l)); eauto).
  - intros ([leaf ->] & Hnot & Hor). cbn [mbind result_bind].
    assert (Hn : exists res,
               match dict_get "not" d with
               | Some (VList l) =>
                   groups ← mapM parse_criteria l;
                   Ok (extend_not leaf (concat groups))
               | _ => Ok leaf
               end = Ok res).
    { destruct (dict_get "not" d) as [[| | | |ln|]|]; eauto.
      destruct (proj2 (mapM_ok_iff parse_criteria ln)
                  (fun c Hc => Hnot ln c eq_refl Hc)) as [gs ->]. eauto. }
    destruct Hn as [res ->]. cbn [mbind result_bind].
    destruct (dict_get "or" d) as [[| | | |lo|]|]; eauto.
    destruct (proj2 (mapM_ok_iff parse_criteria lo)
                (fun c Hc => Hor lo c eq_refl Hc)) as [os ->]. eauto.
Qed.

Lemma mapM_stops {A B} (f : A -> result B) (pre post : list A) (x : A)
  (ys : list B) (e : exn) :
  mapM f pre = Ok ys -> f x = Raise e -> mapM f (pre ++ x :: post) = Raise e.
Proof.
  revert ys. induction pre as [|y pre IH]; intros ys Hpre Hx.
  - cbn [app]. rewrite mapM_cons, Hx. reflexivity.
  - cbn [app]. rewrite mapM_cons in Hpre |- *.
    destruct (f y) as [b|]; [|discriminate]. cbn [mbind result_bind] in *.
    destruct (mapM f pre) as [bs|] eqn:Hbs; [|discriminate].
    rewrite (IH bs eq_refl Hx). reflexivity.
Qed.

(** X2.  An element of a [not] or [or] list that is not a dict raises
    [AttributeError] when the compiler reaches it: the leaf items compile,
    the elements before it in its list compile and, for an element of the
    [or] list, the [not] list compiles. *)
Theorem X2_non_dict_raises (d : dict) (pre post : list value) (c : value)
  (leaf : list value) (groups : list (list value)) :
  (forall d', c <> VDict d') ->
  regular_conditions d = Ok leaf ->
  mapM parse_criteria pre = Ok groups ->
  (dict_get "not" d = Some (VList (pre ++ c :: post)) ->
   parse_criteria (VDict d) = Raise AttributeError
   /\ dsl_to_search (VDict d) = Raise AttributeError)
  /\ (dict_get "or" d = Some (VList (pre ++ c :: post)) ->
      is_ok (not_group d) = true ->
      parse_criteria (VDict d) = Raise AttributeError
      /\ dsl_to_search (VDict d) = Raise AttributeError).
Proof.
  intros Hc Hleaf Hpre.
  assert (Hraise : parse_criteria c = Raise AttributeError)
    by (destruct c; try reflexivity; destruct (Hc d0); reflexivity).
  pose proof (mapM_stops parse_criteria pre post c groups AttributeError
                Hpre Hraise) as Hstop.
  split.
  - intros Hnot.
    assert (Hp : parse_criteria (VDict d) = Raise AttributeError).
    { rewrite parse_criteria_shape, Hleaf. unfold not_group.
      rewrite Hnot, Hstop. reflexivity. }
    split; [exact Hp|]. rewrite dsl_to_search_eq, Hp. reflexivity.
  - intros Hor Hng.
    assert (Hp : parse_criteria (VDict d) = Raise AttributeError).
    { rewrite parse_criteria_shape, Hleaf. cbn [mbind result_bind].
      destruct (not_group d) as [ng|]; [|discriminate Hng].
      cbn [mbind result_bind]. unfold or_conditions.
      rewrite Hor, Hstop. reflexivity. }
    split; [exact Hp|]. rewrite dsl_to_search_eq, Hp. reflexivity.
Qed.

(** X3.  An item whose key is none of the eight known keys is ignored,
    wherever it stands among the items and whatever its value. *)
Theorem X3_unknown_key_ignored (d1 d2 : dict) (key : string) (v : value) :
  ~ In key (leaf_keys ++ ["or"; "not"]) ->
  dsl_to_search (VDict (d1 ++ (key, v) :: d2)) = dsl_to_search (VDict (d1 ++ d2)).
Proof.
  intros Hkey.
  assert (Hne : forall k, In k (leaf_keys ++ ["or"; "not"]) ->
                  String.eqb key k = false).
  { intros k Hk. destruct (String.eqb_spec key k) as [->|]; [|reflexivity].
    contradiction. }
  assert (Hget : forall k, In k (leaf_keys ++ ["or"; "not"]) ->
                   dict_get k (d1 ++ (key, v) :: d2) = dict_get k (d1 ++ d2)).
  { intros k Hk. rewrite !dict_get_app. cbn [dict_get].
    rewrite (Hne k Hk). reflexivity. }
  assert (Hreg : regular_conditions (d1 ++ (key, v) :: d2) =
                 regular_conditions (d1 ++ d2)).
  { rewrite !regular_conditions_app. cbn [regular_conditions].
    rewrite parse_condition_single. unfold leaf_pair.
    rewrite !Hne by (cbn; tauto).
    destruct (negb (str_in key ["or"; "not"])); cbn [mbind result_bind];
      [|reflexivity].
    destruct (regular_conditions d1); [|reflexivity].
    cbn [mbind result_bind]. destruct (regular_conditions d2); reflexivity. }
  rewrite !dsl_to_search_eq, !parse_criteria_steps, Hreg.
  rewrite !(Hget "not"), !(Hget "or") by (cbn; tauto). reflexivity.
Qed.

(** X4.  The sub-expressions of an [or] list with fewer than two elements
    are compiled, so that an error in one of them is raised, but their
    tokens are dropped: the result is the leaf tokens and the [not] group. *)
Theorem X4_short_or_is_dropped (d : dict) (l : list value) :
  dict_get "or" d = Some (VList l) -> (length l < 2)%nat ->
  parse_criteria (VDict d) =
    (leaf ← regular_conditions d;
     ng ← not_group d;
     _ ← mapM parse_criteria l;
     Ok (leaf ++ ng)).
Proof.
  intros Hor Hlen. rewrite parse_criteria_steps, Hor.
  destruct (regular_conditions d) as [leaf|]; [|reflexivity].
  cbn [mbind result_bind]. rewrite not_step_eq.
  destruct (not_group d) as [ng|]; [|reflexivity].
  cbn [mbind result_bind].
  destruct (mapM parse_criteria l) as [ocs|] eqn:Hm; [|reflexivity].
  cbn [mbind result_bind]. apply mapM_length in Hm.
  destruct ocs as [|c0 [|c1 more]]; cbn [length] in Hm; try lia; reflexivity.
Qed.

(** X5.  A [not] or [or] whose value is not a list is ignored altogether,
    whatever it holds: the result is that of the leaf items alone. *)
Theorem X5_non_list_operators_ignored (d : dict) :
  (forall l, dict_get "not" d <> Some (VList l)) ->
  (forall l, dict_get "or" d <> Some (VList l)) ->
  dsl_to_search (VDict d) =
    (leaf ← regular_conditions d; Ok (all_if_empty leaf)).
Proof.
  intros Hnot Hor. rewrite dsl_to_search_eq, parse_criteria_steps.
  destruct (regular_conditions d) as [leaf|]; [|reflexivity].
  cbn [mbind result_bind].
  destruct (dict_get "not" d) as [[| | | |ln|]|]; cbn [mbind result_bind];
    try (destruct (dict_get "or" d) as [[| | | |lo|]|]; try reflexivity;
         destruct (Hor lo); reflexivity).
  destruct (Hnot ln). reflexivity.
Qed.

(** X6.  With [n >= 2] sub-expressions in the [or] list, the tokens are
    [n - 2] OR opcodes, the leaf tokens, the [not] group, one more OR and
    the tokens of the sub-expressions in their order. *)
Theorem X6_or_list_shape (d : dict) (l : list value)
  (leaf ng : list value) (groups : list (list value)) :
  dict_get "or" d = Some (VList l) -> (2 <= length l)%nat ->
  regular_conditions d = Ok leaf ->
  not_group d = Ok ng ->
  mapM parse_criteria l = Ok groups ->
  parse_criteria (VDict d) =
    Ok (repeat (VStr "OR") (length l - 2)
          ++ leaf ++ ng ++ [VStr "OR"] ++ concat groups).
Proof.
  intros Hor Hlen Hleaf Hng Hgroups.
  rewrite parse_criteria_steps, Hleaf. cbn [mbind result_bind].
  rewrite not_step_eq, Hng. cbn [mbind result_bind].
  rewrite Hor, Hgroups. cbn [mbind result_bind].
  pose proof (mapM_length _ _ _ Hgroups) as Hl.
  destruct groups as [|c0 [|c1 more]]; cbn [length] in Hl; try lia.
  rewrite combine_or_shape, <- Hl. cbn [length concat].
  replace (S (S (length more)) - 2)%nat with (length more) by lia.
  rewrite <- !app_assoc. reflexivity.
Qed.


End CompilerMore.

Lemma X2_witness :
  dsl_to_search
    (VDict [("from", VStr "a");
            ("not", VList [VDict [("cc", VStr "n")]]);
            ("or", VList ([VDict [("to", VStr "x")]]
                            ++ VStr "to:y" :: [VDict [("since", VStr "?")]]))])
  = Raise AttributeError.
Proof.
  refine (proj2 (proj2 (X2_non_dict_raises
            [("from", VStr "a");
             ("not", VList [VDict [("cc", VStr "n")]]);
             ("or", VList ([VDict [("to", VStr "x")]]
                             ++ VStr "to:y" :: [VDict [("since", VStr "?")]]))]
            [VDict [("to", VStr "x")]] [VDict [("since", VStr "?")]]
            (VStr "to:y") [VStr "FROM"; VStr "a"] [[VStr "TO"; VStr "x"]]
            _ eq_refl eq_refl) eq_refl eq_refl)).
  discriminate.
Defined.

Lemma X3_witness :
  dsl_to_search (VDict ([("from", VStr "a")] ++ ("limit", VInt 5)
                          :: [("subject", VStr "b")])) =
  dsl_to_search (VDict ([("from", VStr "a")] ++ [("subject", VStr "b")])).
Proof.
  apply (X3_unknown_key_ignored [("from", VStr "a")] [("subject", VStr "b")]
           "limit" (VInt 5)).
  cbn. intros Hin.
  repeat (destruct Hin as [Hin|Hin]; [discriminate|]). contradiction.
Defined.

Lemma X4_witness :
  let d := [("from", VStr "a"); ("or", VList [VDict [("to", VStr "b")]])] in
  dsl_to_search (VDict d) = Ok [VStr "FROM"; VStr "a"]
  /\ parse_criteria (VDict d) =
       (leaf ← regular_conditions d;
        ng ← not_group d;
        _ ← mapM parse_criteria [VDict [("to", VStr "b")]];
        Ok (leaf ++ ng)).
Proof.
  cbv zeta. split; [reflexivity|].
  apply (X4_short_or_is_dropped
           [("from", VStr "a"); ("or", VList [VDict [("to", VStr "b")]])]
           [VDict [("to", VStr "b")]] eq_refl).
  cbn. lia.
Defined.

Lemma X5_witness :
  let d := [("subject", VStr "s");
            ("not", VDict [("since", VStr "not a date")])] in
  dsl_to_search (VDict d) = Ok [VStr "SUBJECT"; VStr "s"].
Proof.
  cbv zeta.
  rewrite (X5_non_list_operators_ignored
             [("subject", VStr "s");
              ("not", VDict [("since", VStr "not a date")])]).
  - reflexivity.
  - intros l. cbn. discriminate.
  - intros l. cbn. discriminate.
Defined.

Lemma X6_witness :
  let d := [("from", VStr "a");
            ("not", VList [VDict [("cc", VStr "n")]]);
            ("or", VList [VDict [("to", VStr "x")]; VDict [("to", VStr "y")];
                          VDict [("to", VStr "z")]; VDict []])] in
  parse_criteria (VDict d) =
    Ok [VStr "OR"; VStr "OR"; VStr "FROM"; VStr "a";
        VStr "NOT"; VList [VStr "CC"; VStr "n"]; VStr "OR";
        VStr "TO"; VStr "x"; VStr "TO"; VStr "y"; VStr "TO"; VStr "z"].
Proof.
  cbv zeta.
  refine (X6_or_list_shape
            [("from", VStr "a");
             ("not", VList [VDict [("cc", VStr "n")]]);
             ("or", VList [VDict [("to", VStr "x")]; VDict [("to", VStr "y")];
                           VDict [("to", VStr "z")]; VDict []])]
            _ [VStr "FROM"; VStr "a"]
            [VStr "NOT"; VList [VStr "CC"; VStr "n"]]
            [[VStr "TO"; VStr "x"]; [VStr "TO"; VStr "y"];
             [VStr "TO"; VStr "z"]; []]
            eq_refl _ eq_refl eq_refl eq_refl).
  cbn. lia.
Defined.


(** * Further properties of the message reconstructor *)

Section BodyMore.
Context {em : Email}.

(** The loop when the plain-text candidate does not decode. *)
Lemma body_loop_raises (parts : list message) :
  forall text_part html_part e,
    decoded (next_candidate "text/plain" text_part parts) = Raise e ->
    exists e', foldlM body_step (text_part, html_part) parts = Raise e'.
Proof.
  induction parts as [|p parts IH]; intros text_part html_part e Hdec.
  - destruct text_part; discriminate.
  - cbn [foldlM]. set (loop := foldlM body_step). unfold body_step.
    unfold next_candidate in Hdec. cbn [List.find] in Hdec.
    unfold is_candidate in Hdec at 1.
    destruct (is_attachment p).
    { cbn [negb andb mbind result_bind] in Hdec |- *. subst loop.
      apply (IH text_part html_part e). destruct text_part; exact Hdec. }
    cbn [negb andb] in Hdec |- *.
    destruct (String.eqb_spec (content_type (info p)) "text/plain") as [Hct|Hct].
    + destruct text_part as [t|]; [discriminate|].
      rewrite bool_decide_true by reflexivity. cbn [andb decoded] in Hdec |- *.
      destruct (decode_part p); [discriminate|]. eauto.
    + cbn [andb].
      destruct (String.eqb (content_type (info p)) "text/html"
                && bool_decide (html_part = None)).
      * destruct (decode_part p) as [h|]; [|eauto].
        cbn [mbind result_bind]. subst loop.
        apply (IH text_part (Some h) e). destruct text_part; exact Hdec.
      * cbn [mbind result_bind]. subst loop.
        apply (IH text_part html_part e). destruct text_part; exact Hdec.
Qed.

Lemma body_returns_iff (msg : message) :
  (exists body, get_email_body msg = Ok body) <->
  (exists text, decoded (first_part "text/plain" msg) = Ok text)
  /\ (exists html, decoded (first_part "text/html" msg) = Ok html).
Proof.
  split.
  - intros [body Hbody].
    destruct (decoded (first_part "text/plain" msg)) as [text|e] eqn:Htext.
    + split; [eauto|].
      rewrite (get_email_body_eq msg text Htext) in Hbody.
      destruct (decoded (first_part "text/html" msg)); [eauto|discriminate].
    + destruct (body_loop_raises (walk msg) None None e Htext) as [e' He'].
      unfold get_email_body in Hbody. rewrite He' in Hbody. discriminate.
  - intros [[text Htext] [html Hhtml]].
    rewrite (get_email_body_eq msg text Htext), Hhtml. eexists. reflexivity.
Qed.

(** X8.  [get_email_body] returns a body exactly when the first
    non-attachment text/plain part and the first non-attachment text/html
    part, as far as they exist, both decode: an html part with an unknown
    charset makes it raise even when a plain text is there. *)
Theorem X8_body_returns_iff (msg : message) :
  (exists body, get_email_body msg = Ok body) <->
  (exists text, decoded (first_part "text/plain" msg) = Ok text)
  /\ (exists html, decoded (first_part "text/html" msg) = Ok html).
Proof. exact (body_returns_iff msg). Qed.

(** X9.  A non-empty body is always the decoded text of a part of the
    message that is not an attachment and whose type is text/plain or
    text/html. *)
Theorem X9_body_comes_from_a_text_part (msg : message) (body : string) :
  get_email_body msg = Ok body -> body <> "" ->
  exists part,
    In part (walk msg)
    /\ is_attachment part = false
    /\ (content_type (info part) = "text/plain"
        \/ content_type (info part) = "text/html")
    /\ decode_part part = Ok body.
Proof.
  intros Hbody Hne.
  destruct (proj1 (body_returns_iff msg) (ex_intro _ body Hbody))
    as [[text Htext] [html Hhtml]].
  rewrite (get_email_body_eq msg text Htext), Hhtml in Hbody.
  cbn [mbind result_bind] in Hbody. injection Hbody as Hbody.
  assert (Hfound : forall ct p t,
             first_part ct msg = Some p -> decode_part p = Ok t ->
             In p (walk msg) /\ is_attachment p = false
             /\ content_type (info p) = ct).
  { intros ct p t Hp _. unfold first_part in Hp.
    apply find_some in Hp as [Hin Hc]. unfold is_candidate in Hc.
    apply andb_prop in Hc as [Ha Hc]. apply negb_true_iff in Ha.
    apply String.eqb_eq in Hc. auto. }
  assert (Hsome : forall ct t,
             decoded (first_part ct msg) = Ok (Some t) ->
             exists p, first_part ct msg = Some p /\ decode_part p = Ok t).
  { intros ct t Hd. destruct (first_part ct msg) as [p|]; [|discriminate].
    cbn [decoded] in Hd. destruct (decode_part p) eqn:Hp; [|discriminate].
    injection Hd as ->. eauto. }
  destruct text as [[|c t]|].
  - (* the plain text is empty *)
    cbn [or_str String.eqb] in Hbody.
    destruct html as [h|]; [|cbn in Hbody; congruence].
    assert (h = body) as ->.
    { cbn [or_str] in Hbody. destruct (String.eqb_spec h ""); congruence. }
    destruct (Hsome _ _ Hhtml) as (p & Hp & Hd).
    destruct (Hfound _ _ _ Hp Hd) as (Hin & Ha & Hc).
    exists p. auto.
  - cbn [or_str String.eqb] in Hbody. subst body.
    destruct (Hsome _ _ Htext) as (p & Hp & Hd).
    destruct (Hfound _ _ _ Hp Hd) as (Hin & Ha & Hc).
    exists p. auto.
  - cbn [or_str] in Hbody.
    destruct html as [h|]; [|cbn in Hbody; congruence].
    assert (h = body) as ->.
    { cbn [or_str] in Hbody. destruct (String.eqb_spec h ""); congruence. }
    destruct (Hsome _ _ Hhtml) as (p & Hp & Hd).
    destruct (Hfound _ _ _ Hp Hd) as (Hin & Ha & Hc).
    exists p. auto.
Qed.

(** X10.  When every part is an attachment or has another type than
    text/plain and text/html, the body is the empty string and nothing is
    decoded, so that nothing can raise. *)
Theorem X10_no_text_part_gives_empty_body (msg : message) :
  (forall part, In part (walk msg) ->
     is_attachment part = true
     \/ (content_type (info part) <> "text/plain"
         /\ content_type (info part) <> "text/html")) ->
  get_email_body msg = Ok "".
Proof.
  intros Hnone.
  assert (Hfind : forall ct, ct = "text/plain" \/ ct = "text/html" ->
                    first_part ct msg = None).
  { intros ct Hct. unfold first_part.
    destruct (List.find (is_candidate ct) (walk msg)) as [p|] eqn:Hp;
      [|reflexivity].
    apply find_some in Hp as [Hin Hc]. unfold is_candidate in Hc.
    apply andb_prop in Hc as [Ha Hc]. apply negb_true_iff in Ha.
    apply String.eqb_eq in Hc.
    destruct (Hnone p Hin) as [Hatt|[Hp1 Hp2]]; [congruence|].
    destruct Hct; congruence. }
  rewrite (get_email_body_eq msg None).
  - rewrite Hfind by (right; reflexivity). reflexivity.
  - rewrite Hfind by (left; reflexivity). reflexivity.
Qed.

End BodyMore.

(** A message whose html part names a charset that is no codec. *)
Lemma X8_unknown_html_charset_raises :
  get_email_body
    (Multipart
       {| headers := []; content_type := "multipart/alternative";
          content_charset := None |}
       [Leaf {| headers := []; content_type := "text/plain";
                content_charset := None |} (list_byte_of_string "hello");
        Leaf {| headers := []; content_type := "text/html";
                content_charset := Some "x-unknown" |}
             (list_byte_of_string "<p>hello</p>")]) = Raise LookupError.
Proof. reflexivity. Qed.

Lemma X9_witness :
  exists part,
    In part (walk html_before_plain)
    /\ is_attachment part = false
    /\ (content_type (info part) = "text/plain"
        \/ content_type (info part) = "text/html")
    /\ decode_part part = Ok "first".
Proof.
  apply (X9_body_comes_from_a_text_part html_before_plain "first");
    [reflexivity|discriminate].
Defined.

Lemma X10_witness :
  get_email_body
    (Multipart
       {| headers := []; content_type := "multipart/mixed";
          content_charset := None |}
       [Leaf {| headers := [("content-disposition", "ATTACHMENT")];
                content_type := "text/plain";
                content_charset := Some "x-unknown" |}
             (list_byte_of_string "notes");
        Leaf {| headers := []; content_type := "image/png";
                content_charset := None |} []]) = Ok "".
Proof.
  apply X10_no_text_part_gives_empty_body.
  cbn [walk flat_map app In]. intros part Hin.
  repeat (destruct Hin as [<-|Hin]);
    [right; split; discriminate|left; reflexivity
    |right; split; discriminate|contradiction].
Defined.

(** * Message identifiers *)

Section Identifiers.

Lemma split_first_spec (sep : ascii) (s : string) :
  (forall a b,
     split_first sep s = Some (a, b) <->
     s = (a ++ String sep b)%string
     /\ string_forall (fun c => negb (Ascii.eqb c sep)) a = true)
  /\ (split_first sep s = None <->
      string_forall (fun c => negb (Ascii.eqb c sep)) s = true).
Proof.
  induction s as [|c s [IHsome IHnone]].
  - split.
    + intros a b. split; [discriminate|].
      intros [Heq _]. destruct a; discriminate.
    + split; reflexivity.
  - cbn [split_first string_forall].
    destruct (Ascii.eqb_spec c sep) as [->|Hc].
    + split.
      * intros a b. split.
        -- intros [= <- <-]. split; reflexivity.
        -- intros [Heq Ha]. destruct a as [|c' a].
           ++ cbn in Heq. injection Heq as <-. reflexivity.
           ++ cbn in Heq, Ha. injection Heq as <- _.
              rewrite Ascii.eqb_refl in Ha. discriminate.
      * split; discriminate.
    + cbn [negb andb]. split.
      * intros a b. split.
        -- destruct (split_first sep s) as [[a' b']|] eqn:Hs; [|discriminate].
           intros [= <- <-].
           destruct (proj1 (IHsome a' b') eq_refl) as [-> Ha].
           split; [reflexivity|]. cbn [string_forall].
           destruct (Ascii.eqb_spec c sep); [contradiction|]. exact Ha.
        -- intros [Heq Ha]. destruct a as [|c' a].
           ++ cbn in Heq. injection Heq as -> _. contradiction.
           ++ cbn in Heq. injection Heq as <- ->.
              cbn [string_forall] in Ha. apply andb_prop in Ha as [_ Ha].
              rewrite (proj2 (IHsome a b) (conj eq_refl Ha)). reflexivity.
      * rewrite <- IHnone.
        destruct (split_first sep s) as [[a' b']|]; split;
          try discriminate; reflexivity.
Qed.

(** X11.  [split("@", 1)] cuts at the first separator only: a string splits
    into [(a, b)] exactly when it is [a], the separator, [b], with no
    separator in [a]; and it does not split exactly when it has no
    separator. *)
Theorem X11_split_first_spec (sep : ascii) (s : string) :
  (forall a b,
     split_first sep s = Some (a, b) <->
     s = (a ++ String sep b)%string
     /\ string_forall (fun c => negb (Ascii.eqb c sep)) a = true)
  /\ (split_first sep s = None <->
      string_forall (fun c => negb (Ascii.eqb c sep)) s = true).
Proof. exact (split_first_spec sep s). Qed.

Lemma pretty_N_char_code (d : N) :
  (d < 10)%N -> N_of_ascii (pretty_N_char d) = (48 + d)%N.
Proof.
  intros Hd.
  assert (d = 0 \/ d = 1 \/ d = 2 \/ d = 3 \/ d = 4 \/ d = 5 \/ d = 6
          \/ d = 7 \/ d = 8 \/ d = 9)%N as H by lia.
  repeat (destruct H as [->|H]; [reflexivity|]). subst. reflexivity.
Qed.

Lemma pretty_N_char_digit (d : N) : is_digit (pretty_N_char d) = true.
Proof.
  unfold pretty_N_char.
  repeat (match goal with |- context [match ?x with _ => _ end] =>
            destruct x end; try reflexivity).
Qed.

Lemma digits_step (acc : Z) (b : bool) (c : ascii) (s : string) :
  is_digit c = true ->
  PyInt.digits acc b (String c s) =
    PyInt.digits (10 * acc + (Z.of_N (N_of_ascii c) - 48)) true s.
Proof.
  intros Hc. cbn [PyInt.digits].
  destruct (Ascii.eqb_spec c "_") as [->|_]; [discriminate Hc|].
  unfold is_digit in Hc. apply andb_prop in Hc as [Hlo Hhi].
  apply N.leb_le in Hlo. apply N.leb_le in Hhi.
  replace ((48 <=? Z.of_N (N_of_ascii c)) && (Z.of_N (N_of_ascii c) <=? 57))
    with true; [reflexivity|].
  symmetry. apply andb_true_intro. split; apply Z.leb_le; lia.
Qed.

(** Reading back the digits that [pretty] writes. *)
Lemma digits_pretty_N_go (x : N) :
  forall s, (0 < x)%N ->
    PyInt.digits 0 false (pretty_N_go x s) = PyInt.digits (Z.of_N x) true s.
Proof.
  induction (N.lt_wf_0 x) as [x _ IH]. intros s Hx.
  rewrite pretty_N_go_step by exact Hx.
  pose proof (N.mod_lt x 10 ltac:(lia)) as Hmod.
  pose proof (N.div_mod x 10 ltac:(lia)) as Hdiv.
  destruct (N.eq_dec (x `div` 10)%N 0%N) as [Hz|Hnz].
  - rewrite Hz, pretty_N_go_0.
    rewrite digits_step by apply pretty_N_char_digit.
    rewrite pretty_N_char_code by exact Hmod. f_equal. lia.
  - rewrite IH; [|apply N.div_lt; lia|lia].
    rewrite digits_step by apply pretty_N_char_digit.
    rewrite pretty_N_char_code by exact Hmod. f_equal. lia.
Qed.

Lemma pretty_N_go_all_digits (x : N) :
  forall s, string_forall is_digit s = true ->
    string_forall is_digit (pretty_N_go x s) = true.
Proof.
  induction (N.lt_wf_0 x) as [x _ IH]. intros s Hs.
  destruct (N.eq_dec x 0%N) as [->|Hx]; [rewrite pretty_N_go_0; exact Hs|].
  rewrite pretty_N_go_step by lia.
  apply IH; [apply N.div_lt; lia|].
  cbn [string_forall]. rewrite pretty_N_char_digit. exact Hs.
Qed.

Lemma pretty_N_go_nonempty (x : N) s :
  (0 < x)%N -> pretty_N_go x s <> "".
Proof.
  revert s. induction (N.lt_wf_0 x) as [x _ IH]. intros s Hx.
  rewrite pretty_N_go_step by exact Hx.
  destruct (N.eq_dec (x `div` 10)%N 0%N) as [Hz|Hnz].
  - rewrite Hz, pretty_N_go_0. discriminate.
  - assert (Hlt : (x `div` 10 < x)%N) by (apply N.div_lt; lia).
    assert (Hpos : (0 < x `div` 10)%N) by (apply N.neq_0_lt_0; exact Hnz).
    exact (IH _ Hlt _ Hpos).
Qed.

Lemma digit_not_space (c : ascii) :
  is_digit c = true -> PyInt.is_space c = false.
Proof.
  unfold is_digit, PyInt.is_space. intros Hc.
  apply andb_prop in Hc as [Hlo Hhi].
  apply N.leb_le in Hlo. apply N.leb_le in Hhi.
  apply orb_false_intro; [apply N.eqb_neq; lia|].
  apply andb_false_intro2. apply N.leb_gt. lia.
Qed.

Lemma rstrip_digits (s : string) :
  string_forall is_digit s = true -> PyInt.rstrip s = s.
Proof.
  induction s as [|c s IH]; [reflexivity|].
  cbn [string_forall]. intros Hs. apply andb_prop in Hs as [Hc Hs].
  cbn [PyInt.rstrip]. rewrite (IH Hs).
  destruct s; [rewrite (digit_not_space c Hc)|]; reflexivity.
Qed.

Lemma int_of_digits (s : string) (n : Z) :
  string_forall is_digit s = true -> s <> "" ->
  PyInt.digits 0 false s = Some n ->
  PyInt.int_of_str s = Ok n /\ PyInt.int_of_str ("-" ++ s) = Ok (- n).
Proof.
  intros Hs Hne Hd. destruct s as [|c s]; [contradiction|].
  pose proof Hs as Hs'. cbn [string_forall] in Hs'.
  apply andb_prop in Hs' as [Hc _].
  unfold PyInt.int_of_str. split.
  - cbn [PyInt.lstrip]. rewrite (digit_not_space c Hc).
    rewrite (rstrip_digits _ Hs).
    assert (Hsign : c <> "+"%char /\ c <> "-"%char).
    { split; intros ->; discriminate Hc. }
    destruct Hsign as [Hplus Hminus].
    destruct c as [[] [] [] [] [] [] [] []];
      try (rewrite Hd; reflexivity); congruence.
  - assert (Hr : PyInt.rstrip (String "-" (String c s)) =
                 String "-" (String c s)).
    { change (PyInt.rstrip (String "-" (String c s)))
        with (match PyInt.rstrip (String c s) with
              | EmptyString =>
                  if PyInt.is_space "-" then EmptyString
                  else String "-" EmptyString
              | r => String "-" r
              end).
      rewrite (rstrip_digits _ Hs). reflexivity. }
    change (PyInt.lstrip ("-" ++ String c s))
      with (String "-" (String c s)).
    rewrite Hr, Hd. reflexivity.
Qed.

(** X12.  The identifier that [search] writes for the numeric id [n] of a
    folder is read back by [fetch]: cutting ["<n>@<folder>"] at the first
    [@] gives the decimal text of [n] and the folder, even when the folder
    is empty or holds further [@], and [int] of that text is [n]. *)
Theorem X12_identifier_round_trip (n : Z) (folder : string) :
  split_first "@" (pretty n ++ "@" ++ folder) = Some (pretty n, folder)
  /\ PyInt.int_of_str (pretty n) = Ok n.
Proof.
  assert (Hpos : forall p : positive,
             string_forall is_digit (pretty (N.pos p)) = true
             /\ pretty (N.pos p) <> ""
             /\ PyInt.digits 0 false (pretty (N.pos p)) = Some (Z.pos p)).
  { intros p. unfold pretty, pretty_N.
    destruct (decide (N.pos p = 0%N)) as [|_]; [discriminate|].
    split; [apply pretty_N_go_all_digits; reflexivity|].
    split; [apply pretty_N_go_nonempty; lia|].
    rewrite digits_pretty_N_go by lia. reflexivity. }
  assert (Hno_at : forall s, string_forall is_digit s = true ->
             string_forall (fun c => negb (Ascii.eqb c "@")) s = true).
  { induction s as [|c s IH]; [reflexivity|]. cbn [string_forall].
    intros Hs. apply andb_prop in Hs as [Hc Hs]. rewrite (IH Hs).
    destruct (Ascii.eqb_spec c "@") as [->|]; [discriminate Hc|reflexivity]. }
  destruct n as [|p|p].
  - split; reflexivity.
  - destruct (Hpos p) as (Hd & Hne & Hv).
    split; [|exact (proj1 (int_of_digits (pretty (N.pos p)) (Z.pos p)
                             Hd Hne Hv))].
    apply (proj1 (split_first_spec "@" _)). split; [reflexivity|].
    apply Hno_at, Hd.
  - destruct (Hpos p) as (Hd & Hne & Hv).
    split; [|exact (proj2 (int_of_digits (pretty (N.pos p)) (Z.pos p)
                             Hd Hne Hv))].
    apply (proj1 (split_first_spec "@" _)). split; [reflexivity|].
    change (pretty (Z.neg p)) with (String "-" (pretty (N.pos p))).
    cbn [string_forall]. apply Hno_at, Hd.
Qed.

End Identifiers.

(** * Further properties of [search] *)

Section SearchMore.
Context {World : Type} {transport : Transport World} {dt : Datetime}
        {em : Email}.
Variable cfg : config.

Local Open Scope nat_scope.

Lemma calls_foldlM (P : event -> Prop) {A B} (f : A -> B -> io World A)
  (l : list B) :
  (forall a x w, Forall P (calls (f a x w))) ->
  forall a w, Forall P (calls (foldlM f a l w)).
Proof.
  intros Hf. induction l as [|x l IH]; intros a w; cbn [foldlM].
  - apply calls_ret.
  - apply calls_bind; [apply Hf|]. intros a' w'. apply IH.
Qed.

Lemma calls_fetch_batches (P : event -> Prop) (ids : list Z)
  (items : list string) (w : World) :
  (forall b, length b <= 50 -> P (EFetch b items)) ->
  P (ESleep SLEEP_TIME) ->
  Forall P (calls (fetch_batches ids items w)).
Proof.
  intros Hfetch Hsleep. unfold fetch_batches.
  apply calls_foldlM. intros resp i w1. cbv zeta.
  apply calls_bind.
  - unfold client_fetch. apply calls_call. apply Hfetch.
    rewrite length_take. unfold BATCH_SIZE. lia.
  - intros br w2. apply calls_bind; [|intros; apply calls_ret].
    destruct (i + BATCH_SIZE <? length ids);
      [unfold sleep; apply calls_call; exact Hsleep|apply calls_ret].
Qed.

Lemma run_lift_ok {A B} (a : A) (f : A -> io World B) (w : World) :
  (lift (Ok a) ≫= f) w = f a w.
Proof.
  unfold mbind, io_bind, lift. destruct (f a w) as [[r t] w']. reflexivity.
Qed.

Lemma search_eq (folder : string) (criteria : value) (fields : option dict)
  (w : World) (toks : list value) :
  dsl_to_search criteria = Ok toks ->
  search cfg folder criteria fields w =
    (try_log ([VStr "charset"; VStr "UTF-8"] ++ toks);;
     with_client cfg
       (search_session cfg folder fields
          ([VStr "charset"; VStr "UTF-8"] ++ toks))) w.
Proof.
  intros Hcompile. unfold search. rewrite Hcompile, run_lift_ok. reflexivity.
Qed.

(** The calls of the [with] block of [search] satisfy whatever its possible
    calls satisfy. *)
Lemma calls_search_session (P : event -> Prop) (folder : string)
  (fields : option dict) (sc : list value) :
  (IMAP_USE_STARTTLS cfg = true -> P EStarttls) ->
  P (ELogin (IMAP_USER cfg) (IMAP_PASSWORD cfg)) ->
  P (ESelectFolder folder) ->
  P (ESearch sc) ->
  (truthy (get_field fields "headers") || truthy (get_field fields "body")
     = true ->
   forall b, length b <= 50 -> P (EFetch b ["RFC822"])) ->
  P (ESleep SLEEP_TIME) ->
  forall w, Forall P (calls (search_session cfg folder fields sc w)).
Proof.
  intros Htls Hlogin Hselect Hsearch Hfetch Hsleep w.
  unfold search_session. apply calls_bind.
  { unfold enter_folder, open_session.
    apply calls_bind; [apply calls_bind|].
    - destruct (IMAP_USE_STARTTLS cfg); [|apply calls_ret].
      unfold client_starttls. apply calls_call. apply Htls. reflexivity.
    - intros. unfold client_login. apply calls_call. exact Hlogin.
    - intros. unfold client_select_folder. apply calls_call. exact Hselect. }
  intros _ w4. apply calls_bind.
  { unfold client_search. apply calls_call. exact Hsearch. }
  intros ids w5.
  destruct (truthy (get_field fields "headers")
            || truthy (get_field fields "body")) eqn:Hreq.
  - destruct (negb _ || bool_decide (ids = [])); [apply calls_ret|].
    apply calls_bind.
    + apply calls_fetch_batches; [|exact Hsleep].
      intros b Hb. apply Hfetch; [reflexivity|exact Hb].
    + intros resp w6. apply calls_bind; [apply calls_lift|].
      intros; apply calls_ret.
  - apply orb_false_elim in Hreq as [Hh Hb]. rewrite Hh, Hb.
    apply calls_ret.
Qed.

(** X13.  Whatever the server answers or refuses, every call that a
    [search] makes is one of: the debug log line with the criteria, the
    connection to the configured server (TLS exactly when STARTTLS is
    off), a STARTTLS (only when configured), the login with the configured
    credentials, the selection of the folder asked for, the search with
    the criteria, a fetch of RFC822 for at most 50 ids (only when headers
    or body were asked for), a pause of 0.5, or the logout. *)
Theorem X13_search_only_makes_expected_calls
  (folder : string) (criteria : value) (fields : option dict) (w : World)
  (toks : list value) :
  dsl_to_search criteria = Ok toks ->
  Forall (search_call_ok cfg folder fields
            ([VStr "charset"; VStr "UTF-8"] ++ toks))
         (calls (search cfg folder criteria fields w)).
Proof.
  intros Hcompile. rewrite (search_eq _ _ _ _ _ Hcompile).
  apply calls_bind.
  { rewrite try_log_run. repeat constructor. }
  intros _ w2. apply calls_with_client; [repeat split|exact I|].
  apply calls_search_session; cbn; auto.
Qed.

(** X14.  A [search] whose criteria compile logs the criteria, then
    connects once; if the connection is refused nothing else happens, and
    otherwise the session is closed by one logout, which is the last call,
    however the calls in between end. *)
Theorem X14_search_closes_its_session
  (folder : string) (criteria : value) (fields : option dict) (w : World)
  (toks : list value) :
  let sc := [VStr "charset"; VStr "UTF-8"] ++ toks in
  let connect := EConnect (IMAP_SERVER cfg) (IMAP_PORT cfg)
                          (negb (IMAP_USE_STARTTLS cfg)) in
  dsl_to_search criteria = Ok toks ->
  match imap_connect (IMAP_SERVER cfg) (IMAP_PORT cfg)
                     (negb (IMAP_USE_STARTTLS cfg)) (logged sc w) with
  | (Ok _, _) =>
      exists mid,
        calls (search cfg folder criteria fields w) =
          ELogMessage "debug" sc :: connect :: mid ++ [ELogout]
        /\ Forall (fun e => is_connect e = false /\ is_logout e = false) mid
  | (Raise e, _) =>
      calls (search cfg folder criteria fields w) =
        [ELogMessage "debug" sc; connect]
      /\ outcome (search cfg folder criteria fields w) = Raise e
  end.
Proof.
  cbv zeta. intros Hcompile. rewrite (search_eq _ _ _ _ _ Hcompile).
  destruct (imap_connect _ _ _ (logged _ w)) as [[[]|e] w1] eqn:Hconn.
  - destruct (search_session cfg folder fields
                ([VStr "charset"; VStr "UTF-8"] ++ toks) w1)
      as [[r t] w2] eqn:Hbody.
    exists t. split.
    + erewrite run_bind_ok;
        [|apply try_log_run|apply (with_client_run cfg _ _ _ _ _ _ Hconn Hbody)].
      reflexivity.
    + change t with (calls (r, t, w2)). rewrite <- Hbody.
      apply calls_search_session; repeat split.
  - erewrite run_bind_ok;
      [|apply try_log_run|unfold with_client; rewrite Hconn; reflexivity].
    split; reflexivity.
Qed.

(** The outcome of [search] once the session has the ids and the batches
    are fetched: the messages are built for the ids in their order. *)
Lemma search_outcome
  (folder : string) (criteria : value) (fields : option dict)
  (toks : list value) (ids : list Z) (resp : fetch_response)
  (w w1 w2 w3 : World) (t1 t2 : list event) :
  dsl_to_search criteria = Ok toks ->
  imap_connect (IMAP_SERVER cfg) (IMAP_PORT cfg)
               (negb (IMAP_USE_STARTTLS cfg))
               (logged ([VStr "charset"; VStr "UTF-8"] ++ toks) w)
    = (Ok tt, w1) ->
  (enter_folder cfg folder;;
   client_search ([VStr "charset"; VStr "UTF-8"] ++ toks)) w1
    = (Ok ids, t1, w2) ->
  truthy (get_field fields "headers") || truthy (get_field fields "body")
    = true ->
  fetch_batches ids ["RFC822"] w2 = (Ok resp, t2, w3) ->
  outcome (search cfg folder criteria fields w) =
    (msgs ← mapM (build_message folder (get_field fields "headers")
                                (get_field fields "body") resp) ids;
     Ok (VDict [("messages", VList msgs)])).
Proof.
  intros Hcompile Hconn Hsession Hreq Hbatches.
  rewrite (search_eq _ _ _ _ _ Hcompile).
  assert (Hdata :
            truthy (if truthy (get_field fields "headers")
                    then get_field fields "headers"
                    else get_field fields "body") = true).
  { destruct (truthy (get_field fields "headers")) eqn:Hh;
      [exact Hh|exact Hreq]. }
  assert (Hbody : exists t w',
            search_session cfg folder fields
              ([VStr "charset"; VStr "UTF-8"] ++ toks) w1 =
            (msgs ← mapM (build_message folder (get_field fields "headers")
                                        (get_field fields "body") resp) ids;
             Ok (VDict [("messages", VList msgs)]), t, w')).
  { unfold search_session. cbv zeta.
    rewrite <- run_bind_assoc. rewrite Hreq, Hdata. cbn [negb orb].
    destruct ids as [|id ids].
    - do 2 eexists. eapply run_bind_ok; [exact Hsession|]. reflexivity.
    - destruct (mapM (build_message folder (get_field fields "headers")
                                    (get_field fields "body") resp)
                     (id :: ids)) as [msgs|e] eqn:Hbuild.
      + do 2 eexists. eapply run_bind_ok; [exact Hsession|].
        rewrite bool_decide_false by discriminate.
        eapply run_bind_ok; [exact Hbatches|]. rewrite Hbuild. reflexivity.
      + do 2 eexists. eapply run_bind_ok; [exact Hsession|].
        rewrite bool_decide_false by discriminate.
        eapply run_bind_ok; [exact Hbatches|]. rewrite Hbuild. reflexivity. }
  destruct Hbody as (t & w' & Hbody).
  erewrite run_bind_ok;
    [|apply try_log_run|apply (with_client_run cfg _ _ _ _ _ _ Hconn Hbody)].
  reflexivity.
Qed.

Lemma mapM_ok_forall2 {A B} (f : A -> result B) (l : list A) (ys : list B) :
  mapM f l = Ok ys -> Forall2 (fun x y => f x = Ok y) l ys.
Proof.
  revert ys. induction l as [|x l IH]; intros ys.
  - intros [= <-]. constructor.
  - rewrite mapM_cons. destruct (f x) as [y|] eqn:Hx; [|discriminate].
    cbn [mbind result_bind].
    destruct (mapM f l) as [k|]; [|discriminate]. intros [= <-].
    constructor; [exact Hx|apply IH; reflexivity].
Qed.

Lemma build_message_shape (folder : string) (fields : option dict)
  (resp : fetch_response) (id : Z) (m : value) :
  build_message folder (get_field fields "headers")
                (get_field fields "body") resp id = Ok m ->
  truthy (get_field fields "headers") || truthy (get_field fields "body")
    = true ->
  message_id_of m = Some (VStr (pretty id ++ "@" ++ folder))
  /\ keys_of m = expected_keys fields.
Proof.
  unfold build_message, expected_keys. intros Hm Hreq. rewrite Hreq in Hm.
  destruct (rfc822_of resp id) as [raw|]; [|discriminate].
  cbn [mbind result_bind] in Hm.
  destruct (truthy (get_field fields "headers"));
    destruct (truthy (get_field fields "body")); try discriminate;
    try (destruct (get_email_body (message_from_bytes raw)); [|discriminate]);
    cbn [mbind result_bind] in Hm; injection Hm as <-; split; reflexivity.
Qed.

(** X15.  When [search] returns with headers or body asked for, [messages]
    has one entry per matching id, in the order of the search answer; the
    entry of id [n] has ["id"] equal to ["<n>@<folder>"], and its keys are
    [id], then [headers] if asked for, then [body] if asked for. *)
Theorem X15_search_result_follows_the_ids
  (folder : string) (criteria : value) (fields : option dict)
  (toks : list value) (ids : list Z) (w w1 w2 : World) (t1 : list event)
  (result : value) :
  dsl_to_search criteria = Ok toks ->
  imap_connect (IMAP_SERVER cfg) (IMAP_PORT cfg)
               (negb (IMAP_USE_STARTTLS cfg))
               (logged ([VStr "charset"; VStr "UTF-8"] ++ toks) w)
    = (Ok tt, w1) ->
  (enter_folder cfg folder;;
   client_search ([VStr "charset"; VStr "UTF-8"] ++ toks)) w1
    = (Ok ids, t1, w2) ->
  truthy (get_field fields "headers") || truthy (get_field fields "body")
    = true ->
  outcome (search cfg folder criteria fields w) = Ok result ->
  exists msgs,
    result = VDict [("messages", VList msgs)]
    /\ map message_id_of msgs =
         map (fun n => Some (VStr (pretty n ++ "@" ++ folder))) ids
    /\ Forall (fun m => keys_of m = expected_keys fields) msgs.
Proof.
  intros Hcompile Hconn Hsession Hreq Hresult.
  destruct (fetch_batches ids ["RFC822"] w2) as [[[resp|e] t2] w3] eqn:Hb.
  - rewrite (search_outcome folder criteria fields toks ids resp
               w w1 w2 w3 t1 t2 Hcompile Hconn Hsession Hreq Hb) in Hresult.
    destruct (mapM _ ids) as [msgs|] eqn:Hbuild; [|discriminate].
    injection Hresult as <-. exists msgs. split; [reflexivity|].
    apply mapM_ok_forall2 in Hbuild. clear Hsession Hb.
    induction Hbuild as [|id m ids' msgs' Hm _ IH].
    + split; [reflexivity|constructor].
    + destruct (build_message_shape _ _ _ _ _ Hm Hreq) as [Hid Hkeys].
      destruct IH as [IHid IHkeys]. cbn [map]. rewrite Hid, IHid.
      split; [reflexivity|constructor; assumption].
  - (* a batch failed: [search] raises *)
    exfalso. rewrite (search_eq _ _ _ _ _ Hcompile) in Hresult.
    assert (Hbody : exists t w',
              search_session cfg folder fields
                ([VStr "charset"; VStr "UTF-8"] ++ toks) w1 =
              (Raise e, t, w')).
    { unfold search_session. cbv zeta. rewrite <- run_bind_assoc.
      assert (Hdata :
                truthy (if truthy (get_field fields "headers")
                        then get_field fields "headers"
                        else get_field fields "body") = true).
      { destruct (truthy (get_field fields "headers")) eqn:Hh;
          [exact Hh|exact Hreq]. }
      rewrite Hreq, Hdata. cbn [negb orb].
      destruct ids as [|id ids]; [discriminate Hb|].
      do 2 eexists. eapply run_bind_ok; [exact Hsession|].
      rewrite bool_decide_false by discriminate.
      apply run_bind_raise. exact Hb. }
    destruct Hbody as (t & w' & Hbody).
    erewrite run_bind_ok in Hresult;
      [|apply try_log_run|apply (with_client_run cfg _ _ _ _ _ _ Hconn Hbody)].
    discriminate Hresult.
Qed.

(** X16.  When the answer to the fetches lacks one of the matching ids
    (the message went away after the search), [search] returns no partial
    result: the whole call ends in an exception. *)
Theorem X16_search_fails_when_an_answer_lacks_an_id
  (folder : string) (criteria : value) (fields : option dict)
  (toks : list value) (ids : list Z) (resp : fetch_response)
  (w w1 w2 w3 : World) (t1 t2 : list event) (id : Z) :
  dsl_to_search criteria = Ok toks ->
  imap_connect (IMAP_SERVER cfg) (IMAP_PORT cfg)
               (negb (IMAP_USE_STARTTLS cfg))
               (logged ([VStr "charset"; VStr "UTF-8"] ++ toks) w)
    = (Ok tt, w1) ->
  (enter_folder cfg folder;;
   client_search ([VStr "charset"; VStr "UTF-8"] ++ toks)) w1
    = (Ok ids, t1, w2) ->
  truthy (get_field fields "headers") || truthy (get_field fields "body")
    = true ->
  fetch_batches ids ["RFC822"] w2 = (Ok resp, t2, w3) ->
  In id ids ->
  resp !! id = None ->
  is_ok (outcome (search cfg folder criteria fields w)) = false.
Proof.
  intros Hcompile Hconn Hsession Hreq Hb Hin Hmiss.
  rewrite (search_outcome folder criteria fields toks ids resp
             w w1 w2 w3 t1 t2 Hcompile Hconn Hsession Hreq Hb).
  destruct (mapM_raises
              (build_message folder (get_field fields "headers")
                             (get_field fields "body") resp)
              ids id KeyError Hin) as [e' ->]; [|reflexivity].
  unfold build_message, rfc822_of. rewrite Hreq, Hmiss. reflexivity.
Qed.

End SearchMore.

Lemma X13_witness :
  Forall (search_call_ok test_config "INBOX" (Some [("body", VBool true)])
            [VStr "charset"; VStr "UTF-8"; VStr "SUBJECT"; VStr "test"])
         (calls (search test_config "INBOX" (VDict [("subject", VStr "test")])
                        (Some [("body", VBool true)]) (inbox (numbered 3)))).
Proof.
  exact (X13_search_only_makes_expected_calls
           (transport := mem_server) (dt := RefDatetime.ref_datetime)
           (em := RefEmail.ref_email) test_config "INBOX"
           (VDict [("subject", VStr "test")]) (Some [("body", VBool true)])
           (inbox (numbered 3)) [VStr "SUBJECT"; VStr "test"] eq_refl).
Defined.

Lemma X14_witness :
  exists mid,
    calls (search test_config "INBOX" (VDict [("subject", VStr "test")])
                  (Some [("body", VBool true)]) (inbox (numbered 3))) =
      ELogMessage "debug"
          [VStr "charset"; VStr "UTF-8"; VStr "SUBJECT"; VStr "test"]
        :: EConnect "imap.example.com" 993 true :: mid ++ [ELogout]
    /\ Forall (fun e => is_connect e = false /\ is_logout e = false) mid.
Proof.
  exact (X14_search_closes_its_session
           (transport := mem_server) (dt := RefDatetime.ref_datetime)
           (em := RefEmail.ref_email) test_config "INBOX"
           (VDict [("subject", VStr "test")]) (Some [("body", VBool true)])
           (inbox (numbered 3)) [VStr "SUBJECT"; VStr "test"] eq_refl).
Defined.

Lemma X15_witness :
  exists msgs,
    outcome (search test_config "Archive" (VDict [])
                    (Some [("headers", VBool true); ("body", VBool true)])
                    {| MemServer.folders := {[ "Archive" := numbered 3 ]};
                       MemServer.selected := None |})
      = Ok (VDict [("messages", VList msgs)])
    /\ map message_id_of msgs =
         [Some (VStr "1@Archive"); Some (VStr "2@Archive");
          Some (VStr "3@Archive")]
    /\ Forall (fun m => keys_of m = ["id"; "headers"; "body"]) msgs.
Proof.
  destruct (X15_search_result_follows_the_ids
              (transport := mem_server) (dt := RefDatetime.ref_datetime)
              (em := RefEmail.ref_email) test_config "Archive" (VDict [])
              (Some [("headers", VBool true); ("body", VBool true)])
              [VStr "ALL"] [1; 2; 3]%Z
              {| MemServer.folders := {[ "Archive" := numbered 3 ]};
                 MemServer.selected := None |} _ _ _ _
              eq_refl
              ltac:(vm_compute; reflexivity)
              ltac:(vm_compute; reflexivity)
              eq_refl
              ltac:(vm_compute; reflexivity))
    as (msgs & Hresult & Hids & Hkeys).
  exists msgs. split; [|split; [exact Hids|exact Hkeys]].
  rewrite <- Hresult. vm_compute. reflexivity.
Defined.

Lemma X16_witness :
  is_ok (outcome (search (transport := expunging_server) test_config "INBOX"
                         (VDict []) (Some [("body", VBool true)])
                         (inbox (numbered 3)))) = false.
Proof.
  exact (X16_search_fails_when_an_answer_lacks_an_id
           (transport := expunging_server) (dt := RefDatetime.ref_datetime)
           (em := RefEmail.ref_email) test_config "INBOX" (VDict [])
           (Some [("body", VBool true)]) [VStr "ALL"] [1; 2; 3]%Z ∅
           (inbox (numbered 3)) _ _ _ _ _ 2%Z
           eq_refl
           ltac:(vm_compute; reflexivity)
           ltac:(vm_compute; reflexivity)
           eq_refl
           ltac:(vm_compute; reflexivity)
           ltac:(right; left; reflexivity)
           eq_refl).
Defined.

(** * Further properties of [fetch] *)

Section FetchMore.
Context {World : Type} {transport : Transport World} {dt : Datetime}
        {em : Email}.
Variable cfg : config.

Local Open Scope nat_scope.

Lemma run_lift_raise {A B} (e : exn) (f : A -> io World B) (w : World) :
  (lift (Raise e) ≫= f) w = (Raise e, [], w).
Proof. reflexivity. Qed.

Lemma enter_folder_ok_calls (folder : string) (w w' : World)
  (t : list event) :
  enter_folder cfg folder w = (Ok tt, t, w') ->
  EConnect (IMAP_SERVER cfg) (IMAP_PORT cfg) (negb (IMAP_USE_STARTTLS cfg))
    :: t = session_start cfg folder.
Proof.
  unfold enter_folder, open_session, session_start. intros Hrun.
  apply run_bind_ok_inv in Hrun as (u & t1 & w1 & t2 & Hopen & Hsel & ->).
  apply run_bind_ok_inv in Hopen as (u' & t3 & w3 & t4 & Htls & Hlogin & ->).
  apply call_ok_inv in Hsel as ->. apply call_ok_inv in Hlogin as ->.
  destruct (IMAP_USE_STARTTLS cfg).
  - apply call_ok_inv in Htls as ->. reflexivity.
  - injection Htls as _ <- _. reflexivity.
Qed.

(** One iteration of [fetch] that returns. *)
Lemma fetch_one_ok_inv (results m : gmap string string)
  (message_id : string) (w w' : World) (t : list event) :
  fetch_one cfg results message_id w = (Ok m, t, w') ->
  exists body,
    target_of message_id <> None
    /\ m = <[message_id := body]> results
    /\ t = fetch_session cfg message_id.
Proof.
  unfold fetch_one, fetch_session, target_of.
  destruct (split_first "@" message_id) as [[id folder]|];
    [|rewrite run_lift_raise; discriminate].
  rewrite run_lift_ok. intros Hrun.
  apply with_client_ok_inv in Hrun as (w1 & t1 & w2 & _ & Hbody & -> & _).
  apply run_bind_ok_inv in Hbody as ([] & t2 & w3 & t3 & Henter & Hrest & ->).
  apply enter_folder_ok_calls in Henter.
  destruct (PyInt.int_of_str id) as [n|e];
    [|rewrite run_lift_raise in Hrest; discriminate].
  rewrite run_lift_ok in Hrest.
  apply run_bind_ok_inv in Hrest as (resp & t4 & w4 & t5 & Hfetch & Hrest & ->).
  apply call_ok_inv in Hfetch as ->.
  destruct (rfc822_of resp n) as [raw|e];
    [|rewrite run_lift_raise in Hrest; discriminate].
  rewrite run_lift_ok in Hrest.
  destruct (get_email_body (message_from_bytes raw)) as [body|e];
    [|rewrite run_lift_raise in Hrest; discriminate].
  rewrite run_lift_ok in Hrest. injection Hrest as <- <- _.
  exists body. split; [discriminate|]. split; [reflexivity|].
  rewrite <- Henter, app_nil_r. cbn [app]. rewrite <- app_assoc. reflexivity.
Qed.

Lemma fetch_loop_ok (message_ids : list string) :
  forall (results m : gmap string string) (w w' : World) (t : list event),
    foldlM (fetch_one cfg) results message_ids w = (Ok m, t, w') ->
    Forall (fun message_id => target_of message_id <> None) message_ids
    /\ t = concat (map (fetch_session cfg) message_ids)
    /\ dom m = dom results ∪ list_to_set message_ids.
Proof.
  induction message_ids as [|x l IH]; intros results m w w' t Hrun.
  - injection Hrun as <- <- _. split; [constructor|].
    split; [reflexivity|]. cbn [list_to_set]. rewrite (right_id_L ∅ (∪)).
    reflexivity.
  - cbn [foldlM] in Hrun.
    apply run_bind_ok_inv in Hrun as (m1 & t1 & w1 & t2 & Hone & Hrest & ->).
    apply fetch_one_ok_inv in Hone as (body & Htarget & -> & ->).
    apply IH in Hrest as (Hall & -> & Hdom).
    split; [constructor; assumption|]. split; [reflexivity|].
    rewrite Hdom, dom_insert_L. cbn [list_to_set].
    rewrite (comm_L (∪) {[x]} (dom results)), <- (assoc_L (∪)). reflexivity.
Qed.

(** X17.  When [fetch] returns, every id had the form ["<digits>@<folder>"]
    that [int] accepts, the calls were, for each id in turn, one complete
    session of its own (connection, STARTTLS if configured, login,
    selection of the id's folder, one fetch of RFC822 for the one number,
    logout), also for ids of the same folder, and the keys of the result
    are exactly the ids given. *)
Theorem X17_fetch_opens_one_session_per_id
  (message_ids : list string) (w : World) (m : gmap string string) :
  outcome (fetch cfg message_ids w) = Ok m ->
  Forall (fun message_id => target_of message_id <> None) message_ids
  /\ calls (fetch cfg message_ids w) =
       concat (map (fetch_session cfg) message_ids)
  /\ dom m = list_to_set message_ids.
Proof.
  unfold fetch.
  destruct (foldlM (fetch_one cfg) ∅ message_ids w) as [[r t] w'] eqn:Hrun.
  cbn. intros ->.
  apply fetch_loop_ok in Hrun as (Hall & -> & Hdom).
  split; [exact Hall|]. split; [reflexivity|].
  rewrite Hdom, dom_empty_L, (left_id_L ∅ (∪)). reflexivity.
Qed.

(** X18.  A message id without [@] raises [ValueError] and ends [fetch]
    before any call is made for it: the calls are those for the ids before
    it, the bodies found for these are lost, the ids after it are not
    looked at. *)
Theorem X18_id_without_separator_aborts_fetch
  (pre post : list string) (message_id : string) (w w1 : World)
  (found : gmap string string) (t1 : list event) :
  fetch cfg pre w = (Ok found, t1, w1) ->
  string_forall (fun c => negb (Ascii.eqb c "@")) message_id = true ->
  fetch cfg (pre ++ message_id :: post) w = (Raise ValueError, t1, w1).
Proof.
  intros Hpre Hno. unfold fetch in *.
  rewrite <- (app_nil_r t1).
  eapply foldlM_stops; [exact Hpre|].
  unfold fetch_one.
  apply (proj2 (split_first_spec "@" message_id)) in Hno. rewrite Hno.
  apply run_lift_raise.
Qed.

(** X19.  A message id whose part before the first [@] is an ASCII
    string that is not a number for [int] raises [ValueError] only after
    the server has been contacted: the session is opened and the folder
    selected, then the call ends without any fetch, the session being
    closed. *)
Theorem X19_non_numeric_id_aborts_after_select
  (pre post : list string) (message_id id folder : string)
  (w w1 w2 w3 : World) (found : gmap string string) (t1 t : list event) :
  fetch cfg pre w = (Ok found, t1, w1) ->
  split_first "@" message_id = Some (id, folder) ->
  imap_connect (IMAP_SERVER cfg) (IMAP_PORT cfg)
               (negb (IMAP_USE_STARTTLS cfg)) w1 = (Ok tt, w2) ->
  enter_folder cfg folder w2 = (Ok tt, t, w3) ->
  string_forall is_ascii id = true ->
  is_ok (PyInt.int_of_str id) = false ->
  fetch cfg (pre ++ message_id :: post) w =
    (Raise ValueError, t1 ++ session_start cfg folder ++ [ELogout],
     imap_logout w3).
Proof.
  intros Hpre Hsplit Hconn Henter _ Hint. unfold fetch in *.
  eapply foldlM_stops; [exact Hpre|].
  unfold fetch_one. rewrite Hsplit, run_lift_ok.
  rewrite <- (enter_folder_ok_calls _ _ _ _ Henter).
  eapply with_client_run; [exact Hconn|].
  rewrite <- (app_nil_r t).
  eapply run_bind_ok; [exact Henter|].
  unfold PyInt.int_of_str in *.
  destruct (match PyInt.rstrip (PyInt.lstrip id) with
            | String "+" s' => PyInt.digits 0 false s'
            | String "-" s' => Z.opp <$> PyInt.digits 0 false s'
            | _ => PyInt.digits 0 false (PyInt.rstrip (PyInt.lstrip id))
            end); [discriminate Hint|].
  apply run_lift_raise.
Qed.

End FetchMore.

Lemma X17_witness :
  calls (fetch test_config ["1@INBOX"; "2@INBOX"; "1@INBOX"]
               (inbox (numbered 2))) =
    [EConnect "imap.example.com" 993 true; ELogin "user" "secret";
     ESelectFolder "INBOX"; EFetch [1%Z] ["RFC822"]; ELogout;
     EConnect "imap.example.com" 993 true; ELogin "user" "secret";
     ESelectFolder "INBOX"; EFetch [2%Z] ["RFC822"]; ELogout;
     EConnect "imap.example.com" 993 true; ELogin "user" "secret";
     ESelectFolder "INBOX"; EFetch [1%Z] ["RFC822"]; ELogout].
Proof.
  refine (eq_trans
            (proj1 (proj2 (X17_fetch_opens_one_session_per_id
                             (transport := mem_server)
                             (em := RefEmail.ref_email) test_config
                             ["1@INBOX"; "2@INBOX"; "1@INBOX"]
                             (inbox (numbered 2)) _ _))) _).
  - vm_compute. reflexivity.
  - vm_compute. reflexivity.
Defined.

Lemma X18_witness :
  fetch test_config (["1@INBOX"] ++ "42" :: ["2@INBOX"])
        (inbox (numbered 2)) =
    (Raise ValueError,
     [EConnect "imap.example.com" 993 true; ELogin "user" "secret";
      ESelectFolder "INBOX"; EFetch [1%Z] ["RFC822"]; ELogout],
     inbox (numbered 2)).
Proof.
  exact (X18_id_without_separator_aborts_fetch
           (transport := mem_server) (em := RefEmail.ref_email)
           test_config ["1@INBOX"] ["2@INBOX"] "42"
           (inbox (numbered 2)) _ _ _
           ltac:(vm_compute; reflexivity) eq_refl).
Defined.

Lemma X19_witness :
  fetch test_config ([] ++ "abc@INBOX" :: ["2@INBOX"])
        (inbox (numbered 2)) =
    (Raise ValueError,
     [EConnect "imap.example.com" 993 true; ELogin "user" "secret";
      ESelectFolder "INBOX"; ELogout],
     inbox (numbered 2)).
Proof.
  exact (X19_non_numeric_id_aborts_after_select
           (transport := mem_server) (em := RefEmail.ref_email)
           test_config [] ["2@INBOX"] "abc@INBOX" "abc" "INBOX"
           (inbox (numbered 2)) _ _ _ _ _ _
           ltac:(vm_compute; reflexivity) eq_refl
           ltac:(vm_compute; reflexivity)
           ltac:(vm_compute; reflexivity) eq_refl eq_refl).
Defined.

(** * Further properties of the batches *)

Section BatchMore.
Context {World : Type} {transport : Transport World} {dt : Datetime}
        {em : Email}.

Local Open Scope nat_scope.

Lemma chunks_length {A} (fuel n : nat) (l : list A) :
  0 < n -> length l <= fuel ->
  length (chunks fuel n l) = (length l + (n - 1)) / n.
Proof.
  intros Hn. revert l. induction fuel as [|fuel IH]; intros l Hlen.
  - destruct l; [|cbn in Hlen; lia].
    cbn. symmetry. apply Nat.div_small. lia.
  - destruct l as [|x l].
    + cbn. symmetry. apply Nat.div_small. lia.
    + cbn [chunks length]. rewrite IH
        by (rewrite length_drop; cbn [length] in *; lia).
      rewrite length_drop. cbn [length].
      destruct (Nat.le_gt_cases (S (length l)) n) as [Hle|Hgt].
      * replace (S (length l) - n) with 0 by lia.
        rewrite (Nat.div_small (0 + (n - 1)) n) by lia.
        replace (S (length l) + (n - 1)) with ((S (length l) - 1) + 1 * n)
          by lia.
        rewrite Nat.div_add by lia.
        rewrite Nat.div_small by lia. reflexivity.
      * replace (S (length l) + (n - 1))
          with ((S (length l) - n + (n - 1)) + 1 * n) by lia.
        rewrite Nat.div_add by lia. lia.
Qed.

(** X20.  When its fetches succeed, the batch loop of [search] makes
    [ceil(n / 50)] fetch calls for [n] matching ids and one pause fewer
    (none for at most 50 ids). *)
Theorem X20_number_of_fetches_and_pauses
  (ids : list Z) (items : list string) (w : World) :
  is_ok (outcome (fetch_batches ids items w)) = true ->
  length (List.filter is_fetch (calls (fetch_batches ids items w)))
    = (length ids + 49) / 50
  /\ length (List.filter is_sleep (calls (fetch_batches ids items w)))
    = (length ids + 49) / 50 - 1.
Proof.
  destruct (fetch_batches ids items w) as [[[resp|e] t] w'] eqn:Hrun;
    [intros _|discriminate].
  apply fetch_batches_calls in Hrun. cbn [calls fst snd]. subst t.
  assert (Hall : Forall (fun c => is_fetch c = true)
                        (map (fun b => EFetch b items) (batches ids))).
  { generalize (batches ids). intros bs.
    induction bs; constructor; [reflexivity|assumption]. }
  destruct (paced_counts _ Hall) as (Hf & Hs & _).
  rewrite Hf, Hs, length_map. unfold batches.
  rewrite chunks_length by (unfold BATCH_SIZE; lia).
  split; reflexivity.
Qed.

End BatchMore.

Lemma X20_witness :
  let r := fetch_batches (transport := mem_server)
             (map Z.of_nat (seq 1 120)) ["RFC822"]
             (MemServer.select "INBOX" (inbox (numbered 120))).2 in
  length (List.filter is_fetch (calls r)) = 3%nat
  /\ length (List.filter is_sleep (calls r)) = 2%nat.
Proof.
  cbv zeta.
  pose proof (X20_number_of_fetches_and_pauses
                (transport := mem_server) (map Z.of_nat (seq 1 120))
                ["RFC822"]
                (MemServer.select "INBOX" (inbox (numbered 120))).2
                ltac:(vm_compute; reflexivity)) as [Hfetch Hsleep].
  rewrite Hfetch, Hsleep. split; reflexivity.
Defined.

(** * The content of the entries of [search] *)

Section SearchContent.
Context {World : Type} {transport : Transport World} {dt : Datetime}
        {em : Email}.
Variable cfg : config.

Local Open Scope nat_scope.

Lemma call_ok_run {A} (e : event) (op : World -> result A * World)
  (w w' : World) (a : A) (t : list event) :
  call e op w = (Ok a, t, w') -> op w = (Ok a, w').
Proof.
  unfold call. destruct (op w) as [r w1]. intros [= -> _ ->]. reflexivity.
Qed.

(** The loop from index [j * BATCH_SIZE] on, [m] iterations being left:
    what it returns is [resp] updated with the answers of the server to
    the batches that are left, in their order. *)
Lemma batch_loop_answers (ids : list Z) (items : list string) (m : nat) :
  forall j fuel resp w resp' t w',
    (0 < m -> (j + m - 1) * BATCH_SIZE < length ids) ->
    length ids <= (j + m) * BATCH_SIZE ->
    length (drop (j * BATCH_SIZE) ids) <= fuel ->
    foldlM
      (fun (resp : fetch_response) (i : nat) =>
         let batch_ids := take BATCH_SIZE (drop i ids) in
         batch_resp ← client_fetch batch_ids items;
         let resp := batch_resp ∪ resp in
         (if i + BATCH_SIZE <? length ids
          then sleep SLEEP_TIME else mret tt);;
         mret resp)
      resp (map (fun k => 0 + k * BATCH_SIZE) (seq j m)) w
    = (Ok resp', t, w') ->
    exists answers,
      batch_answers items
        (chunks fuel BATCH_SIZE (drop (j * BATCH_SIZE) ids)) w
        = (Ok answers, w')
      /\ resp' = merge_into resp answers.
Proof.
  induction m as [|m IH]; intros j fuel resp w resp' t w' Hlast Hend Hfuel Hrun.
  - cbn in Hrun. injection Hrun as <- _ <-.
    rewrite drop_ge by lia. exists [].
    destruct fuel; split; reflexivity.
  - cbn [seq map foldlM] in Hrun.
    apply run_bind_ok_inv in Hrun as (resp1 & t1 & w1 & t2 & Hstep & Hrest & ->).
    cbv zeta in Hstep.
    apply run_bind_ok_inv in Hstep as (br & ta & wa & tb & Hf & Hs & ->).
    apply call_ok_run in Hf.
    apply run_bind_ok_inv in Hs as ([] & tc & wc & td & Hs & Hr & ->).
    injection Hr as <- _ <-.
    assert (Hj : j * BATCH_SIZE < length ids) by (unfold BATCH_SIZE in *; lia).
    rewrite length_drop in Hfuel.
    destruct fuel as [|fuel]; [lia|].
    destruct (drop (j * BATCH_SIZE) ids) as [|x rest] eqn:Hdrop.
    { apply (f_equal length) in Hdrop. rewrite length_drop in Hdrop.
      cbn in Hdrop. lia. }
    cbn [chunks]. rewrite <- Hdrop.
    rewrite drop_drop.
    replace (j * BATCH_SIZE + BATCH_SIZE) with (S j * BATCH_SIZE) by lia.
    destruct (IH (S j) fuel (br ∪ resp) wc resp' t2 w') as (answers & Hans & ->);
      [intros Hm; unfold BATCH_SIZE in *; lia
      |unfold BATCH_SIZE in *; lia
      |rewrite length_drop; unfold BATCH_SIZE in *; lia
      |exact Hrest|].
    replace (0 + j * BATCH_SIZE) with (j * BATCH_SIZE) in Hf, Hs
      by reflexivity.
    exists (br :: answers). split; [|reflexivity].
    cbn [batch_answers]. rewrite Hf.
    destruct (j * BATCH_SIZE + BATCH_SIZE <? length ids) eqn:Hmore.
    + apply Nat.ltb_lt in Hmore.
      unfold sleep in Hs. apply call_ok_run in Hs. injection Hs as <-.
      destruct (chunks fuel BATCH_SIZE (drop (S j * BATCH_SIZE) ids))
        as [|b bs] eqn:Hch.
      { apply chunks_nil_iff in Hch.
        - apply (f_equal length) in Hch. rewrite length_drop in Hch.
          cbn in Hch. unfold BATCH_SIZE in *. lia.
        - rewrite length_drop. unfold BATCH_SIZE in *. lia. }
      rewrite Hans. reflexivity.
    + apply Nat.ltb_ge in Hmore.
      injection Hs as _ <-.
      rewrite (drop_ge ids (S j * BATCH_SIZE)) in Hans |- *
        by (unfold BATCH_SIZE in *; lia).
      destruct fuel; cbn [chunks] in Hans |- *; rewrite Hans; reflexivity.
Qed.

(** What the batch loop returns is the answers of the server to the
    batches, merged in their order. *)
Lemma fetch_batches_answers (ids : list Z) (items : list string)
  (w w' : World) (resp : fetch_response) (t : list event) :
  fetch_batches ids items w = (Ok resp, t, w') ->
  exists answers,
    batch_answers items (batches ids) w = (Ok answers, w')
    /\ resp = merge_into ∅ answers.
Proof.
  unfold fetch_batches, range, batches. intros Hrun.
  apply (batch_loop_answers ids items _ 0 (length ids)) in Hrun.
  - exact Hrun.
  - intros Hm. rewrite Nat.sub_0_r in *. unfold BATCH_SIZE in *.
    pose proof (Nat.div_mod_eq (length ids + (50 - 1)) 50).
    pose proof (Nat.mod_upper_bound (length ids + (50 - 1)) 50). lia.
  - rewrite Nat.sub_0_r. unfold BATCH_SIZE in *.
    pose proof (Nat.div_mod_eq (length ids + (50 - 1)) 50).
    pose proof (Nat.mod_upper_bound (length ids + (50 - 1)) 50). lia.
  - rewrite length_drop. lia.
Qed.

(** An entry of the merged answers comes from the last answer that has
    one for the id. *)
Lemma merge_into_lookup (answers : list fetch_response) :
  forall (resp : fetch_response) (id : Z) (data : gmap string (list byte)),
    merge_into resp answers !! id = Some data ->
    (exists pre answer post,
       answers = pre ++ answer :: post
       /\ answer !! id = Some data
       /\ Forall (fun a : fetch_response => a !! id = None) post)
    \/ (resp !! id = Some data
        /\ Forall (fun a : fetch_response => a !! id = None) answers).
Proof.
  induction answers as [|a l IH]; intros resp id data Hget.
  - right. split; [exact Hget|constructor].
  - cbn [merge_into fold_left] in Hget.
    destruct (IH (a ∪ resp) id data Hget)
      as [(pre & answer & post & -> & Hans & Hpost)|[Hhere Hrest]].
    + left. exists (a :: pre), answer, post.
      split; [reflexivity|]. split; assumption.
    + apply lookup_union_Some_raw in Hhere as [Ha|[Ha Hresp]].
      * left. exists [], a, l. split; [reflexivity|]. split; assumption.
      * right. split; [exact Hresp|]. constructor; assumption.
Qed.

(** When [search] returns with something asked for, the batches were
    fetched. *)
Lemma search_returns_fetched
  (folder : string) (criteria : value) (fields : option dict)
  (toks : list value) (ids : list Z) (w w1 w2 : World) (t1 : list event)
  (result : value) :
  dsl_to_search criteria = Ok toks ->
  imap_connect (IMAP_SERVER cfg) (IMAP_PORT cfg)
               (negb (IMAP_USE_STARTTLS cfg))
               (logged ([VStr "charset"; VStr "UTF-8"] ++ toks) w)
    = (Ok tt, w1) ->
  (enter_folder cfg folder;;
   client_search ([VStr "charset"; VStr "UTF-8"] ++ toks)) w1
    = (Ok ids, t1, w2) ->
  truthy (get_field fields "headers") || truthy (get_field fields "body")
    = true ->
  outcome (search cfg folder criteria fields w) = Ok result ->
  exists resp t2 w3, fetch_batches ids ["RFC822"] w2 = (Ok resp, t2, w3).
Proof.
  intros Hcompile Hconn Hsession Hreq Hresult.
  destruct (fetch_batches ids ["RFC822"] w2) as [[[resp|e] t2] w3] eqn:Hb;
    [eauto|].
  exfalso. rewrite (search_eq _ _ _ _ _ _ Hcompile) in Hresult.
  assert (Hbody : exists t w',
            search_session cfg folder fields
              ([VStr "charset"; VStr "UTF-8"] ++ toks) w1 =
            (Raise e, t, w')).
  { unfold search_session. cbv zeta. rewrite <- run_bind_assoc.
    assert (Hdata :
              truthy (if truthy (get_field fields "headers")
                      then get_field fields "headers"
                      else get_field fields "body") = true).
    { destruct (truthy (get_field fields "headers")) eqn:Hh;
        [exact Hh|exact Hreq]. }
    rewrite Hreq, Hdata. cbn [negb orb].
    destruct ids as [|id ids]; [discriminate Hb|].
    do 2 eexists. eapply run_bind_ok; [exact Hsession|].
    rewrite bool_decide_false by discriminate.
    apply run_bind_raise. exact Hb. }
  destruct Hbody as (t & w' & Hbody).
  erewrite run_bind_ok in Hresult;
    [|apply try_log_run|apply (with_client_run cfg _ _ _ _ _ _ Hconn Hbody)].
  discriminate Hresult.
Qed.

Lemma build_message_content (folder : string) (fields : option dict)
  (resp : fetch_response) (id : Z) (m : value) :
  build_message folder (get_field fields "headers")
                (get_field fields "body") resp id = Ok m ->
  truthy (get_field fields "headers") || truthy (get_field fields "body")
    = true ->
  exists raw,
    rfc822_of resp id = Ok raw
    /\ (truthy (get_field fields "headers") = true ->
        entry_of "headers" m =
          Some (VDict (extract_headers (message_from_bytes raw))))
    /\ (truthy (get_field fields "body") = true ->
        exists body,
          get_email_body (message_from_bytes raw) = Ok body
          /\ entry_of "body" m = Some (VStr body)).
Proof.
  unfold build_message. intros Hm Hreq. rewrite Hreq in Hm.
  destruct (rfc822_of resp id) as [raw|]; [|discriminate].
  cbn [mbind result_bind] in Hm. exists raw. split; [reflexivity|].
  destruct (truthy (get_field fields "headers"));
    destruct (truthy (get_field fields "body")); try discriminate Hreq.
  - destruct (get_email_body (message_from_bytes raw)) as [body|];
      [|discriminate].
    cbn [mbind result_bind] in Hm. injection Hm as <-.
    split; [reflexivity|]. intros _. exists body. split; reflexivity.
  - cbn [mbind result_bind] in Hm. injection Hm as <-.
    split; [reflexivity|discriminate].
  - destruct (get_email_body (message_from_bytes raw)) as [body|];
      [|discriminate].
    cbn [mbind result_bind] in Hm. injection Hm as <-.
    split; [discriminate|]. intros _. exists body. split; reflexivity.
Qed.

(** X22.  When [search] returns with headers or body asked for, the
    server has answered the fetch of every batch, and the entry of each
    matching id is made from the RFC822 bytes of the last of these answers
    that has an entry for the id: its [headers] is the header dict of the
    parsed bytes and its [body] is what [get_email_body] returns on them,
    the function [fetch] applies to the bytes it gets. *)
Theorem X22_search_entries_hold_the_fetched_content
  (folder : string) (criteria : value) (fields : option dict)
  (toks : list value) (ids : list Z) (w w1 w2 : World) (t1 : list event)
  (result : value) :
  dsl_to_search criteria = Ok toks ->
  imap_connect (IMAP_SERVER cfg) (IMAP_PORT cfg)
               (negb (IMAP_USE_STARTTLS cfg))
               (logged ([VStr "charset"; VStr "UTF-8"] ++ toks) w)
    = (Ok tt, w1) ->
  (enter_folder cfg folder;;
   client_search ([VStr "charset"; VStr "UTF-8"] ++ toks)) w1
    = (Ok ids, t1, w2) ->
  truthy (get_field fields "headers") || truthy (get_field fields "body")
    = true ->
  outcome (search cfg folder criteria fields w) = Ok result ->
  exists answers msgs,
    (batch_answers ["RFC822"] (batches ids) w2).1 = Ok answers
    /\ result = VDict [("messages", VList msgs)]
    /\ Forall2
         (fun id m =>
            exists pre answer post data raw,
              answers = pre ++ answer :: post
              /\ answer !! id = Some data
              /\ Forall (fun a : fetch_response => a !! id = None) post
              /\ data !! "RFC822" = Some raw
              /\ (truthy (get_field fields "headers") = true ->
                  entry_of "headers" m =
                    Some (VDict (extract_headers (message_from_bytes raw))))
              /\ (truthy (get_field fields "body") = true ->
                  exists body,
                    get_email_body (message_from_bytes raw) = Ok body
                    /\ entry_of "body" m = Some (VStr body)))
         ids msgs.
Proof.
  intros Hcompile Hconn Hsession Hreq Hresult.
  destruct (search_returns_fetched folder criteria fields toks ids
              w w1 w2 t1 result Hcompile Hconn Hsession Hreq Hresult)
    as (resp & t2 & w3 & Hb).
  rewrite (search_outcome cfg folder criteria fields toks ids resp
             w w1 w2 w3 t1 t2 Hcompile Hconn Hsession Hreq Hb) in Hresult.
  destruct (fetch_batches_answers _ _ _ _ _ _ Hb) as (answers & Hans & ->).
  destruct (mapM _ ids) as [msgs|] eqn:Hbuild; [|discriminate].
  injection Hresult as <-. exists answers, msgs.
  split; [rewrite Hans; reflexivity|]. split; [reflexivity|].
  apply mapM_ok_forall2 in Hbuild. clear Hsession Hb Hans.
  induction Hbuild as [|id m ids' msgs' Hm _ IH]; constructor;
    [|exact IH].
  destruct (build_message_content _ _ _ _ _ Hm Hreq)
    as (raw & Hraw & Hheaders & Hbody).
  unfold rfc822_of in Hraw.
  destruct (merge_into ∅ answers !! id) as [data|] eqn:Hdata;
    [|discriminate].
  destruct (data !! "RFC822") as [raw'|] eqn:Hitem; [|discriminate].
  injection Hraw as ->.
  destruct (merge_into_lookup answers ∅ id data Hdata)
    as [(pre & answer & post & Hsplit & Hanswer & Hpost)|[Hempty _]];
    [|rewrite lookup_empty in Hempty; discriminate].
  exists pre, answer, post, data, raw.
  repeat (split; [assumption|]). exact Hbody.
Qed.

End SearchContent.

Lemma X22_witness :
  let fields := Some [("headers", VBool true); ("body", VBool true)] in
  let expected :=
    VDict [("messages",
            VList (map (MailText.letter_entry "INBOX") (seq 1 51)))] in
  outcome (search (em := MailText.mail_text) test_config "INBOX" (VDict [])
                  fields (inbox (MailText.letters 51))) = Ok expected
  /\ exists answers msgs,
       (batch_answers ["RFC822"] (batches (map Z.of_nat (seq 1 51)))
          (MemServer.select "INBOX" (inbox (MailText.letters 51))).2).1
         = Ok answers
       /\ length answers = 2%nat
       /\ expected = VDict [("messages", VList msgs)]
       /\ Forall2
            (fun id m =>
               exists pre answer post data raw,
                 answers = pre ++ answer :: post
                 /\ answer !! id = Some data
                 /\ Forall (fun a : fetch_response => a !! id = None) post
                 /\ data !! "RFC822" = Some raw
                 /\ (truthy (get_field fields "headers") = true ->
                     entry_of "headers" m =
                       Some (VDict (extract_headers (MailText.parse raw))))
                 /\ (truthy (get_field fields "body") = true ->
                     exists body,
                       get_email_body (em := MailText.mail_text)
                                      (MailText.parse raw) = Ok body
                       /\ entry_of "body" m = Some (VStr body)))
            (map Z.of_nat (seq 1 51)) msgs.
Proof.
  cbv zeta.
  assert (Hout :
    outcome (search (em := MailText.mail_text) test_config "INBOX" (VDict [])
               (Some [("headers", VBool true); ("body", VBool true)])
               (inbox (MailText.letters 51))) =
    Ok (VDict [("messages",
                VList (map (MailText.letter_entry "INBOX") (seq 1 51)))]))
    by (vm_compute; reflexivity).
  split; [exact Hout|].
  destruct (X22_search_entries_hold_the_fetched_content
              (transport := mem_server) (dt := RefDatetime.ref_datetime)
              (em := MailText.mail_text) test_config "INBOX" (VDict [])
              (Some [("headers", VBool true); ("body", VBool true)])
              [VStr "ALL"] (map Z.of_nat (seq 1 51))
              (inbox (MailText.letters 51))
              (inbox (MailText.letters 51))
              (MemServer.select "INBOX" (inbox (MailText.letters 51))).2
              [ELogin "user" "secret"; ESelectFolder "INBOX";
               ESearch [VStr "charset"; VStr "UTF-8"; VStr "ALL"]]
              _
              eq_refl
              ltac:(vm_compute; reflexivity)
              ltac:(vm_compute; reflexivity)
              eq_refl
              Hout)
    as (answers & msgs & Hans & Hresult & Hcontent).
  exists answers, msgs. split; [exact Hans|].
  split; [|split; [exact Hresult|exact Hcontent]].
  assert (Hlen : match (batch_answers ["RFC822"]
                          (batches (map Z.of_nat (seq 1 51)))
                          (MemServer.select "INBOX"
                             (inbox (MailText.letters 51))).2).1 with
                 | Ok l => length l
                 | Raise _ => 0%nat
                 end = 2%nat)
    by (vm_compute; reflexivity).
  rewrite Hans in Hlen. exact Hlen.
Defined.
